(** * commitlint-plugin-conditionals: the [ignoreForAuthors] rule

    A shallow embedding of [src/rules/ignore-for-authors.ts] in its two
    versions (the one keyed on substrings of the raw commit message and the
    one keyed on [Signed-off-by:] trailers), followed by the properties of
    the rule-delegation engine.

    Conventions of the embedding.
    - A JavaScript string is a [string]; each character stands for one
      UTF-16 code unit in the range 0..255.  Every literal of the source is
      ASCII.
    - A JavaScript value is a [JS.Value]: JSON-like data, [Error] instances
      and opaque callables; a number is an integer-valued double and an
      array has no holes.  Values carry no getters, no [then] and no
      iterator of their own; an object may carry its own [toString] and
      [valueOf], which a conversion to text runs.
    - The keys the rule spells out ([raw], [rulesToEnforce], [packageName],
      [default], [rules], ...) are read as own properties: no built-in
      prototype defines one of them.  The one key that is computed at run
      time, the rule name looked up in a catalogue, goes through the
      prototype chain.
    - What belongs to the environment is answered by a [World], as a
      function of the request: [import(name)], the call of a function, the
      members that the built-in prototypes hand down, and the source text of
      a function.  The imports and the calls of delegated rules are
      recorded, in order, in the trace of the computation. *)

From Stdlib Require Import String Ascii List Bool ZArith NArith Arith Lia.
From Stdlib Require Import Numbers.DecimalString.
Import ListNotations.
Open Scope list_scope.
Open Scope string_scope.

(** ** Text primitives *)

Module Text.

Definition code (c : ascii) : N := N_of_ascii c.

(** ECMAScript LineTerminator, restricted to code units below 256. *)
Definition isLineTerminator (c : ascii) : bool :=
  existsb (N.eqb (code c)) [10; 13]%N.

(** ECMAScript WhiteSpace and LineTerminator: what [\s] and
    [String.prototype.trim] recognise. *)
Definition isSpace (c : ascii) : bool :=
  existsb (N.eqb (code c)) [9; 10; 11; 12; 13; 32; 160]%N.

Definition toLower (c : ascii) : ascii :=
  if ((65 <=? code c) && (code c <=? 90))%N
  then ascii_of_N (code c + 32) else c.

(** [startsWith p s]: [s.startsWith(p)]. *)
Fixpoint startsWith (p s : string) : bool :=
  match p, s with
  | EmptyString, _ => true
  | String a p', String b s' => Ascii.eqb a b && startsWith p' s'
  | String _ _, EmptyString => false
  end.

(** [includes s p]: [s.includes(p)]. *)
Fixpoint includes (s p : string) : bool :=
  startsWith p s ||
  match s with
  | EmptyString => false
  | String _ s' => includes s' p
  end.

(** Consume the literal [lit] at the head of [s], ignoring ASCII case (the
    [i] flag on an all-ASCII literal); the rest of [s] on success. *)
Fixpoint stripPrefixIgnoreCase (lit s : string) : option string :=
  match lit, s with
  | EmptyString, _ => Some s
  | String a lit', String b s' =>
      if Ascii.eqb (toLower a) (toLower b)
      then stripPrefixIgnoreCase lit' s' else None
  | String _ _, EmptyString => None
  end.

(** The longest prefix whose characters satisfy [f], and what follows. *)
Fixpoint span (f : ascii -> bool) (s : string) : string * string :=
  match s with
  | EmptyString => (EmptyString, EmptyString)
  | String c s' =>
      if f c then let (a, b) := span f s' in (String c a, b)
      else (EmptyString, s)
  end.

Fixpoint dropWhile (f : ascii -> bool) (s : string) : string :=
  match s with
  | EmptyString => EmptyString
  | String c s' => if f c then dropWhile f s' else s
  end.

Fixpoint rev (s : string) : string :=
  match s with
  | EmptyString => EmptyString
  | String c s' => rev s' ++ String c EmptyString
  end.

(** No character of [s] is a line terminator. *)
Fixpoint noTerminator (s : string) : bool :=
  match s with
  | EmptyString => true
  | String c s' => negb (isLineTerminator c) && noTerminator s'
  end.

(** [s] is empty or begins with a line terminator: a line may end here. *)
Definition atLineEnd (s : string) : bool :=
  match s with
  | EmptyString => true
  | String c _ => isLineTerminator c
  end.

(** [String.prototype.trim]. *)
Definition trim (s : string) : string :=
  rev (dropWhile isSpace (rev (dropWhile isSpace s))).

(** The one-character string holding a double quote. *)
Definition dquote : string := String (ascii_of_nat 34) EmptyString.

Definition ofZ (z : Z) : string := NilEmpty.string_of_int (Z.to_int z).

End Text.

(** ** JavaScript values *)

Definition FunctionId := nat.

Module JS.

Set Warnings "-register-all".

Inductive Value : Type :=
| Undefined
| Null
| Boolean (b : bool)
| Number (z : Z)
| Str (s : string)
| Array (items : list Value)
| Object (props : list (string * Value))
| Error (name message : string)
| Function (f : FunctionId).

Set Warnings "register-all".

Inductive TypeTag :=
| TUndefined | TObject | TBoolean | TNumber | TString | TFunction.

Definition typeof (v : Value) : TypeTag :=
  match v with
  | Undefined => TUndefined
  | Null => TObject
  | Boolean _ => TBoolean
  | Number _ => TNumber
  | Str _ => TString
  | Array _ | Object _ | Error _ _ => TObject
  | Function _ => TFunction
  end.

(** [v === s] for a string literal [s]. *)
Definition strictEqualsString (v : Value) (s : string) : bool :=
  match v with Str s' => String.eqb s' s | _ => false end.

Definition isString (v : Value) : bool :=
  match v with Str _ => true | _ => false end.

(** [typeof v === 'object' && v !== null]. *)
Definition isNonNullObject (v : Value) : bool :=
  match v with
  | Array _ | Object _ | Error _ _ => true
  | _ => false
  end.

Definition isNullish (v : Value) : bool :=
  match v with Undefined | Null => true | _ => false end.

(** ToBoolean. *)
Definition truthy (v : Value) : bool :=
  match v with
  | Undefined | Null => false
  | Boolean b => b
  | Number z => negb (z =? 0)%Z
  | Str s => negb (String.eqb s EmptyString)
  | Array _ | Object _ | Error _ _ | Function _ => true
  end.

Fixpoint assoc (k : string) (props : list (string * Value)) : option Value :=
  match props with
  | [] => None
  | (k', v) :: rest => if String.eqb k k' then Some v else assoc k rest
  end.

(** A canonical array index: the decimal numeral of a natural number,
    without sign or leading zeros. *)
Definition arrayIndex (k : string) : option nat :=
  match NilEmpty.uint_of_string k with
  | Some u =>
      let n := Nat.of_uint u in
      if String.eqb (NilEmpty.string_of_uint (Nat.to_uint n)) k
      then Some n else None
  | None => None
  end.

Definition orUndefined (o : option Value) : Value :=
  match o with Some v => v | None => Undefined end.

(** The own property [k] of a [v] that is neither [null] nor [undefined];
    [undefined] when [v] has none. *)
Definition get (v : Value) (k : string) : Value :=
  match v with
  | Object props => orUndefined (assoc k props)
  | Array items =>
      if String.eqb k "length" then Number (Z.of_nat (List.length items))
      else match arrayIndex k with
           | Some i => orUndefined (nth_error items i)
           | None => Undefined
           end
  | Str s =>
      if String.eqb k "length" then Number (Z.of_nat (String.length s))
      else match arrayIndex k with
           | Some i =>
               match String.get i s with
               | Some c => Str (String c EmptyString)
               | None => Undefined
               end
           | None => Undefined
           end
  | Error name message =>
      if String.eqb k "message" then Str message
      else if String.eqb k "name" then Str name
      else Undefined
  | _ => Undefined
  end.

(** [k] is an own property of [v]. *)
Definition hasOwn (v : Value) (k : string) : bool :=
  match v with
  | Object props =>
      match assoc k props with Some _ => true | None => false end
  | Array items =>
      String.eqb k "length" ||
      match arrayIndex k with
      | Some i => (i <? List.length items)%nat
      | None => false
      end
  | Str s =>
      String.eqb k "length" ||
      match arrayIndex k with
      | Some i => (i <? String.length s)%nat
      | None => false
      end
  | Error _ _ => String.eqb k "message" || String.eqb k "name"
  | _ => false
  end.

Definition isPrimitive (v : Value) : bool :=
  match v with
  | Undefined | Null | Boolean _ | Number _ | Str _ => true
  | _ => false
  end.

(** *** Number::toString, on integers *)

(** The number of decimal digits of a natural number. *)
Definition digits (n : Z) : Z := Z.of_nat (String.length (Text.ofZ n)).

(** The double nearest to the natural number [n], ties to even: the value
    that the decimal numeral of [n] denotes. *)
Definition roundToDouble (n : Z) : Z :=
  let e := Z.log2 n in
  if (e <? 53)%Z then n
  else
    let ulp := (2 ^ (e - 52))%Z in
    let m := (n / ulp)%Z in
    let r := (n mod ulp)%Z in
    let half := (ulp / 2)%Z in
    if (r <? half)%Z then (m * ulp)%Z
    else if (half <? r)%Z then ((m + 1) * ulp)%Z
    else if Z.even m then (m * ulp)%Z else ((m + 1) * ulp)%Z.

(** The numeral with the fewest significant digits among those that denote
    the double [x], and among these the one closest to [x]: numerals of [k]
    significant digits are tried once those of [k - 1] have failed.  With
    as many digits as [x] has, [x] itself is one. *)
Fixpoint shortest (fuel : nat) (k : Z) (x : Z) : Z :=
  match fuel with
  | O => x
  | S fuel' =>
      if (digits x <=? k)%Z then x
      else
        let scale := (10 ^ (digits x - k))%Z in
        let below := (x / scale * scale)%Z in
        let above := (below + scale)%Z in
        match (roundToDouble below =? x)%Z, (roundToDouble above =? x)%Z with
        | true, true =>
            if (x - below <? above - x)%Z then below
            else if (above - x <? x - below)%Z then above
            else if Z.even (x / scale) then below else above
        | true, false => below
        | false, true => above
        | false, false => shortest fuel' (k + 1)%Z x
        end
  end.

Definition stripZeros (s : string) : string :=
  Text.rev (Text.dropWhile (Ascii.eqb "0"%char) (Text.rev s)).

(** The scientific notation of a natural number of more than 21 digits:
    its significant digits, a point after the first when there are
    several, and the exponent. *)
Definition exponential (n : Z) : string :=
  match stripZeros (Text.ofZ n) with
  | String d rest =>
      String d (match rest with
                | EmptyString => EmptyString
                | String _ _ => "." ++ rest
                end)
      ++ "e+" ++ Text.ofZ (digits n - 1)
  | EmptyString => EmptyString
  end.

(** Number::toString(z) in radix 10, for an integer-valued double [z]. *)
Definition numberToString (z : Z) : string :=
  if (z =? 0)%Z then "0"
  else
    let n := shortest 17 1 (Z.abs z) in
    (if (z <? 0)%Z then "-" else EmptyString)
    ++ (if (digits n <=? 21)%Z then Text.ofZ n else exponential n).

(** ToString of a primitive value. *)
Definition primitiveToString (v : Value) : string :=
  match v with
  | Undefined => "undefined"
  | Null => "null"
  | Boolean true => "true"
  | Boolean false => "false"
  | Number z => numberToString z
  | Str s => s
  | _ => EmptyString
  end.

(** The elements [Array.prototype.every] ranges over, when each passes the
    guard [typeof pattern === 'string']. *)
Fixpoint allStrings (items : list Value) : option (list string) :=
  match items with
  | [] => Some []
  | Str s :: rest =>
      match allStrings rest with
      | Some l => Some (s :: l)
      | None => None
      end
  | _ :: _ => None
  end.

End JS.

Import JS.

(** The wire format of a rule outcome: the tuple [[passed, message]]. *)
Definition outcome (passed : bool) (message : string) : Value :=
  Array [Boolean passed; Str message].

(** ** The outside world and the effect monad *)

(** What [await import(name)] does: fulfil with a module namespace object
    (given by its exports), reject, or never settle. *)
Inductive ImportResult :=
| ImportFulfilled (exports : list (string * Value))
| ImportRejected (reason : Value)
| ImportPending.

(** What a call does: return a plain value, throw, return a promise that
    fulfils or rejects, or return a promise that never settles.  A value
    with a [then] of its own counts as a promise. *)
Inductive CallResult :=
| CallReturns (v : Value)
| CallThrows (e : Value)
| CallResolves (v : Value)
| CallRejects (e : Value)
| CallPending.

(** The environment of the rule.
    - [importModule name]: what [await import(name)] does.
    - [callFunction f args]: what the call [f(...args)] does.
    - [callMethod f this]: what the call of [f] as a method of [this],
      without arguments, does.
    - [inheritedMember v k]: what the prototype chain of [v] yields for a
      key [k] that [v] does not own; the built-in prototypes, and what
      other code has added to them.
    - [functionSource f]: the source text of [f], what [String(f)]
      returns. *)
Record World := {
  importModule : string -> ImportResult;
  callFunction : FunctionId -> list Value -> CallResult;
  callMethod : FunctionId -> Value -> CallResult;
  inheritedMember : Value -> string -> Value;
  functionSource : FunctionId -> string
}.

Inductive Event :=
| EvImport (packageName : string)
| EvCall (f : FunctionId) (args : list Value).

(** How an [async] computation ends: with a value (the promise fulfils),
    with an exception (the promise rejects), or not at all. *)
Inductive Completion (A : Type) :=
| Normal (a : A)
| Throw (e : Value)
| Pending.

Arguments Normal {A} a.
Arguments Throw {A} e.
Arguments Pending {A}.

(** A computation: the interactions it had with the world, in order, and
    how it ended. *)
Definition Eff (A : Type) : Type := list Event * Completion A.

Definition ret {A} (a : A) : Eff A := ([], Normal a).

Definition throw {A} (e : Value) : Eff A := ([], Throw e).

Definition bind {A B} (m : Eff A) (k : A -> Eff B) : Eff B :=
  match m with
  | (t, Normal a) => let (t', c) := k a in ((t ++ t')%list, c)
  | (t, Throw e) => (t, Throw e)
  | (t, Pending) => (t, Pending)
  end.

(** [try { m } catch (error) { handler error }]. *)
Definition tryCatch {A} (m : Eff A) (handler : Value -> Eff A) : Eff A :=
  match m with
  | (t, Throw e) => let (t', c) := handler e in ((t ++ t')%list, c)
  | _ => m
  end.

Notation "x <- m ;; k" := (bind m (fun x => k))
  (at level 61, m at next level, right associativity).
Notation "' pat <- m ;; k" := (bind m (fun x => match x with pat => k end))
  (at level 61, pat pattern, m at next level, right associativity).

Definition trace {A} (m : Eff A) : list Event := fst m.
Definition result {A} (m : Eff A) : Completion A := snd m.

Definition typeError (message : string) : Value := Error "TypeError" message.

(** [v.k] where [v] may be [null] or [undefined]. *)
Definition member (v : Value) (k : string) : Eff Value :=
  if isNullish v
  then throw (typeError
                ("Cannot read properties of " ++ primitiveToString v
                 ++ " (reading '" ++ k ++ "')"))
  else ret (get v k).

(** [const [a, b] = v]: the first two values the iterator of [v] yields.
    What is not iterable raises a [TypeError]; its text is the engine's. *)
Definition destructurePair (v : Value) : Eff (Value * Value) :=
  match v with
  | Array items =>
      ret (orUndefined (nth_error items 0), orUndefined (nth_error items 1))
  | Str s => ret (get v "0", get v "1")
  | _ => throw (typeError "outcome is not iterable")
  end.

(** What [await Promise.resolve(r)] makes of the result [r] of a call. *)
Definition settle (r : CallResult) : Completion Value :=
  match r with
  | CallReturns v | CallResolves v => Normal v
  | CallThrows e | CallRejects e => Throw e
  | CallPending => Pending
  end.

(** How a computation without interactions ends: with a result, or with an
    exception. *)
Inductive Try (A : Type) :=
| Returned (a : A)
| Raised (e : Value).

Arguments Returned {A} a.
Arguments Raised {A} e.

Definition attempt {A} (t : Try A) : Eff A :=
  ([], match t with Returned a => Normal a | Raised e => Throw e end).

Section Conversion.

Variable w : World.

(** One step of OrdinaryToPrimitive: [method] is called on [this] when it
    is callable.  [Some p] when the call returns the primitive [p], [None]
    when [method] is not callable or the call returns an object (a promise
    is one). *)
Definition callIfCallable (this method : Value) : Try (option Value) :=
  match method with
  | Function f =>
      match callMethod w f this with
      | CallReturns x => Returned (if isPrimitive x then Some x else None)
      | CallThrows e => Raised e
      | CallResolves _ | CallRejects _ | CallPending => Returned None
      end
  | _ => Returned None
  end.

Definition cannotConvert : Value :=
  typeError "Cannot convert object to primitive value".

(** ToPrimitive with hint string, on an object with the own properties
    [props]: its [toString], then its [valueOf].  Where the object has none
    of its own, [Object.prototype.toString] answers ["[object Object]"] and
    [Object.prototype.valueOf] answers the object itself. *)
Definition objectToPrimitive (props : list (string * Value)) : Try Value :=
  let this := Object props in
  let fromValueOf :=
    match assoc "valueOf" props with
    | None => Raised cannotConvert
    | Some method =>
        match callIfCallable this method with
        | Returned (Some p) => Returned p
        | Returned None => Raised cannotConvert
        | Raised e => Raised e
        end
    end in
  match assoc "toString" props with
  | None => Returned (Str "[object Object]")
  | Some method =>
      match callIfCallable this method with
      | Returned (Some p) => Returned p
      | Returned None => fromValueOf
      | Raised e => Raised e
      end
  end.

(** ToString, as applied by [String(v)] and by a template literal. *)
Fixpoint toString (v : Value) : Try string :=
  match v with
  | Array items =>
      (fix join (l : list Value) : Try string :=
         match l with
         | [] => Returned EmptyString
         | x :: tl =>
             match (match x with
                    | Undefined | Null => Returned EmptyString
                    | _ => toString x
                    end) with
             | Raised e => Raised e
             | Returned first =>
                 match tl with
                 | [] => Returned first
                 | _ :: _ =>
                     match join tl with
                     | Returned others => Returned (first ++ "," ++ others)
                     | Raised e => Raised e
                     end
                 end
             end
         end) items
  | Object props =>
      match objectToPrimitive props with
      | Returned p => Returned (primitiveToString p)
      | Raised e => Raised e
      end
  | Error name message =>
      Returned (if String.eqb name EmptyString then message
                else if String.eqb message EmptyString then name
                else name ++ ": " ++ message)
  | Function f => Returned (functionSource w f)
  | _ => Returned (primitiveToString v)
  end.

(** [error instanceof Error ? error.message : String(error)]. *)
Definition errorMessage (error : Value) : Try string :=
  match error with
  | Error _ message => Returned message
  | _ => toString error
  end.

(** [v[k]] for a key [k] computed at run time, on a [v] that is neither
    [null] nor [undefined]: the own property, else what the prototype
    chain yields. *)
Definition property (v : Value) (k : string) : Value :=
  if hasOwn v k then get v k else inheritedMember w v k.

End Conversion.

Section Delegation.

Variable w : World.

(** [await import(packageName)]. *)
Definition dynamicImport (packageName : string) : Eff Value :=
  ([EvImport packageName],
   match importModule w packageName with
   | ImportFulfilled exports => Normal (Object exports)
   | ImportRejected reason => Throw reason
   | ImportPending => Pending
   end).

(** [await Promise.resolve(f(...args))]. *)
Definition awaitCall (f : FunctionId) (args : list Value) : Eff Value :=
  ([EvCall f args], settle (callFunction w f args)).

(** The three-way search for the rules catalogue of a loaded module:
    [module.default.rules], then [module.default], then [module.rules].
    [Undefined] when none is an object. *)
Definition rulesCatalogOf (targetPluginModule : Value) : Value :=
  let dflt := get targetPluginModule "default" in
  let rulesCatalog :=
    if truthy dflt then
      if isNonNullObject (get dflt "rules") then get dflt "rules"
      else if isNonNullObject dflt then dflt
      else Undefined
    else Undefined in
  if negb (truthy rulesCatalog)
     && isNonNullObject (get targetPluginModule "rules")
  then get targetPluginModule "rules"
  else rulesCatalog.

(** [if (rulesCatalog) { ruleFunction = rulesCatalog[ruleName]; }] on a
    [ruleFunction] that starts out [undefined]. *)
Definition lookupRule (targetPluginModule : Value) (ruleName : string)
  : Value :=
  let rulesCatalog := rulesCatalogOf targetPluginModule in
  if truthy rulesCatalog then property w rulesCatalog ruleName
  else Undefined.

(** The body of the [try] block: load the package and look the rule up. *)
Definition loadRule (packageName ruleName : string) : Eff Value :=
  targetPluginModule <- dynamicImport packageName ;;
  ret (lookupRule targetPluginModule ruleName).

(** The texts in which the two versions of the rule differ. *)
Record Messages := {
  invalidRuleConfig : string;
  loadError : string -> string -> string;
  ruleNotFound : string -> string -> string;
  delegatedFailure : string -> string -> string -> string;
  allPassed : string
}.

Variable msgs : Messages.

(** The guard at the head of the loop body: [Some (packageName, ruleName)]
    when [ruleConfig] is truthy and both fields are strings. *)
Definition validRuleConfig (ruleConfig : Value) : option (string * string) :=
  if truthy ruleConfig then
    match get ruleConfig "packageName", get ruleConfig "ruleName" with
    | Str packageName, Str ruleName => Some (packageName, ruleName)
    | _, _ => None
    end
  else None.

(** [for (const ruleConfig of rulesToEnforce) { ... }] and the [return]
    after it. *)
Fixpoint enforceRules (parsed : Value) (rulesToEnforce : list Value)
  : Eff Value :=
  match rulesToEnforce with
  | [] => ret (outcome true (allPassed msgs))
  | ruleConfig :: rest =>
      match validRuleConfig ruleConfig with
      | None => ret (outcome false (invalidRuleConfig msgs))
      | Some (packageName, ruleName) =>
          let ruleValue := get ruleConfig "value" in
          loaded <-
            tryCatch
              (ruleFunction <- loadRule packageName ruleName ;;
               ret (inr ruleFunction))
              (fun error =>
                 text <- attempt (errorMessage w error) ;;
                 ret (inl (outcome false
                             (loadError msgs packageName text)))) ;;
          match loaded with
          | inl returned => ret returned
          | inr (Function f) =>
              out <- awaitCall f [parsed; Str "always"; ruleValue] ;;
              '(isValid, message) <- destructurePair out ;;
              if negb (truthy isValid)
              then
                text <- attempt (toString w message) ;;
                ret (outcome false
                       (delegatedFailure msgs packageName ruleName text))
              else enforceRules parsed rest
          | inr _ =>
              ret (outcome false (ruleNotFound msgs packageName ruleName))
          end
      end
  end.

(** The tail of the rule, from the test on [rulesToEnforce] on. *)
Definition enforcePhase (noRules : string) (parsed rulesToEnforce : Value)
  : Eff Value :=
  match rulesToEnforce with
  | Array rules =>
      if (List.length rules =? 0)%nat then ret (outcome true noRules)
      else enforceRules parsed rules
  | _ => ret (outcome true noRules)
  end.

End Delegation.

(** ** The version keyed on substrings of the raw message *)

Module SubstringVariant.

Definition prefix : string :=
  "[@mridang/commitlint-plugin-conditionals ignoreForAuthors] ".

Definition rawInvalid : string :=
  prefix ++ "Raw commit message is not available or is invalid.".

Definition patternsInvalid : string :=
  prefix ++ "Configuration error: 'ignoreAuthorPatterns' must be an array of strings.".

Definition bypassed (matchedIgnoredPattern : string) : string :=
  prefix ++ "Commit by ignored author pattern ('" ++ matchedIgnoredPattern
  ++ "'). Ruleset defined in 'rulesToEnforce' bypassed.".

Definition noRules : string :=
  prefix ++ "No rules configured in " ++ Text.dquote ++ "rulesToEnforce"
  ++ Text.dquote ++ " for this author, or author was ignored. Rule passes.".

Definition messages : Messages := {|
  invalidRuleConfig :=
    prefix ++ "Invalid rule configuration in 'rulesToEnforce': 'packageName' and 'ruleName' must be strings.";
  loadError packageName errorMessage :=
    prefix ++ "Error loading plugin package '" ++ packageName ++ "': "
    ++ errorMessage;
  ruleNotFound packageName ruleName :=
    prefix ++ "Rule '" ++ ruleName
    ++ "' not found or not a function in package '" ++ packageName ++ "'.";
  delegatedFailure packageName ruleName message :=
    "[@mridang/commitlint-plugin-conditionals via " ++ packageName ++ "/"
    ++ ruleName ++ "] " ++ message;
  allPassed :=
    prefix ++ "All configured " ++ Text.dquote ++ "rulesToEnforce"
    ++ Text.dquote ++ " passed for this author."
|}.

(** The block guarded by [ignoreAuthorPatterns &&
    Array.isArray(ignoreAuthorPatterns)]: [Some o] when it returns [o],
    [None] when control falls through to the test on [rulesToEnforce]. *)
Definition checkPatterns (rawCommitMessage : string)
           (ignoreAuthorPatterns : Value) : option Value :=
  match ignoreAuthorPatterns with
  | Array items =>
      match allStrings items with
      | None => Some (outcome false patternsInvalid)
      | Some patterns =>
          match find (fun pattern => Text.includes rawCommitMessage pattern)
                     patterns with
          | Some matchedIgnoredPattern =>
              if truthy (Str matchedIgnoredPattern)
              then Some (outcome true (bypassed matchedIgnoredPattern))
              else None
          | None => None
          end
      end
  | _ => None
  end.

Definition ignoreForAuthors (w : World)
           (parsedCommitData when value : Value) : Eff Value :=
  let when := match when with Undefined => Str "always" | _ => when end in
  if strictEqualsString when "never" then ret (outcome true EmptyString)
  else
      let parsed := parsedCommitData in
      let options := if truthy value then value else Object [] in
      let ignoreAuthorPatterns := get options "ignoreAuthorPatterns" in
      let rulesToEnforce := get options "rulesToEnforce" in
      rawCommitMessage <- member parsed "raw" ;;
      match rawCommitMessage with
      | Str raw =>
          match checkPatterns raw ignoreAuthorPatterns with
          | Some returned => ret returned
          | None => enforcePhase w messages noRules parsed rulesToEnforce
          end
      | _ => ret (outcome false rawInvalid)
      end.

End SubstringVariant.

(** ** The version keyed on [Signed-off-by:] trailers *)

Module TrailerVariant.

Definition rawInvalid : string :=
  "Raw commit message is not available or is invalid.".

Definition patternsInvalid : string :=
  "Configuration error: 'signOffPatternsToIgnore' must be an array of strings.".

Definition bypassed (matchedPattern : string) : string :=
  "Commit has a 'Signed-off-by' line matching pattern ('" ++ matchedPattern
  ++ "'). Ruleset defined in 'rulesToEnforce' bypassed.".

Definition noRules : string :=
  "No rules configured in " ++ Text.dquote ++ "rulesToEnforce" ++ Text.dquote
  ++ " for this author/commit, or author was ignored. Rule passes.".

Definition messages : Messages := {|
  invalidRuleConfig :=
    "Invalid rule configuration in 'rulesToEnforce': 'packageName' and 'ruleName' must be strings.";
  loadError packageName errorMessage :=
    "Error loading plugin package '" ++ packageName ++ "': " ++ errorMessage;
  ruleNotFound packageName ruleName :=
    "Rule '" ++ ruleName ++ "' not found or not a function in package '"
    ++ packageName ++ "'.";
  delegatedFailure packageName ruleName messageFromSubRule :=
    "[via " ++ packageName ++ "/" ++ ruleName ++ "] " ++ messageFromSubRule;
  allPassed :=
    "All configured " ++ Text.dquote ++ "rulesToEnforce" ++ Text.dquote
    ++ " passed for this author."
|}.

(** One attempt of [signOffRegex] (the literal [Signed-off-by:], a greedy
    run of [\s], a greedy group of [.], then [$]; flags [g], [i], [m]) at
    a position where [^] holds: the captured group and the length of the
    whole match.  The run of [\s] takes every white-space character that
    follows the colon, line terminators included; the group then takes the
    rest of the line it stands on, so [$] holds where it stops and the
    first attempt of the greedy match is the match. *)
Definition matchSignOffAt (s : string) : option (string * nat) :=
  match Text.stripPrefixIgnoreCase "Signed-off-by:" s with
  | None => None
  | Some afterColon =>
      let (spaces, afterSpaces) := Text.span Text.isSpace afterColon in
      let (group, _) :=
        Text.span (fun c => negb (Text.isLineTerminator c)) afterSpaces in
      Some (group,
            String.length "Signed-off-by:" + String.length spaces
            + String.length group)
  end.

(** The [while ((match = signOffRegex.exec(raw)) !== null)] loop.  [skip]
    is the distance from the current character to [lastIndex];
    [lineStart] tells whether [^] holds at the current character. *)
Fixpoint scanSignOffs (skip : nat) (lineStart : bool) (s : string)
  : list string :=
  match s with
  | EmptyString => []
  | String c rest =>
      match skip with
      | S skip' => scanSignOffs skip' (Text.isLineTerminator c) rest
      | O =>
          match (if lineStart then matchSignOffAt s else None) with
          | Some (group, len) =>
              Text.trim group
              :: scanSignOffs (Nat.pred len) (Text.isLineTerminator c) rest
          | None => scanSignOffs O (Text.isLineTerminator c) rest
          end
      end
  end.

Definition extractSignOffs (rawCommitMessage : string) : list string :=
  scanSignOffs O true rawCommitMessage.

(** What the loop yields once it stands at the end of a line: the matches
    of the text after the line terminator. *)
Definition scanNextLine (s : string) : list string :=
  match s with
  | EmptyString => []
  | String _ rest => scanSignOffs O true rest
  end.

(** The block guarded by [signOffPatternsToIgnore &&
    Array.isArray(signOffPatternsToIgnore)]. *)
Definition checkPatterns (rawCommitMessage : string)
           (signOffPatternsToIgnore : Value) : option Value :=
  match signOffPatternsToIgnore with
  | Array items =>
      match allStrings items with
      | None => Some (outcome false patternsInvalid)
      | Some patterns =>
          if (0 <? List.length patterns)%nat then
            let extractedSignOffs := extractSignOffs rawCommitMessage in
            if (0 <? List.length extractedSignOffs)%nat then
              match find (fun ignorePattern =>
                            existsb (fun actualSignOff =>
                                       Text.includes actualSignOff
                                                     ignorePattern)
                                    extractedSignOffs)
                         patterns with
              | Some matchedPattern =>
                  if truthy (Str matchedPattern)
                  then Some (outcome true (bypassed matchedPattern))
                  else None
              | None => None
              end
            else None
          else None
      end
  | _ => None
  end.

Definition ignoreForAuthors (w : World)
           (parsedCommitData when value : Value) : Eff Value :=
  let when := match when with Undefined => Str "always" | _ => when end in
  if strictEqualsString when "never" then ret (outcome true EmptyString)
  else
      let parsed := parsedCommitData in
      let options := if truthy value then value else Object [] in
      let signOffPatternsToIgnore := get options "signOffPatternsToIgnore" in
      let rulesToEnforce := get options "rulesToEnforce" in
      rawCommitMessage <- member parsed "raw" ;;
      match rawCommitMessage with
      | Str raw =>
          match checkPatterns raw signOffPatternsToIgnore with
          | Some returned => ret returned
          | None => enforcePhase w messages noRules parsed rulesToEnforce
          end
      | _ => ret (outcome false rawInvalid)
      end.

End TrailerVariant.

(** ** Both versions side by side *)

Inductive Variant := Substring | Trailer.

Definition ignoreForAuthors (v : Variant)
  : World -> Value -> Value -> Value -> Eff Value :=
  match v with
  | Substring => SubstringVariant.ignoreForAuthors
  | Trailer => TrailerVariant.ignoreForAuthors
  end.

Definition messagesOf (v : Variant) : Messages :=
  match v with
  | Substring => SubstringVariant.messages
  | Trailer => TrailerVariant.messages
  end.

(** The option that holds the bypass patterns. *)
Definition patternsField (v : Variant) : string :=
  match v with
  | Substring => "ignoreAuthorPatterns"
  | Trailer => "signOffPatternsToIgnore"
  end.

Definition checkPatterns (v : Variant) : string -> Value -> option Value :=
  match v with
  | Substring => SubstringVariant.checkPatterns
  | Trailer => TrailerVariant.checkPatterns
  end.

Definition rawInvalid (v : Variant) : string :=
  match v with
  | Substring => SubstringVariant.rawInvalid
  | Trailer => TrailerVariant.rawInvalid
  end.

Definition patternsInvalid (v : Variant) : string :=
  match v with
  | Substring => SubstringVariant.patternsInvalid
  | Trailer => TrailerVariant.patternsInvalid
  end.

Definition bypassed (v : Variant) : string -> string :=
  match v with
  | Substring => SubstringVariant.bypassed
  | Trailer => TrailerVariant.bypassed
  end.

Definition noRules (v : Variant) : string :=
  match v with
  | Substring => SubstringVariant.noRules
  | Trailer => TrailerVariant.noRules
  end.

(** What stands before the package name in the message of a load error. *)
Definition loadErrorHead (v : Variant) : string :=
  match v with
  | Substring => SubstringVariant.prefix ++ "Error loading plugin package '"
  | Trailer => "Error loading plugin package '"
  end.

(** What stands before the rule name in the message of a missing rule. *)
Definition ruleNotFoundHead (v : Variant) : string :=
  match v with
  | Substring => SubstringVariant.prefix ++ "Rule '"
  | Trailer => "Rule '"
  end.

(** What opens the message of a delegated failure, up to the package name. *)
Definition viaPrefix (v : Variant) : string :=
  match v with
  | Substring => "[@mridang/commitlint-plugin-conditionals via "
  | Trailer => "[via "
  end.

(** ** Vocabulary of the properties *)

(** The condition after the default of the parameter [when] is applied. *)
Definition conditionOf (when : Value) : Value :=
  match when with Undefined => Str "always" | _ => when end.

(** [value || {}]. *)
Definition optionsOf (value : Value) : Value :=
  if truthy value then value else Object [].

(** The rule was not switched off with ['never']. *)
Definition enabled (when : Value) : Prop :=
  strictEqualsString (conditionOf when) "never" = false.

(** [pattern] matches the commit text [raw] under the mode of [v]: it occurs
    in [raw], resp. in one of the sign-offs extracted from [raw]. *)
Definition patternMatches (v : Variant) (raw pattern : string) : bool :=
  match v with
  | Substring => Text.includes raw pattern
  | Trailer =>
      existsb (fun actualSignOff => Text.includes actualSignOff pattern)
              (TrailerVariant.extractSignOffs raw)
  end.

(** The commit has a string [raw], and the pattern block lets control
    through to the test on [rulesToEnforce]. *)
Definition fallsThrough (v : Variant) (commit value : Value) : Prop :=
  isNullish commit = false /\
  exists raw,
    get commit "raw" = Str raw /\
    checkPatterns v raw (get (optionsOf value) (patternsField v)) = None.

(** The bypass option is absent (or no array), or it is a list of strings
    none of which matches. *)
Definition noPatternMatches (v : Variant) (raw : string) (patterns : Value)
  : Prop :=
  match patterns with
  | Array items =>
      exists l, allStrings items = Some l /\
                forall p, In p l -> patternMatches v raw p = false
  | _ => True
  end.

(** The loop reaches its body with the list [rules]. *)
Definition reachesRules (v : Variant) (commit when value : Value)
           (rules : list Value) : Prop :=
  enabled when /\ fallsThrough v commit value /\
  get (optionsOf value) "rulesToEnforce" = Array rules.

(** The arguments every delegated rule is called with. *)
Definition ruleArgs (commit spec : Value) : list Value :=
  [commit; Str "always"; get spec "value"].

(** The entry [spec] resolves to the callable [f] of package [pkg] under the
    name [rule]. *)
Definition resolvesTo (w : World) (spec : Value)
           (pkg rule : string) (f : FunctionId) : Prop :=
  validRuleConfig spec = Some (pkg, rule) /\
  exists exports,
    importModule w pkg = ImportFulfilled exports /\
    lookupRule w (Object exports) rule = Function f.

(** The delegated rule of [spec], called on [commit], answers with the pair
    [(isValid, message)]. *)
Definition answers (w : World) (commit spec : Value) (f : FunctionId)
           (isValid message : Value) : Prop :=
  exists out,
    settle (callFunction w f (ruleArgs commit spec)) = Normal out /\
    destructurePair out = ret (isValid, message).

(** The entry [spec] is resolved, invoked and reports success. *)
Definition passes (w : World) (commit spec : Value) : Prop :=
  exists pkg rule f isValid message,
    resolvesTo w spec pkg rule f /\
    answers w commit spec f isValid message /\
    truthy isValid = true.


(** The interactions one turn of the loop has with the world. *)
Definition specEvents (w : World) (commit spec : Value) : list Event :=
  match validRuleConfig spec with
  | None => []
  | Some (pkg, rule) =>
      EvImport pkg ::
      match importModule w pkg with
      | ImportFulfilled exports =>
          match lookupRule w (Object exports) rule with
          | Function f => [EvCall f (ruleArgs commit spec)]
          | _ => []
          end
      | _ => []
      end
  end.

(** An exception [e] comes out of the invocation of [f]: the call throws
    it, the promise it returns rejects with it, or the value it delivers
    cannot be destructured. *)
Definition escapes (w : World) (f : FunctionId) (args : list Value)
           (e : Value) : Prop :=
  callFunction w f args = CallThrows e \/
  callFunction w f args = CallRejects e \/
  exists out, settle (callFunction w f args) = Normal out /\
              destructurePair out = throw e.

(** The answer of [f] cannot be reported: its first component is falsy,
    and the conversion of its message to text raises [e]. *)
Definition unprintable (w : World) (f : FunctionId) (args : list Value)
           (e : Value) : Prop :=
  exists out isValid message,
    settle (callFunction w f args) = Normal out /\
    destructurePair out = ret (isValid, message) /\
    truthy isValid = false /\
    toString w message = Raised e.

(** The failure of the import of [pkg] cannot be reported: the import
    rejects with a reason that is no [Error], and the conversion of the
    reason to text raises [e]. *)
Definition unreportable (w : World) (pkg : string) (e : Value) : Prop :=
  exists reason,
    importModule w pkg = ImportRejected reason /\
    (forall name message, reason <> Error name message) /\
    toString w reason = Raised e.

(** The rule fails with the message made from [text], unless the conversion
    that should deliver [text] raises an exception. *)
Definition failsWith (text : Try string) (message : string -> string)
  : Completion Value :=
  match text with
  | Returned t => Normal (outcome false (message t))
  | Raised e => Throw e
  end.

(** What one turn of the loop decides: [Some c] when the rule ends in this
    turn with the completion [c], [None] when the loop goes on to the next
    entry. *)
Definition turn (w : World) (msgs : Messages) (commit spec : Value)
  : option (Completion Value) :=
  match validRuleConfig spec with
  | None => Some (Normal (outcome false (invalidRuleConfig msgs)))
  | Some (pkg, rule) =>
      match importModule w pkg with
      | ImportRejected reason =>
          Some (failsWith (errorMessage w reason) (loadError msgs pkg))
      | ImportPending => Some Pending
      | ImportFulfilled exports =>
          match lookupRule w (Object exports) rule with
          | Function f =>
              match settle (callFunction w f (ruleArgs commit spec)) with
              | Normal out =>
                  match result (destructurePair out) with
                  | Normal (isValid, message) =>
                      if truthy isValid then None
                      else Some (failsWith (toString w message)
                                           (delegatedFailure msgs pkg rule))
                  | Throw e => Some (Throw e)
                  | Pending => Some Pending
                  end
              | Throw e => Some (Throw e)
              | Pending => Some Pending
              end
          | _ => Some (Normal (outcome false (ruleNotFound msgs pkg rule)))
          end
      end
  end.

(** The list [rulesToEnforce] the loop would range over. *)
Definition rulesOf (value : Value) : list Value :=
  match get (optionsOf value) "rulesToEnforce" with
  | Array rules => rules
  | _ => []
  end.

(** ** Sign-offs, line by line

    The reading of the specification: the sign-offs of a commit are the
    values of its lines of the form [Signed-off-by: <value>], trimmed.
    These definitions follow that wording; [TrailerVariant.extractSignOffs]
    is what the source computes. *)

Module TrailerSpec.

(** The lines of a text: the pieces between its line terminators. *)
Fixpoint splitLines (s : string) : list string :=
  match s with
  | EmptyString => [EmptyString]
  | String c s' =>
      if Text.isLineTerminator c then EmptyString :: splitLines s'
      else match splitLines s' with
           | line :: lines => String c line :: lines
           | [] => [String c EmptyString]
           end
  end.

(** The value of a line of the form [Signed-off-by: <value>]. *)
Definition signOffOfLine (line : string) : option string :=
  match Text.stripPrefixIgnoreCase "Signed-off-by:" line with
  | Some value => Some (Text.trim value)
  | None => None
  end.

Definition signOffsOfLine (line : string) : list string :=
  match signOffOfLine line with
  | Some value => [value]
  | None => []
  end.

(** No [Signed-off-by:] line of the text has a blank value. *)
Definition noBlankSignOff (raw : string) : Prop :=
  Forall (fun line => signOffOfLine line <> Some EmptyString)
         (splitLines raw).

Definition signOffsByLine (raw : string) : list string :=
  flat_map signOffsOfLine (splitLines raw).

End TrailerSpec.

(** ** The built-in members of the sample worlds

    [Object.prototype] as ECMAScript defines it: what a plain object hands
    down to a lookup by a computed key, and what the call of each of these
    functions does.  The catalogues of the examples are plain objects; of
    the prototype of other values this realm tells nothing. *)

Module Realm.

Definition objectConstructor : FunctionId := 100.
Definition hasOwnProperty : FunctionId := 101.
Definition isPrototypeOf : FunctionId := 102.
Definition propertyIsEnumerable : FunctionId := 103.
Definition toLocaleString : FunctionId := 104.
Definition objectToString : FunctionId := 105.
Definition valueOf : FunctionId := 106.
Definition defineGetter : FunctionId := 107.
Definition defineSetter : FunctionId := 108.
Definition lookupGetter : FunctionId := 109.
Definition lookupSetter : FunctionId := 110.

(** The members of [Object.prototype].  [__proto__] yields the prototype
    itself, an object. *)
Definition objectPrototype : list (string * Value) :=
  [("constructor", Function objectConstructor);
   ("hasOwnProperty", Function hasOwnProperty);
   ("isPrototypeOf", Function isPrototypeOf);
   ("propertyIsEnumerable", Function propertyIsEnumerable);
   ("toLocaleString", Function toLocaleString);
   ("toString", Function objectToString);
   ("valueOf", Function valueOf);
   ("__defineGetter__", Function defineGetter);
   ("__defineSetter__", Function defineSetter);
   ("__lookupGetter__", Function lookupGetter);
   ("__lookupSetter__", Function lookupSetter);
   ("__proto__", Object [])].

Definition inheritedMember (v : Value) (k : string) : Value :=
  match v with
  | Object _ => orUndefined (assoc k objectPrototype)
  | _ => Undefined
  end.

(** [Object.prototype.toString.call(this)]. *)
Definition tag (this : Value) : string :=
  match this with
  | Undefined => "[object Undefined]"
  | Null => "[object Null]"
  | Boolean _ => "[object Boolean]"
  | Number _ => "[object Number]"
  | Str _ => "[object String]"
  | Array _ => "[object Array]"
  | Object _ => "[object Object]"
  | Error _ _ => "[object Error]"
  | Function _ => "[object Function]"
  end.

Definition noReceiver : Value :=
  typeError "Cannot convert undefined or null to object".

(** What the call of a built-in as a plain function does, the call the
    rule makes of what it looks up: the receiver is [undefined].  [None]
    for a function that is not one of the built-ins.
    - [Object(value)] returns an object as it is and a new object for
      [null] and [undefined]; it wraps a primitive, and of the wrapper the
      rule sees that the one of a string is iterated like the string and
      that the others are not iterable.
    - [toString] answers with the tag of [undefined].
    - [isPrototypeOf] answers [false] on a primitive before it looks at the
      receiver.
    - The others need a receiver and throw a [TypeError]. *)
Definition call (f : FunctionId) (args : list Value) : option CallResult :=
  if Nat.eqb f objectConstructor then
    Some (CallReturns
            match args with
            | (Array _ | Object _ | Error _ _ | Function _ | Str _) as x :: _ =>
                x
            | _ => Object []
            end)
  else if Nat.eqb f objectToString then
    Some (CallReturns (Str (tag Undefined)))
  else if Nat.eqb f isPrototypeOf then
    Some (match args with
          | (Array _ | Object _ | Error _ _ | Function _) :: _ =>
              CallThrows noReceiver
          | _ => CallReturns (Boolean false)
          end)
  else if (Nat.leb hasOwnProperty f && Nat.leb f lookupSetter)%bool then
    Some (CallThrows noReceiver)
  else None.

(** What the call of a built-in as a method of [this], without arguments,
    does, for the two that a conversion to text may run, [toString] and
    [valueOf]; the others are answered as by [call]. *)
Definition method (f : FunctionId) (this : Value) : option CallResult :=
  if Nat.eqb f objectToString then Some (CallReturns (Str (tag this)))
  else if Nat.eqb f valueOf then Some (CallReturns this)
  else call f [].

End Realm.

(** ** Sample inputs *)

Module Sample.

Definition lf : string := String (ascii_of_nat 10) EmptyString.

Definition typeEnum : FunctionId := 1.
Definition headerMaxLength : FunctionId := 2.
Definition throwing : FunctionId := 3.
Definition malformed : FunctionId := 4.

(** A world with one loadable package, [@commitlint/rules], whose default
    export wraps a catalogue: [type-enum] fails, [header-max-length]
    passes, [throwing] throws, [malformed] returns [undefined] and
    [not-a-function] is a string. *)
Definition world : World := {|
  importModule pkg :=
    if String.eqb pkg "@commitlint/rules" then
      ImportFulfilled
        [("default",
          Object [("rules",
                   Object [("type-enum", Function typeEnum);
                           ("header-max-length", Function headerMaxLength);
                           ("throwing", Function throwing);
                           ("malformed", Function malformed);
                           ("not-a-function", Str "not-a-function-string")])])]
    else ImportRejected (Error "Error" ("Cannot find package '" ++ pkg ++ "'"));
  callFunction f args :=
    match Realm.call f args with
    | Some answer => answer
    | None =>
        match f with
        | 1 => CallReturns (outcome false "type invalid")
        | 2 => CallResolves (outcome true EmptyString)
        | 3 => CallThrows (Error "Error" "boom")
        | _ => CallReturns Undefined
        end
    end;
  callMethod f this :=
    match Realm.method f this with
    | Some answer => answer
    | None =>
        match f with
        | 1 => CallReturns (outcome false "type invalid")
        | 2 => CallResolves (outcome true EmptyString)
        | 3 => CallThrows (Error "Error" "boom")
        | _ => CallReturns Undefined
        end
    end;
  inheritedMember := Realm.inheritedMember;
  functionSource _ := "function () { [native code] }"
|}.

Definition commit (raw : string) : Value :=
  Object [("raw", Str raw); ("header", Str raw); ("body", Null)].

Definition rule (packageName ruleName : string) (value : Value) : Value :=
  Object [("packageName", Str packageName); ("ruleName", Str ruleName);
          ("value", value)].

Definition typeEnumRule : Value :=
  rule "@commitlint/rules" "type-enum" (Array [Str "feat"]).

Definition headerRule : Value :=
  rule "@commitlint/rules" "header-max-length" (Number 50).

Definition throwingRule : Value :=
  rule "@commitlint/rules" "throwing" Null.

(** An entry without [packageName]. *)
Definition malformedRule : Value :=
  Object [("ruleName", Str "type-enum"); ("value", Array [])].

Definition options (v : Variant) (patterns : list string)
           (rules : list Value) : Value :=
  Object [(patternsField v, Array (map Str patterns));
          ("rulesToEnforce", Array rules)].

Definition botCommit : Value :=
  commit ("fix(deps): update by dependabot[bot]" ++ lf ++ lf
          ++ "Signed-off-by: dependabot[bot] <support@github.com>").

Definition humanCommit : Value :=
  commit ("feat(app): new feature by human" ++ lf ++ lf
          ++ "Signed-off-by: Human <human@example.com>").

(** A commit whose [Signed-off-by:] line is empty and whose next line
    mentions the bot. *)
Definition blankSignOffRaw : string :=
  "chore: bump deps" ++ lf ++ lf ++ "Signed-off-by:" ++ lf
  ++ "dependabot[bot] opened this".

End Sample.

(** ** Vocabulary of the further properties *)

(** The pattern block ends the rule with a bypass. *)
Definition bypasses (v : Variant) (raw : string) (patterns : Value) : Prop :=
  exists pattern,
    checkPatterns v raw patterns = Some (outcome true (bypassed v pattern)).

(** What a caller sees of a completion when it looks at the flag only:
    the first component of the tuple. *)
Definition verdict (c : Completion Value) : Completion Value :=
  match c with
  | Normal o => Normal (get o "0")
  | Throw e => Throw e
  | Pending => Pending
  end.

(** The interaction [ev] never settles in the world [w]. *)
Definition neverSettles (w : World) (ev : Event) : Prop :=
  match ev with
  | EvImport pkg => importModule w pkg = ImportPending
  | EvCall f args => callFunction w f args = CallPending
  end.

(** The messages with which the loop can fail at the entries [rules]. *)
Definition loopFailure (msgs : Messages) (rules : list Value) (m : string)
  : Prop :=
  m = invalidRuleConfig msgs \/
  exists spec pkg rule,
    In spec rules /\ validRuleConfig spec = Some (pkg, rule) /\
    ((exists err, m = loadError msgs pkg err) \/
     m = ruleNotFound msgs pkg rule \/
     exists text, m = delegatedFailure msgs pkg rule text).


(** ** The plugin object

    [src/index.ts]: the default export of the package, an object whose
    [rules] map registers the rule under the name [ignore-for-authors].
    [ignoreForAuthors] names the callable. *)

Module Plugin.

(** The [rules] map of the plugin. *)
Definition rules (ignoreForAuthors : FunctionId) : Value :=
  Object [("ignore-for-authors", Function ignoreForAuthors)].

Definition plugin (ignoreForAuthors : FunctionId) : Value :=
  Object [("rules", rules ignoreForAuthors)].

(** The module namespace of [index.ts]: [export default plugin]. *)
Definition exports (ignoreForAuthors : FunctionId) : list (string * Value) :=
  [("default", plugin ignoreForAuthors)].

End Plugin.

(** ** Packages of several shapes *)

Module Shapes.

Definition passing : FunctionId := 7.
Definition hanging : FunctionId := 8.
Definition own : FunctionId := 9.

Definition catalogue : Value :=
  Object [("r", Function passing); ("hangs", Function hanging)].

(** A world whose packages export their catalogue in the three ways the
    rule knows, one package that hides it behind a default export, one
    whose import never settles, and the plugin itself. *)
Definition world : World := {|
  importModule pkg :=
    if String.eqb pkg "wrapped" then
      ImportFulfilled [("default", Object [("rules", catalogue)])]
    else if String.eqb pkg "bare" then
      ImportFulfilled [("default", catalogue)]
    else if String.eqb pkg "named" then
      ImportFulfilled [("rules", catalogue)]
    else if String.eqb pkg "shadowed" then
      ImportFulfilled [("default", Object [("name", Str "plugin")]);
                       ("rules", catalogue)]
    else if String.eqb pkg "slow" then ImportPending
    else if String.eqb pkg "@mridang/commitlint-plugin-conditionals" then
      ImportFulfilled (Plugin.exports own)
    else ImportRejected (Str "not found");
  callFunction f args :=
    match Realm.call f args with
    | Some answer => answer
    | None =>
        if Nat.eqb f hanging then CallPending
        else CallReturns (outcome true EmptyString)
    end;
  callMethod f this :=
    match Realm.method f this with
    | Some answer => answer
    | None =>
        if Nat.eqb f hanging then CallPending
        else CallReturns (outcome true EmptyString)
    end;
  inheritedMember := Realm.inheritedMember;
  functionSource _ := "function () {}"
|}.

Definition entry (packageName ruleName : string) : Value :=
  Object [("packageName", Str packageName); ("ruleName", Str ruleName)].

Definition commit : Value := Object [("raw", Str "feat: add a feature")].

Definition options (rules : list Value) : Value :=
  Object [("rulesToEnforce", Array rules)].

End Shapes.

(** ** The test bench

    The helper [createCommit], the mocked catalogue of [@commitlint/rules]
    and the mocked rule [body-max-line-length] of the test files. *)

Module TestSupport.

Definition lineFeed : ascii := ascii_of_nat 10.

(** [s.split('\n')]. *)
Fixpoint splitLineFeed (s : string) : list string :=
  match s with
  | EmptyString => [EmptyString]
  | String c s' =>
      if Ascii.eqb c lineFeed then EmptyString :: splitLineFeed s'
      else match splitLineFeed s' with
           | piece :: pieces => String c piece :: pieces
           | [] => [String c EmptyString]
           end
  end.

(** [createCommit(rawInput, bodyInput = null)]. *)
Definition createCommit (rawInput bodyInput : Value) : Value :=
  let bodyInput := match bodyInput with Undefined => Null | _ => bodyInput end in
  let headerString :=
    match rawInput with
    | Str raw => orUndefined (nth_error (map Str (splitLineFeed raw)) 0)
    | _ => Null
    end in
  Object [("raw", rawInput); ("header", headerString); ("body", bodyInput);
          ("footer", Null); ("type", Null); ("scope", Null);
          ("subject", Null); ("mentions", Array []); ("notes", Array []);
          ("references", Array []); ("revert", Null); ("merge", Null);
          ("action", Null); ("owner", Null); ("name", Null)].

Definition typeEnum : FunctionId := 1.
Definition headerMaxLength : FunctionId := 2.
Definition bodyMaxLineLength : FunctionId := 3.
Definition ruleToMalform : FunctionId := 4.

Definition mockCommitlintRulesCatalogue : Value :=
  Object [("type-enum", Function typeEnum);
          ("header-max-length", Function headerMaxLength);
          ("body-max-line-length", Function bodyMaxLineLength);
          ("rule-to-malform", Function ruleToMalform)].

(** The implementation the tests install for [body-max-line-length]. *)
Definition mockBodyMaxLineLength (args : list Value) : Value :=
  let parsed := orUndefined (nth_error args 0) in
  let maxLength := orUndefined (nth_error args 2) in
  match truthy parsed, get parsed "body", maxLength with
  | true, Str body, Number max =>
      if (max <=? 0)%Z then
        outcome true "Mocked body-max-line-length: no body or invalid max length."
      else
        let lines := splitLineFeed body in
        if existsb (fun line => (Z.of_nat (String.length line) >? max)%Z) lines
        then outcome false
               ("Mocked body-max-line-length: A line exceeds "
                ++ numberToString max ++ " characters.")
        else outcome true "Mocked body-max-line-length: OK."
  | _, _, _ =>
      outcome true "Mocked body-max-line-length: no body or invalid max length."
  end.

(** The world of the tests of [body-max-line-length]: the import of
    [@commitlint/rules] is mocked, the other mocks return [[true, '']], and
    [others] answers the imports that are not mocked. *)
Definition world (others : string -> ImportResult) : World := {|
  importModule pkg :=
    if String.eqb pkg "@commitlint/rules" then
      ImportFulfilled
        [("__esModule", Boolean true);
         ("default", Object [("rules", mockCommitlintRulesCatalogue)])]
    else others pkg;
  callFunction f args :=
    match Realm.call f args with
    | Some answer => answer
    | None =>
        if Nat.eqb f bodyMaxLineLength
        then CallReturns (mockBodyMaxLineLength args)
        else CallReturns (outcome true EmptyString)
    end;
  callMethod f this :=
    match Realm.method f this with
    | Some answer => answer
    | None =>
        if Nat.eqb f bodyMaxLineLength
        then CallReturns (mockBodyMaxLineLength [])
        else CallReturns (outcome true EmptyString)
    end;
  inheritedMember := Realm.inheritedMember;
  functionSource _ := "[Function: mockConstructor]"
|}.

Definition bodyMaxLineLengthRuleConfig (value : Value) : Value :=
  Object [("packageName", Str "@commitlint/rules");
          ("ruleName", Str "body-max-line-length");
          ("value", value)].

(** The options of these tests: one pattern, one rule to enforce. *)
Definition options (v : Variant) (pattern : string) (value : Value) : Value :=
  Object [(patternsField v, Array [Str pattern]);
          ("rulesToEnforce", Array [bodyMaxLineLengthRuleConfig value])].

(** Some line of the body is longer than the limit, the body being a string
    and the limit a positive number. *)
Definition exceeds (body maxLength : Value) : bool :=
  match body, maxLength with
  | Str b, Number max =>
      (0 <? max)%Z &&
      existsb (fun line => (Z.of_nat (String.length line) >? max)%Z)
              (splitLineFeed b)
  | _, _ => false
  end.

End TestSupport.

(** ** Values that resist a conversion to text *)

Module Corners.

Definition unprintable : FunctionId := 11.
Definition described : FunctionId := 12.
Definition describe : FunctionId := 13.

(** An object whose own [toString] is not callable: [{ toString: 5 }]. *)
Definition opaque : Value := Object [("toString", Number 5)].

(** An object with a [toString] method of its own. *)
Definition selfDescribing : Value := Object [("toString", Function describe)].

(** A world with one loadable package, [rules], whose default export is
    the catalogue: [unprintable] fails with the message [opaque],
    [described] fails with the message [selfDescribing], whose [toString]
    returns a text.  The import of [lost] rejects with a string, that of
    [broken] with [opaque], every other import with an [Error]. *)
Definition world : World := {|
  importModule pkg :=
    if String.eqb pkg "rules" then
      ImportFulfilled
        [("default",
          Object [("unprintable", Function unprintable);
                  ("described", Function described)])]
    else if String.eqb pkg "lost" then ImportRejected (Str "lost in transit")
    else if String.eqb pkg "broken" then ImportRejected opaque
    else ImportRejected (Error "Error" ("Cannot find package '" ++ pkg ++ "'"));
  callFunction f args :=
    match Realm.call f args with
    | Some answer => answer
    | None =>
        if Nat.eqb f unprintable
        then CallReturns (Array [Boolean false; opaque])
        else if Nat.eqb f described
             then CallReturns (Array [Number 0; selfDescribing])
             else CallReturns (outcome true EmptyString)
    end;
  callMethod f this :=
    match Realm.method f this with
    | Some answer => answer
    | None =>
        if Nat.eqb f describe then CallReturns (Str "a line is too long")
        else CallReturns (outcome true EmptyString)
    end;
  inheritedMember := Realm.inheritedMember;
  functionSource _ := "function () {}"
|}.

Definition commit : Value := Object [("raw", Str "feat: add a feature")].

Definition entry (packageName ruleName : string) : Value :=
  Object [("packageName", Str packageName); ("ruleName", Str ruleName)].

Definition options (rules : list Value) : Value :=
  Object [("rulesToEnforce", Array rules)].

End Corners.

(** ** Tactics for the sample inputs *)

(** [passes] on a concrete entry of a concrete world. *)
Ltac solve_passes :=
  unfold passes, resolvesTo, answers;
  repeat (eexists || split); reflexivity.

(** [reachesRules] on concrete inputs. *)
Ltac solve_reaches :=
  unfold reachesRules, fallsThrough, enabled;
  repeat (eexists || split); reflexivity.

(** ** Facts about the text primitives *)

Module TextFacts.

Import Text.

Lemma append_assoc (a b c : string) : (a ++ b) ++ c = a ++ b ++ c.
Proof. induction a as [|x a IH]; simpl; [reflexivity | now rewrite IH]. Qed.

Lemma append_empty_r (a : string) : a ++ EmptyString = a.
Proof. induction a as [|x a IH]; simpl; [reflexivity | now rewrite IH]. Qed.

Lemma startsWith_iff (p s : string) :
  startsWith p s = true <-> exists b, s = p ++ b.
Proof.
  revert s. induction p as [|a p IH]; intros s; simpl.
  - split; [intros _; now exists s | reflexivity].
  - destruct s as [|b s].
    + split; [discriminate | intros [t H]; discriminate].
    + rewrite andb_true_iff, Ascii.eqb_eq, IH. split.
      * intros [-> [t ->]]. now exists t.
      * intros [t H]. injection H as -> ->. split; [reflexivity | now exists t].
Qed.

Lemma includes_iff (s p : string) :
  includes s p = true <-> exists a b, s = a ++ p ++ b.
Proof.
  induction s as [|c s IH]; simpl.
  - rewrite orb_false_r, startsWith_iff. split.
    + intros [b H]. now exists EmptyString, b.
    + intros [a [b H]]. destruct a; [now exists b | discriminate].
  - rewrite orb_true_iff, startsWith_iff, IH. split.
    + intros [[b H] | [a [b H]]].
      * now exists EmptyString, b.
      * exists (String c a), b. simpl. now rewrite H.
    + intros [a [b H]]. destruct a as [|x a]; simpl in H.
      * left. now exists b.
      * right. injection H as _ H. now exists a, b.
Qed.

(** Every string contains the empty string. *)
Lemma includes_empty (s : string) : includes s EmptyString = true.
Proof. destruct s; reflexivity. Qed.

Lemma includes_infix (a p b : string) : includes (a ++ p ++ b) p = true.
Proof. apply includes_iff. now exists a, b. Qed.

Lemma includes_trans (s t p : string) :
  includes s t = true -> includes t p = true -> includes s p = true.
Proof.
  rewrite !includes_iff. intros [a [b ->]] [c [d ->]].
  exists (a ++ c), (d ++ b). now rewrite !append_assoc.
Qed.

End TextFacts.

(** ** Facts about the loop over [rulesToEnforce] *)

Section LoopFacts.

Variable w : World.
Variable msgs : Messages.
Variable commit : Value.

Lemma trace_pair {A} (t : list Event) (c : Completion A) : trace (t, c) = t.
Proof. reflexivity. Qed.

Lemma result_pair {A} (t : list Event) (c : Completion A) : result (t, c) = c.
Proof. reflexivity. Qed.

Lemma destructurePair_trace (out : Value) : trace (destructurePair out) = [].
Proof. destruct out; reflexivity. Qed.

Lemma destructurePair_eq (out : Value) :
  destructurePair out = ([], result (destructurePair out)).
Proof. destruct out; reflexivity. Qed.

(** One turn of the loop, in terms of [specEvents] and [turn]. *)
Lemma enforceRules_cons (spec : Value) (rest : list Value) :
  enforceRules w msgs commit (spec :: rest) =
  match turn w msgs commit spec with
  | Some c => (specEvents w commit spec, c)
  | None =>
      ((specEvents w commit spec
        ++ trace (enforceRules w msgs commit rest))%list,
       result (enforceRules w msgs commit rest))
  end.
Proof.
  unfold turn, specEvents. simpl.
  destruct (validRuleConfig spec) as [[pkg rule]|]; [|reflexivity].
  unfold loadRule, dynamicImport, tryCatch, bind, ret. simpl.
  destruct (importModule w pkg) as [exports|reason|]; try reflexivity;
    [|unfold attempt, failsWith; now destruct (errorMessage w reason)].
  simpl.
  destruct (lookupRule w (Object exports) rule) as [| |b|z|s|l|o|n m|f];
    try reflexivity.
  unfold awaitCall, ruleArgs. simpl.
  destruct (settle (callFunction w f [commit; Str "always"; get spec "value"]))
    as [out|e|]; try reflexivity.
  rewrite (destructurePair_eq out).
  destruct (result (destructurePair out)) as [[isValid message]|e|];
    try reflexivity.
  simpl. destruct (truthy isValid); simpl.
  - destruct (enforceRules w msgs commit rest) as [t c]. reflexivity.
  - unfold attempt, failsWith. now destruct (toString w message).
Qed.

Lemma enforceRules_nil :
  enforceRules w msgs commit [] = ([], Normal (outcome true (allPassed msgs))).
Proof. reflexivity. Qed.

Lemma passes_turn (spec : Value) :
  passes w commit spec -> turn w msgs commit spec = None.
Proof.
  intros (pkg & rule & f & isValid & message & [Hv (ex & Hi & Hl)]
          & (out & Hs & Hd) & Ht).
  unfold turn. rewrite Hv, Hi, Hl, Hs, Hd. simpl. now rewrite Ht.
Qed.

Lemma turn_passes (spec : Value) :
  turn w msgs commit spec = None -> passes w commit spec.
Proof.
  unfold turn, passes, resolvesTo, answers.
  destruct (validRuleConfig spec) as [[pkg rule]|]; [|discriminate].
  destruct (importModule w pkg) as [exports|reason|] eqn:Hi; try discriminate.
  destruct (lookupRule w (Object exports) rule) eqn:Hl; try discriminate.
  destruct (settle (callFunction w f (ruleArgs commit spec))) as [out|e|] eqn:Hs;
    try discriminate.
  destruct (result (destructurePair out)) as [[isValid message]|e|] eqn:Hd;
    try discriminate.
  destruct (truthy isValid) eqn:Ht; [intros _|discriminate].
  exists pkg, rule, f, isValid, message. repeat split.
  - now exists exports.
  - exists out. split; [exact Hs|].
    now rewrite (destructurePair_eq out), Hd.
  - exact Ht.
Qed.

(** The entries that pass leave their events behind and hand over to the
    rest of the list. *)
Lemma enforceRules_app (pre rest : list Value) :
  Forall (passes w commit) pre ->
  enforceRules w msgs commit (pre ++ rest) =
  ((flat_map (specEvents w commit) pre
    ++ trace (enforceRules w msgs commit rest))%list,
   result (enforceRules w msgs commit rest)).
Proof.
  induction 1 as [|spec pre Hspec _ IH]; simpl flat_map; simpl app.
  - now destruct (enforceRules w msgs commit rest).
  - change ((spec :: pre) ++ rest)%list with (spec :: (pre ++ rest))%list.
    rewrite enforceRules_cons, (passes_turn _ Hspec), IH. simpl.
    now rewrite app_assoc.
Qed.

End LoopFacts.

(** ** Facts about the rule as a whole *)

Section RuleFacts.

Variable v : Variant.
Variable w : World.

Lemma find_none_iff {A} (f : A -> bool) (l : list A) :
  find f l = None <-> forall x, In x l -> f x = false.
Proof.
  split; [apply find_none|].
  induction l as [|a l IH]; simpl; intros H; [reflexivity|].
  rewrite (H a (or_introl eq_refl)). apply IH. intros x Hx. apply H. now right.
Qed.

(** [find] returns the first element, in list order, that satisfies the
    test. *)
Lemma find_first {A} (f : A -> bool) (l : list A) (x : A) :
  find f l = Some x <->
  exists l1 l2, l = (l1 ++ x :: l2)%list /\ f x = true /\
                forall y, In y l1 -> f y = false.
Proof.
  split.
  - induction l as [|a l IH]; simpl; [discriminate|].
    destruct (f a) eqn:Ha.
    + intros [= ->]. exists [], l. repeat split; [exact Ha | intros y []].
    + intros H. destruct (IH H) as (l1 & l2 & -> & Hx & Hl1).
      exists (a :: l1), l2. repeat split; [exact Hx|].
      intros y [<-|Hy]; [exact Ha | now apply Hl1].
  - intros (l1 & l2 & -> & Hx & Hl1).
    induction l1 as [|a l1 IH]; simpl.
    + now rewrite Hx.
    + rewrite (Hl1 a (or_introl eq_refl)). apply IH.
      intros y Hy. apply Hl1. now right.
Qed.

(** The pattern block of either version, in terms of [patternMatches]. *)
Lemma checkPatterns_strings (raw : string) (items : list Value)
      (patterns : list string) :
  allStrings items = Some patterns ->
  checkPatterns v raw (Array items) =
  match find (patternMatches v raw) patterns with
  | Some matched =>
      if truthy (Str matched)
      then Some (outcome true (bypassed v matched)) else None
  | None => None
  end.
Proof.
  intros H. destruct v; simpl; rewrite H.
  - reflexivity.
  - unfold patternMatches.
    destruct patterns as [|p ps]; [reflexivity|].
    cbv beta iota delta [List.length Nat.ltb Nat.leb].
    destruct (TrailerVariant.extractSignOffs raw) as [|t ts] eqn:Hex.
    + simpl. destruct (String.eqb p EmptyString); simpl;
        [|now rewrite (proj2 (find_none_iff (fun _ => false) ps))].
      now rewrite (proj2 (find_none_iff (fun _ => false) ps)).
    + reflexivity.
Qed.

Lemma checkPatterns_not_strings (raw : string) (items : list Value) :
  allStrings items = None ->
  checkPatterns v raw (Array items) = Some (outcome false (patternsInvalid v)).
Proof. intros H. destruct v; simpl; now rewrite H. Qed.

Lemma checkPatterns_not_array (raw : string) (patterns : Value) :
  (forall items, patterns <> Array items) ->
  checkPatterns v raw patterns = None.
Proof.
  intros H. destruct v; destruct patterns; try reflexivity;
    now destruct (H items).
Qed.

Lemma noPatternMatches_falls_through (raw : string) (patterns : Value) :
  noPatternMatches v raw patterns -> checkPatterns v raw patterns = None.
Proof.
  destruct patterns as [| |b|z|s|items|o|n m|f];
    try (intros _; apply checkPatterns_not_array; congruence).
  intros (l & Hl & Hno). rewrite (checkPatterns_strings _ _ _ Hl).
  now rewrite (proj2 (find_none_iff _ _) Hno).
Qed.

Variables commit when value : Value.

Lemma ignoreForAuthors_disabled :
  strictEqualsString (conditionOf when) "never" = true ->
  ignoreForAuthors v w commit when value = ret (outcome true EmptyString).
Proof.
  intros H. unfold conditionOf in H.
  destruct v; unfold ignoreForAuthors, SubstringVariant.ignoreForAuthors,
    TrailerVariant.ignoreForAuthors; now rewrite H.
Qed.

Lemma ignoreForAuthors_enabled :
  enabled when ->
  ignoreForAuthors v w commit when value =
  (rawCommitMessage <- member commit "raw" ;;
   match rawCommitMessage with
   | Str raw =>
       match checkPatterns v raw (get (optionsOf value) (patternsField v)) with
       | Some returned => ret returned
       | None =>
           enforcePhase w (messagesOf v) (noRules v) commit
                        (get (optionsOf value) "rulesToEnforce")
       end
   | _ => ret (outcome false (rawInvalid v))
   end).
Proof.
  unfold enabled, conditionOf. intros H.
  destruct v; unfold ignoreForAuthors, SubstringVariant.ignoreForAuthors,
    TrailerVariant.ignoreForAuthors; now rewrite H.
Qed.

Lemma member_defined (x : Value) (k : string) :
  isNullish x = false -> member x k = ret (get x k).
Proof. unfold member. now intros ->. Qed.

Lemma ignoreForAuthors_falls_through :
  enabled when -> fallsThrough v commit value ->
  ignoreForAuthors v w commit when value =
  enforcePhase w (messagesOf v) (noRules v) commit
               (get (optionsOf value) "rulesToEnforce").
Proof.
  intros He (Hc & raw & Hraw & Hp).
  rewrite (ignoreForAuthors_enabled He), (member_defined _ _ Hc).
  unfold bind, ret. rewrite Hraw, Hp.
  now destruct (enforcePhase _ _ _ _ _).
Qed.

Lemma ignoreForAuthors_reaches (rules : list Value) :
  reachesRules v commit when value rules -> rules <> [] ->
  ignoreForAuthors v w commit when value =
  enforceRules w (messagesOf v) commit rules.
Proof.
  intros (He & Hf & Hr) Hne.
  rewrite (ignoreForAuthors_falls_through He Hf), Hr.
  unfold enforcePhase. destruct rules; [congruence | reflexivity].
Qed.

(** Either the rule ends before the loop, without any interaction with the
    world and without an exception unless the commit is [null] or
    [undefined], or it is the loop over a non-empty [rulesToEnforce]. *)
Lemma ignoreForAuthors_shape :
  (trace (ignoreForAuthors v w commit when value) = [] /\
   forall e, result (ignoreForAuthors v w commit when value) = Throw e ->
             isNullish commit = true) \/
  (rulesOf value <> [] /\
   ignoreForAuthors v w commit when value =
   enforceRules w (messagesOf v) commit (rulesOf value)).
Proof.
  destruct (strictEqualsString (conditionOf when) "never") eqn:Hw.
  - left. rewrite (ignoreForAuthors_disabled Hw). split; [reflexivity|].
    discriminate.
  - rewrite (ignoreForAuthors_enabled Hw). unfold member.
    destruct (isNullish commit) eqn:Hc; [left; split; [reflexivity|auto]|].
    unfold bind, ret.
    destruct (get commit "raw") as [| |b|z|raw|l|o|n m|f];
      try (left; split; [reflexivity|discriminate]).
    destruct (checkPatterns v raw _);
      [left; split; [reflexivity|discriminate]|].
    unfold enforcePhase, rulesOf.
    destruct (get (optionsOf value) "rulesToEnforce")
      as [| |b|z|s|rules|o|n m|f];
      try (left; split; [reflexivity|discriminate]).
    destruct rules as [|r rules];
      [left; split; [reflexivity|discriminate]|].
    right. split; [discriminate|].
    simpl Nat.eqb. cbv iota.
    now destruct (enforceRules w (messagesOf v) commit (r :: rules)).
Qed.

End RuleFacts.

(** ** Properties of the engine *)

Section Validation.

Variable v : Variant.
Variable w : World.
Variables commit when value : Value.

Lemma allStrings_none (items : list Value) :
  (exists x, In x items /\ isString x = false) -> allStrings items = None.
Proof.
  induction items as [|a items IH]; intros (x & Hin & Hx); [destruct Hin|].
  destruct Hin as [<-|Hin].
  - destruct a; simpl in *; try reflexivity; discriminate.
  - simpl. rewrite IH by (now exists x).
    destruct a; reflexivity.
Qed.

Lemma validRuleConfig_none (spec : Value) :
  isString (get spec "packageName") = false \/
  isString (get spec "ruleName") = false ->
  validRuleConfig spec = None.
Proof.
  unfold validRuleConfig. destruct (truthy spec); [|reflexivity].
  destruct (get spec "packageName"), (get spec "ruleName");
    simpl; intros [H|H]; try reflexivity; discriminate.
Qed.

Lemma validRuleConfig_some (spec : Value) (pkg rule : string) :
  validRuleConfig spec = Some (pkg, rule) <->
  truthy spec = true /\ get spec "packageName" = Str pkg /\
  get spec "ruleName" = Str rule.
Proof.
  unfold validRuleConfig. destruct (truthy spec).
  - destruct (get spec "packageName"), (get spec "ruleName");
      split; try discriminate; try (intros (_ & H1 & H2); discriminate).
    + intros [= -> ->]. auto.
    + intros (_ & [= ->] & [= ->]). reflexivity.
  - split; [discriminate | intros (H & _); discriminate].
Qed.

(** Only an object has a [packageName] that is a string. *)
Lemma has_packageName_truthy (spec : Value) (pkg : string) :
  get spec "packageName" = Str pkg -> truthy spec = true.
Proof. destruct spec; try discriminate; reflexivity. Qed.

(** The rule ends at a malformed entry that the loop reaches. *)
Lemma enforceRules_invalid (msgs : Messages) (pre post : list Value)
      (spec : Value) :
  Forall (passes w commit) pre ->
  validRuleConfig spec = None ->
  enforceRules w msgs commit (pre ++ spec :: post) =
  (flat_map (specEvents w commit) pre,
   Normal (outcome false (invalidRuleConfig msgs))).
Proof.
  intros Hpre Hspec.
  rewrite (enforceRules_app w msgs commit pre (spec :: post) Hpre).
  rewrite enforceRules_cons. unfold turn, specEvents. rewrite Hspec.
  simpl. now rewrite app_nil_r.
Qed.

End Validation.

(** C7.  With the condition ['never'] the rule fulfils with [[true, '']]
    whatever the commit and the options are, and without any interaction
    with the world.  No field of the commit or of the options is read: the
    outcome is the same for every pair of them, among them a [null] commit,
    on which reading [raw] would throw. *)
Theorem C7_never_passes_without_reading :
  forall (v : Variant) (w : World) (commit value : Value),
    ignoreForAuthors v w commit (Str "never") value =
    ([], Normal (outcome true EmptyString)).
Proof. intros [] w commit value; reflexivity. Qed.

(** C8.  When the rule is enabled, the raw text is a string and no bypass
    pattern matched, a [rulesToEnforce] that is absent, not an array or an
    empty array makes the rule pass with the message that holds
    "No rules configured", and nothing is loaded or invoked. *)
Theorem C8_no_rules_configured_passes :
  forall (v : Variant) (w : World) (commit when value : Value) (raw : string),
    enabled when ->
    isNullish commit = false ->
    get commit "raw" = Str raw ->
    noPatternMatches v raw (get (optionsOf value) (patternsField v)) ->
    (forall rules,
        get (optionsOf value) "rulesToEnforce" = Array rules -> rules = []) ->
    ignoreForAuthors v w commit when value =
    ([], Normal (outcome true (noRules v))) /\
    Text.includes (noRules v) "No rules configured" = true.
Proof.
  intros v w commit when value raw He Hc Hraw Hno Hrules. split.
  - rewrite (ignoreForAuthors_falls_through v w commit when value He).
    + unfold enforcePhase.
      destruct (get (optionsOf value) "rulesToEnforce")
        as [| |b|z|s|rules|o|n m|f]; try reflexivity.
      now rewrite (Hrules rules eq_refl).
    + split; [exact Hc|]. exists raw. split; [exact Hraw|].
      now apply noPatternMatches_falls_through.
  - destruct v; reflexivity.
Qed.

Lemma C8_witness :
  ignoreForAuthors Trailer Sample.world Sample.humanCommit (Str "always")
                   (Sample.options Trailer ["dependabot[bot]"] []) =
  ([], Normal (outcome true (noRules Trailer))) /\
  Text.includes (noRules Trailer) "No rules configured" = true.
Proof.
  eapply C8_no_rules_configured_passes.
  - reflexivity.
  - reflexivity.
  - reflexivity.
  - vm_compute. eexists. split; [reflexivity|].
    intros p [<-|[]]. reflexivity.
  - intros rules H. vm_compute in H. now injection H as <-.
Defined.

(** C5, as it stands, does not hold: a malformed entry of [rulesToEnforce]
    is only looked at when the loop gets to it.  Here the first commit is
    bypassed, so the rule passes although the only entry has no
    [packageName]; and on the second commit the entry before the malformed
    one throws, so the promise of the rule rejects. *)
Lemma C5_counterexample :
  isString (get Sample.malformedRule "packageName") = false /\
  ignoreForAuthors Substring Sample.world Sample.botCommit (Str "always")
    (Sample.options Substring ["dependabot[bot]"] [Sample.malformedRule])
  = ([], Normal (outcome true (bypassed Substring "dependabot[bot]"))) /\
  result (ignoreForAuthors Substring Sample.world Sample.humanCommit
            (Str "always")
            (Sample.options Substring []
                            [Sample.throwingRule; Sample.malformedRule]))
  = Throw (Error "Error" "boom").
Proof. split; [|split]; reflexivity. Qed.

(** C5, amended.  When the rule is enabled and the commit is an object:
    - a [raw] that is not a string ends the rule at once with the failing
      outcome "Raw commit message is not available or is invalid.";
    - with a string [raw], a pattern list that holds an entry that is not a
      string ends it at once with the failing outcome "... must be an array
      of strings.", whatever [rulesToEnforce] is;
    - an entry of [rulesToEnforce] whose [packageName] or [ruleName] is not
      a string ends it with the failing outcome "Invalid rule
      configuration ..." as soon as the loop reaches that entry, that is
      when no pattern bypassed the commit and every entry before it was
      resolved, invoked and passed; no later entry is loaded or invoked.
    In the three cases the promise of the rule fulfils. *)
Theorem C5_malformed_input_fails :
  forall (v : Variant) (w : World) (commit when value : Value),
    enabled when ->
    isNullish commit = false ->
    (isString (get commit "raw") = false ->
     ignoreForAuthors v w commit when value =
     ([], Normal (outcome false (rawInvalid v)))) /\
    (forall raw items,
        get commit "raw" = Str raw ->
        get (optionsOf value) (patternsField v) = Array items ->
        (exists x, In x items /\ isString x = false) ->
        ignoreForAuthors v w commit when value =
        ([], Normal (outcome false (patternsInvalid v)))) /\
    (forall pre spec post,
        reachesRules v commit when value (pre ++ spec :: post) ->
        Forall (passes w commit) pre ->
        isString (get spec "packageName") = false \/
        isString (get spec "ruleName") = false ->
        ignoreForAuthors v w commit when value =
        (flat_map (specEvents w commit) pre,
         Normal (outcome false (invalidRuleConfig (messagesOf v))))) /\
    Text.includes (rawInvalid v)
                  "Raw commit message is not available or is invalid." = true /\
    Text.includes (patternsInvalid v) "must be an array of strings." = true /\
    Text.includes (invalidRuleConfig (messagesOf v))
                  "'packageName' and 'ruleName' must be strings." = true.
Proof.
  intros v w commit when value He Hc. repeat split.
  - intros Hraw.
    rewrite (ignoreForAuthors_enabled v w commit when value He),
      (member_defined _ _ Hc).
    unfold bind, ret. destruct (get commit "raw"); try reflexivity.
    discriminate.
  - intros raw items Hraw Hp Hx.
    rewrite (ignoreForAuthors_enabled v w commit when value He),
      (member_defined _ _ Hc).
    unfold bind, ret. rewrite Hraw, Hp.
    now rewrite (checkPatterns_not_strings v raw items (allStrings_none _ Hx)).
  - intros pre spec post Hreach Hpre Hspec.
    rewrite (ignoreForAuthors_reaches v w commit when value _ Hreach)
      by (now destruct pre).
    apply enforceRules_invalid; [exact Hpre|].
    now apply validRuleConfig_none.
  - destruct v; reflexivity.
  - destruct v; reflexivity.
  - destruct v; reflexivity.
Qed.

Lemma C5_witness :
  ignoreForAuthors Trailer Sample.world (Object [("raw", Null)])
                   (Str "always") Undefined
  = ([], Normal (outcome false (rawInvalid Trailer))) /\
  ignoreForAuthors Substring Sample.world Sample.humanCommit Undefined
    (Object [("ignoreAuthorPatterns", Array [Str "valid"; Number 123; Null])])
  = ([], Normal (outcome false (patternsInvalid Substring))) /\
  ignoreForAuthors Trailer Sample.world Sample.humanCommit (Str "always")
    (Sample.options Trailer ["dependabot[bot]"]
       [Sample.headerRule; Sample.malformedRule; Sample.typeEnumRule])
  = (flat_map (specEvents Sample.world Sample.humanCommit) [Sample.headerRule],
     Normal (outcome false (invalidRuleConfig (messagesOf Trailer)))).
Proof.
  split; [|split].
  - apply (C5_malformed_input_fails Trailer Sample.world
             (Object [("raw", Null)]) (Str "always") Undefined);
      reflexivity.
  - eapply (C5_malformed_input_fails Substring Sample.world Sample.humanCommit
              Undefined
              (Object [("ignoreAuthorPatterns",
                        Array [Str "valid"; Number 123; Null])])).
    + reflexivity.
    + reflexivity.
    + reflexivity.
    + reflexivity.
    + exists (Number 123). split; [right; left; reflexivity | reflexivity].
  - eapply (C5_malformed_input_fails Trailer Sample.world Sample.humanCommit
              (Str "always")
              (Sample.options Trailer ["dependabot[bot]"]
                 [Sample.headerRule; Sample.malformedRule; Sample.typeEnumRule])).
    + reflexivity.
    + reflexivity.
    + solve_reaches.
    + constructor; [solve_passes | constructor].
    + left. reflexivity.
Defined.

(** ** Facts about the conversions to text *)

(** [numberToString] on some integers, among them the first that is printed
    in scientific notation and some that have more digits than a double
    tells apart. *)
Lemma numberToString_samples :
  numberToString 0 = "0" /\
  numberToString (Z.opp 42) = "-42" /\
  numberToString (Z.pow 2 53) = "9007199254740992" /\
  numberToString (Z.pow 2 64) = "18446744073709552000" /\
  numberToString (Z.sub (Z.pow 10 21) (Z.pow 2 17))
  = "999999999999999900000" /\
  numberToString (Z.pow 10 21) = "1e+21" /\
  numberToString (Z.pow 2 70) = "1.1805916207174113e+21" /\
  numberToString (Z.opp (Z.pow 2 100)) = "-1.2676506002282294e+30".
Proof. vm_compute. repeat split. Qed.

Section ConversionFacts.

Variable w : World.

Lemma toString_Str (s : string) : toString w (Str s) = Returned s.
Proof. reflexivity. Qed.

Lemma errorMessage_Error (name message : string) :
  errorMessage w (Error name message) = Returned message.
Proof. reflexivity. Qed.

Lemma errorMessage_other (reason : Value) :
  (forall name message, reason <> Error name message) ->
  errorMessage w reason = toString w reason.
Proof.
  destruct reason; try reflexivity. intros H. now destruct (H name message).
Qed.

End ConversionFacts.

Section Resolution.

Variable w : World.
Variable msgs : Messages.
Variable commit : Value.



Lemma enforceRules_not_found (pre post : list Value) (spec : Value)
      (pkg rule : string) (exports : list (string * Value)) :
  Forall (passes w commit) pre ->
  validRuleConfig spec = Some (pkg, rule) ->
  importModule w pkg = ImportFulfilled exports ->
  (forall f, lookupRule w (Object exports) rule <> Function f) ->
  enforceRules w msgs commit (pre ++ spec :: post) =
  ((flat_map (specEvents w commit) pre ++ [EvImport pkg])%list,
   Normal (outcome false (ruleNotFound msgs pkg rule))).
Proof.
  intros Hpre Hv Hi Hl.
  rewrite (enforceRules_app w msgs commit pre (spec :: post) Hpre).
  rewrite enforceRules_cons. unfold turn, specEvents. rewrite Hv, Hi.
  destruct (lookupRule w (Object exports) rule) eqn:E; try reflexivity.
  now destruct (Hl f).
Qed.

Lemma enforceRules_delegated_failure (pre post : list Value) (spec : Value)
      (pkg rule : string) (f : FunctionId) (isValid message : Value) :
  Forall (passes w commit) pre ->
  resolvesTo w spec pkg rule f ->
  answers w commit spec f isValid message ->
  truthy isValid = false ->
  enforceRules w msgs commit (pre ++ spec :: post) =
  ((flat_map (specEvents w commit) pre
    ++ [EvImport pkg; EvCall f (ruleArgs commit spec)])%list,
   failsWith (toString w message) (delegatedFailure msgs pkg rule)).
Proof.
  intros Hpre (Hv & exports & Hi & Hl) (out & Hs & Hd) Ht.
  rewrite (enforceRules_app w msgs commit pre (spec :: post) Hpre).
  rewrite enforceRules_cons. unfold turn, specEvents.
  rewrite Hv, Hi, Hl, Hs, Hd. simpl. now rewrite Ht.
Qed.

End Resolution.

Section MessageFacts.

Import TextFacts.

Variable v : Variant.

Lemma loadError_eq (pkg err : string) :
  loadError (messagesOf v) pkg err = loadErrorHead v ++ pkg ++ "': " ++ err.
Proof. destruct v; reflexivity. Qed.


Lemma loadError_mentions (pkg err : string) :
  Text.includes (loadError (messagesOf v) pkg err) pkg = true /\
  Text.includes (loadError (messagesOf v) pkg err) err = true.
Proof.
  split; apply includes_iff.
  - exists (loadErrorHead v), ("': " ++ err).
    destruct v; reflexivity.
  - exists (loadErrorHead v ++ pkg ++ "': "), EmptyString.
    rewrite append_empty_r, !append_assoc.
    destruct v; reflexivity.
Qed.

Lemma ruleNotFound_mentions (pkg rule : string) :
  Text.includes (ruleNotFound (messagesOf v) pkg rule) rule = true /\
  Text.includes (ruleNotFound (messagesOf v) pkg rule) pkg = true.
Proof.
  split; apply includes_iff.
  - exists (ruleNotFoundHead v),
      ("' not found or not a function in package '" ++ pkg ++ "'.").
    destruct v; reflexivity.
  - exists (ruleNotFoundHead v ++ rule
            ++ "' not found or not a function in package '"), "'.".
    rewrite !append_assoc.
    destruct v; reflexivity.
Qed.

Lemma delegatedFailure_eq (pkg rule message : string) :
  delegatedFailure (messagesOf v) pkg rule message =
  viaPrefix v ++ pkg ++ "/" ++ rule ++ "] " ++ message.
Proof. destruct v; reflexivity. Qed.

Lemma bypassed_mentions (pattern : string) :
  Text.includes (bypassed v pattern) pattern = true /\
  Text.includes (bypassed v pattern)
                "Ruleset defined in 'rulesToEnforce' bypassed." = true.
Proof.
  split; apply includes_iff.
  - destruct v.
    + now exists (SubstringVariant.prefix
                  ++ "Commit by ignored author pattern ('"),
        "'). Ruleset defined in 'rulesToEnforce' bypassed.".
    + now exists "Commit has a 'Signed-off-by' line matching pattern ('",
        "'). Ruleset defined in 'rulesToEnforce' bypassed.".
  - destruct v.
    + exists (SubstringVariant.prefix
              ++ "Commit by ignored author pattern ('" ++ pattern ++ "'). "),
        EmptyString.
      rewrite !append_assoc. reflexivity.
    + exists ("Commit has a 'Signed-off-by' line matching pattern ('"
              ++ pattern ++ "'). "), EmptyString.
      rewrite !append_assoc. reflexivity.
Qed.

End MessageFacts.




(** C4, as it stands, does not hold for the version keyed on raw-message
    substrings: there the message of a delegated failure opens with
    "[@mridang/commitlint-plugin-conditionals via ", not with "[via ". *)
Lemma C4_counterexample :
  resolvesTo Sample.world Sample.typeEnumRule
             "@commitlint/rules" "type-enum" Sample.typeEnum /\
  answers Sample.world Sample.humanCommit Sample.typeEnumRule Sample.typeEnum
          (Boolean false) (Str "type invalid") /\
  result (ignoreForAuthors Substring Sample.world Sample.humanCommit
            (Str "always")
            (Sample.options Substring [] [Sample.typeEnumRule; Sample.headerRule]))
  = Normal (outcome false
              "[@mridang/commitlint-plugin-conditionals via @commitlint/rules/type-enum] type invalid") /\
  result (ignoreForAuthors Substring Sample.world Sample.humanCommit
            (Str "always")
            (Sample.options Substring [] [Sample.typeEnumRule; Sample.headerRule]))
  <> Normal (outcome false "[via @commitlint/rules/type-enum] type invalid").
Proof.
  split; [|split; [|split]].
  - split; [reflexivity|]. eexists. split; reflexivity.
  - eexists. split; reflexivity.
  - reflexivity.
  - discriminate.
Qed.

(** C4, amended.  Let the loop reach an entry (the rule is enabled, no
    pattern bypassed the commit, every entry before it was resolved, invoked
    and passed) whose delegated rule answers with a falsy first component
    and the message [message].  Then the rule ends there:
    - when [message] is a string, with the failing outcome whose message is
      "[via <packageName>/<ruleName>] <message>" in the version keyed on
      trailers and "[@mridang/commitlint-plugin-conditionals via
      <packageName>/<ruleName>] <message>" in the version keyed on
      substrings, the delegated message standing in it verbatim;
    - when [message] is not a string, with the same outcome on the text
      that the conversion of [message] to a string yields, and, when that
      conversion raises an exception, with the rejection of the promise of
      the rule.
    In each case the trace ends with the call of this rule: no later entry
    is loaded or invoked. *)
Theorem C4_first_failure_ends_the_chain :
  forall (v : Variant) (w : World) (commit when value : Value)
         (pre post : list Value) (spec : Value) (pkg rule : string)
         (f : FunctionId) (isValid message : Value),
    reachesRules v commit when value (pre ++ spec :: post) ->
    Forall (passes w commit) pre ->
    resolvesTo w spec pkg rule f ->
    answers w commit spec f isValid message ->
    truthy isValid = false ->
    (forall text,
        message = Str text ->
        ignoreForAuthors v w commit when value =
        ((flat_map (specEvents w commit) pre
          ++ [EvImport pkg;
              EvCall f [commit; Str "always"; get spec "value"]])%list,
         Normal (outcome false
                   (viaPrefix v ++ pkg ++ "/" ++ rule ++ "] " ++ text)))) /\
    (forall text,
        toString w message = Returned text ->
        ignoreForAuthors v w commit when value =
        ((flat_map (specEvents w commit) pre
          ++ [EvImport pkg;
              EvCall f [commit; Str "always"; get spec "value"]])%list,
         Normal (outcome false
                   (viaPrefix v ++ pkg ++ "/" ++ rule ++ "] " ++ text)))) /\
    (forall e,
        toString w message = Raised e ->
        ignoreForAuthors v w commit when value =
        ((flat_map (specEvents w commit) pre
          ++ [EvImport pkg;
              EvCall f [commit; Str "always"; get spec "value"]])%list,
         Throw e)).
Proof.
  intros v w commit when value pre post spec pkg rule f isValid message
         Hreach Hpre Hres Hans Hfalsy.
  rewrite (ignoreForAuthors_reaches v w commit when value _ Hreach)
    by (now destruct pre).
  rewrite (enforceRules_delegated_failure w (messagesOf v) commit pre post
             spec pkg rule f isValid message Hpre Hres Hans Hfalsy).
  split; [|split].
  - intros text ->. simpl. now rewrite delegatedFailure_eq.
  - intros text ->. simpl. now rewrite delegatedFailure_eq.
  - intros e ->. reflexivity.
Qed.

Lemma C4_witness :
  ignoreForAuthors Trailer Sample.world Sample.humanCommit (Str "always")
    (Sample.options Trailer ["dependabot[bot]"]
       [Sample.headerRule; Sample.typeEnumRule; Sample.throwingRule])
  = ([EvImport "@commitlint/rules";
      EvCall Sample.headerMaxLength
             [Sample.humanCommit; Str "always"; Number 50];
      EvImport "@commitlint/rules";
      EvCall Sample.typeEnum
             [Sample.humanCommit; Str "always"; Array [Str "feat"]]],
     Normal (outcome false "[via @commitlint/rules/type-enum] type invalid")) /\
  ignoreForAuthors Substring Corners.world Corners.commit (Str "always")
    (Corners.options [Corners.entry "rules" "described";
                      Corners.entry "rules" "unprintable"])
  = ([EvImport "rules";
      EvCall Corners.described [Corners.commit; Str "always"; Undefined]],
     Normal (outcome false
               "[@mridang/commitlint-plugin-conditionals via rules/described] a line is too long")) /\
  ignoreForAuthors Trailer Corners.world Corners.commit (Str "always")
    (Corners.options [Corners.entry "rules" "unprintable";
                      Corners.entry "rules" "described"])
  = ([EvImport "rules";
      EvCall Corners.unprintable [Corners.commit; Str "always"; Undefined]],
     Throw cannotConvert).
Proof.
  split; [|split].
  - apply (C4_first_failure_ends_the_chain Trailer Sample.world
             Sample.humanCommit (Str "always")
             (Sample.options Trailer ["dependabot[bot]"]
                [Sample.headerRule; Sample.typeEnumRule; Sample.throwingRule])
             [Sample.headerRule] [Sample.throwingRule] Sample.typeEnumRule
             "@commitlint/rules" "type-enum" Sample.typeEnum
             (Boolean false) (Str "type invalid")).
    + solve_reaches.
    + constructor; [solve_passes | constructor].
    + split; [reflexivity|]. eexists. split; reflexivity.
    + eexists. split; reflexivity.
    + reflexivity.
    + reflexivity.
  - apply (C4_first_failure_ends_the_chain Substring Corners.world
             Corners.commit (Str "always")
             (Corners.options [Corners.entry "rules" "described";
                               Corners.entry "rules" "unprintable"])
             [] [Corners.entry "rules" "unprintable"]
             (Corners.entry "rules" "described")
             "rules" "described" Corners.described
             (Number 0) Corners.selfDescribing).
    + solve_reaches.
    + constructor.
    + split; [reflexivity|]. eexists. split; reflexivity.
    + eexists. split; reflexivity.
    + reflexivity.
    + reflexivity.
  - apply (C4_first_failure_ends_the_chain Trailer Corners.world
             Corners.commit (Str "always")
             (Corners.options [Corners.entry "rules" "unprintable";
                               Corners.entry "rules" "described"])
             [] [Corners.entry "rules" "described"]
             (Corners.entry "rules" "unprintable")
             "rules" "unprintable" Corners.unprintable
             (Boolean false) Corners.opaque).
    + solve_reaches.
    + constructor.
    + split; [reflexivity|]. eexists. split; reflexivity.
    + eexists. split; reflexivity.
    + reflexivity.
    + reflexivity.
Defined.


Section TraceFacts.

Variable w : World.
Variable msgs : Messages.
Variable commit : Value.

Lemma resolvesTo_specEvents (spec : Value) (pkg rule : string)
      (f : FunctionId) :
  resolvesTo w spec pkg rule f ->
  specEvents w commit spec = [EvImport pkg; EvCall f (ruleArgs commit spec)].
Proof.
  intros (Hv & exports & Hi & Hl). unfold specEvents. now rewrite Hv, Hi, Hl.
Qed.

(** A call among the events of a turn is the call of the rule the entry
    resolves to, with the arguments [ruleArgs]. *)
Lemma specEvents_call (spec : Value) (f : FunctionId) (args : list Value) :
  In (EvCall f args) (specEvents w commit spec) ->
  exists pkg rule, resolvesTo w spec pkg rule f /\ args = ruleArgs commit spec.
Proof.
  unfold specEvents, resolvesTo.
  destruct (validRuleConfig spec) as [[pkg rule]|]; [|intros []].
  intros [H|H]; [discriminate|].
  destruct (importModule w pkg) as [exports|reason|] eqn:Hi; try (now destruct H).
  destruct (lookupRule w (Object exports) rule) eqn:Hl; try (now destruct H).
  destruct H as [[= <- <-]|[]].
  exists pkg, rule. split; [split|]; [reflexivity | now exists exports | reflexivity].
Qed.

Lemma trace_enforceRules_cons (spec : Value) (rest : list Value) :
  exists tail,
    trace (enforceRules w msgs commit (spec :: rest)) =
    (specEvents w commit spec ++ tail)%list /\
    (tail = [] \/ tail = trace (enforceRules w msgs commit rest)).
Proof.
  rewrite enforceRules_cons. destruct (turn w msgs commit spec).
  - exists []. split; [now rewrite app_nil_r | now left].
  - eexists. split; [reflexivity | now right].
Qed.

Lemma enforceRules_calls (rules : list Value) (f : FunctionId)
      (args : list Value) :
  In (EvCall f args) (trace (enforceRules w msgs commit rules)) ->
  exists spec pkg rule,
    In spec rules /\ resolvesTo w spec pkg rule f /\
    args = ruleArgs commit spec.
Proof.
  induction rules as [|spec rest IH]; [intros []|].
  destruct (trace_enforceRules_cons spec rest) as (tail & -> & Htail).
  rewrite in_app_iff. intros [H|H].
  - destruct (specEvents_call _ _ _ H) as (pkg & rule & Hr & Ha).
    exists spec, pkg, rule. split; [now left | now split].
  - destruct Htail as [-> | ->]; [destruct H|].
    destruct (IH H) as (s & pkg & rule & Hin & Hr & Ha).
    exists s, pkg, rule. split; [now right | now split].
Qed.

(** An exception comes out of a turn in three ways: the invocation lets it
    out, the conversion of the delegated message raises it, or the
    conversion of the reason of a rejected import raises it. *)
Lemma turn_throw (spec e : Value) :
  turn w msgs commit spec = Some (Throw e) ->
  (exists pkg f,
      specEvents w commit spec
      = [EvImport pkg; EvCall f (ruleArgs commit spec)] /\
      (escapes w f (ruleArgs commit spec) e \/
       unprintable w f (ruleArgs commit spec) e)) \/
  (exists pkg,
      specEvents w commit spec = [EvImport pkg] /\ unreportable w pkg e).
Proof.
  unfold turn, specEvents, escapes, unprintable, unreportable.
  destruct (validRuleConfig spec) as [[pkg rule]|]; [|discriminate].
  destruct (importModule w pkg) as [exports|reason|] eqn:Hi; try discriminate.
  - destruct (lookupRule w (Object exports) rule); try discriminate.
    intros H. left. exists pkg, f. split; [reflexivity|].
    destruct (callFunction w f (ruleArgs commit spec)) as [o|x|o|x|] eqn:Hc;
      simpl in H; try discriminate;
      try (injection H as ->; auto; fail).
    + destruct (result (destructurePair o)) as [[a b]|x|] eqn:Hd;
        try discriminate.
      * destruct (truthy a) eqn:Ha; [discriminate|].
        destruct (toString w b) as [t|x] eqn:Ht; [discriminate|].
        injection H as ->. right. exists o, a, b.
        repeat split; trivial. now rewrite (destructurePair_eq o), Hd.
      * injection H as ->. left. right. right. exists o.
        split; [reflexivity|]. now rewrite (destructurePair_eq o), Hd.
    + destruct (result (destructurePair o)) as [[a b]|x|] eqn:Hd;
        try discriminate.
      * destruct (truthy a) eqn:Ha; [discriminate|].
        destruct (toString w b) as [t|x] eqn:Ht; [discriminate|].
        injection H as ->. right. exists o, a, b.
        repeat split; trivial. now rewrite (destructurePair_eq o), Hd.
      * injection H as ->. left. right. right. exists o.
        split; [reflexivity|]. now rewrite (destructurePair_eq o), Hd.
  - intros H. right. exists pkg. split; [reflexivity|]. exists reason.
    split; [first [exact Hi | reflexivity]|].
    destruct reason; simpl in H; try discriminate;
      (split; [discriminate|]);
      match type of H with
      | Some (failsWith ?t _) = _ => destruct t eqn:Ht; [discriminate|]
      end; now injection H as ->.
Qed.

Lemma escapes_turn (spec : Value) (pkg rule : string) (f : FunctionId)
      (e : Value) :
  resolvesTo w spec pkg rule f ->
  escapes w f (ruleArgs commit spec) e ->
  turn w msgs commit spec = Some (Throw e).
Proof.
  intros (Hv & exports & Hi & Hl) Hesc. unfold turn. rewrite Hv, Hi, Hl.
  destruct Hesc as [H|[H|(out & Hs & Hd)]].
  - now rewrite H.
  - now rewrite H.
  - now rewrite Hs, Hd.
Qed.

Lemma unprintable_turn (spec : Value) (pkg rule : string) (f : FunctionId)
      (e : Value) :
  resolvesTo w spec pkg rule f ->
  unprintable w f (ruleArgs commit spec) e ->
  turn w msgs commit spec = Some (Throw e).
Proof.
  intros (Hv & exports & Hi & Hl) (out & a & b & Hs & Hd & Ha & Ht).
  unfold turn. rewrite Hv, Hi, Hl, Hs, Hd. simpl. now rewrite Ha, Ht.
Qed.

Lemma unreportable_turn (spec : Value) (pkg rule : string) (e : Value) :
  validRuleConfig spec = Some (pkg, rule) ->
  unreportable w pkg e ->
  turn w msgs commit spec = Some (Throw e).
Proof.
  intros Hv (reason & Hi & Hno & Ht). unfold turn. rewrite Hv, Hi.
  now rewrite (errorMessage_other w reason Hno), Ht.
Qed.

Lemma enforceRules_throw (rules : list Value) (e : Value) :
  result (enforceRules w msgs commit rules) = Throw e ->
  exists pre,
    (exists f args,
        trace (enforceRules w msgs commit rules) = (pre ++ [EvCall f args])%list
        /\ (escapes w f args e \/ unprintable w f args e)) \/
    (exists pkg,
        trace (enforceRules w msgs commit rules) = (pre ++ [EvImport pkg])%list
        /\ unreportable w pkg e).
Proof.
  induction rules as [|spec rest IH]; [discriminate|].
  rewrite enforceRules_cons.
  destruct (turn w msgs commit spec) as [c|] eqn:Hturn; simpl.
  - intros ->.
    destruct (turn_throw _ _ Hturn) as [(pkg & f & -> & H)|(pkg & -> & H)].
    + exists [EvImport pkg]. left. now exists f, (ruleArgs commit spec).
    + exists []. right. now exists pkg.
  - intros H.
    destruct (IH H) as (pre & [(f & args & -> & Hesc)|(pkg & -> & Hun)]);
      exists (specEvents w commit spec ++ pre)%list.
    + left. exists f, args. now rewrite app_assoc.
    + right. exists pkg. now rewrite app_assoc.
Qed.

(** The events of one turn: none, an import, or an import and a call. *)
Lemma specEvents_shape (spec : Value) :
  specEvents w commit spec = [] \/
  (exists pkg, specEvents w commit spec = [EvImport pkg] /\
               exists c, turn w msgs commit spec = Some c /\
                         forall reason,
                           importModule w pkg = ImportRejected reason ->
                           c = failsWith (errorMessage w reason)
                                         (loadError msgs pkg)) \/
  (exists pkg f args, specEvents w commit spec = [EvImport pkg; EvCall f args]).
Proof.
  unfold specEvents, turn.
  destruct (validRuleConfig spec) as [[pkg rule]|]; [|now left].
  right.
  destruct (importModule w pkg) as [exports|reason|] eqn:Hi.
  - destruct (lookupRule w (Object exports) rule) eqn:Hl;
      try (left; exists pkg; split; [reflexivity|]; eexists;
           split; [reflexivity|]; intros r Hr; rewrite Hi in Hr;
           discriminate).
    right. now exists pkg, f, (ruleArgs commit spec).
  - left. exists pkg. split; [reflexivity|]. eexists. split; [reflexivity|].
    intros r Hr. rewrite Hi in Hr. now injection Hr as ->.
  - left. exists pkg. split; [reflexivity|]. eexists. split; [reflexivity|].
    intros r Hr. rewrite Hi in Hr. discriminate.
Qed.

Lemma app_last_inv {A} (l1 l2 pre : list A) (x : A) :
  (l1 ++ l2)%list = (pre ++ [x])%list ->
  (l2 = [] /\ l1 = (pre ++ [x])%list) \/ exists pre', l2 = (pre' ++ [x])%list.
Proof.
  destruct l2 as [|a l2].
  - rewrite app_nil_r. now left.
  - destruct (exists_last (l := a :: l2)) as (t & z & ->); [discriminate|].
    rewrite app_assoc. intros H. apply app_inj_tail in H.
    destruct H as [_ ->]. right. now exists t.
Qed.

Lemma import_call_not_last_import (p pkg : string) (f : FunctionId)
      (args : list Value) (pre : list Event) :
  [EvImport p; EvCall f args] <> (pre ++ [EvImport pkg])%list.
Proof.
  change [EvImport p; EvCall f args]
    with ([EvImport p] ++ [EvCall f args])%list.
  intros H. apply app_inj_tail in H. destruct H as [_ H]. discriminate.
Qed.

(** When the last interaction of the loop is an import that rejected, the
    loop ends with the report of that failure. *)
Lemma enforceRules_last_import (rules : list Value) (pre : list Event)
      (pkg : string) (reason : Value) :
  trace (enforceRules w msgs commit rules) = (pre ++ [EvImport pkg])%list ->
  importModule w pkg = ImportRejected reason ->
  result (enforceRules w msgs commit rules) =
  failsWith (errorMessage w reason) (loadError msgs pkg).
Proof.
  intros Htrace Hi. revert pre Htrace.
  induction rules as [|spec rest IH]; intros pre.
  - simpl. intros H. now destruct pre.
  - rewrite enforceRules_cons.
    destruct (specEvents_shape spec)
      as [E|[(p & E & c & Hc & Hrej)|(p & f & args & E)]].
    + rewrite E. destruct (turn w msgs commit spec); simpl.
      * intros H. now destruct pre.
      * apply IH.
    + rewrite E, Hc. simpl. intros H.
      destruct pre as [|x pre]; [|now destruct pre].
      injection H as ->. now apply Hrej.
    + rewrite E. destruct (turn w msgs commit spec); simpl trace; simpl result.
      * intros H. now apply import_call_not_last_import in H.
      * intros H.
        apply (app_last_inv [EvImport p; EvCall f args]) in H.
        destruct H as [[_ H]|[pre' H]].
        -- now apply import_call_not_last_import in H.
        -- now apply (IH pre').
Qed.

End TraceFacts.

(** C9.  Whatever condition the rule itself is called with, every call it
    makes is the call of the rule an entry of [rulesToEnforce] resolves to,
    with the arguments [(commit, 'always', entry.value)]; and every entry
    that the loop reaches and resolves is called so. *)
Theorem C9_delegated_rules_are_called_with_always :
  forall (v : Variant) (w : World) (commit when value : Value),
    (forall f args,
        In (EvCall f args) (trace (ignoreForAuthors v w commit when value)) ->
        exists spec pkg rule,
          In spec (rulesOf value) /\ resolvesTo w spec pkg rule f /\
          args = [commit; Str "always"; get spec "value"]) /\
    (forall pre spec post pkg rule f,
        reachesRules v commit when value (pre ++ spec :: post) ->
        Forall (passes w commit) pre ->
        resolvesTo w spec pkg rule f ->
        In (EvCall f [commit; Str "always"; get spec "value"])
           (trace (ignoreForAuthors v w commit when value))).
Proof.
  intros v w commit when value. split.
  - intros f args.
    destruct (ignoreForAuthors_shape v w commit when value)
      as [[-> _]|[_ ->]]; [intros []|].
    apply enforceRules_calls.
  - intros pre spec post pkg rule f Hreach Hpre Hres.
    rewrite (ignoreForAuthors_reaches v w commit when value _ Hreach)
      by (now destruct pre).
    rewrite (enforceRules_app w _ commit pre (spec :: post) Hpre).
    rewrite trace_pair. apply in_or_app. right.
    destruct (trace_enforceRules_cons w (messagesOf v) commit spec post)
      as (tail & -> & _).
    rewrite (resolvesTo_specEvents w commit _ _ _ _ Hres).
    right. left. reflexivity.
Qed.

Lemma C9_witness :
  (exists spec pkg rule,
      In spec [Sample.headerRule; Sample.typeEnumRule] /\
      resolvesTo Sample.world spec pkg rule Sample.typeEnum /\
      [Sample.humanCommit; Str "always"; Array [Str "feat"]]
      = [Sample.humanCommit; Str "always"; get spec "value"]) /\
  In (EvCall Sample.headerMaxLength
             [Sample.humanCommit; Str "always"; Number 50])
     (trace (ignoreForAuthors Substring Sample.world Sample.humanCommit
               (Str "sometimes")
               (Sample.options Substring []
                               [Sample.headerRule; Sample.typeEnumRule]))).
Proof.
  destruct (C9_delegated_rules_are_called_with_always
              Substring Sample.world Sample.humanCommit (Str "sometimes")
              (Sample.options Substring []
                              [Sample.headerRule; Sample.typeEnumRule]))
    as [Hcalls Hlive].
  split.
  - apply Hcalls. right. right. right. left. reflexivity.
  - apply (Hlive [] Sample.headerRule [Sample.typeEnumRule]
                 "@commitlint/rules" "header-max-length").
    + solve_reaches.
    + constructor.
    + split; [reflexivity|]. eexists. split; reflexivity.
Defined.

(** C1, as it stands, does not hold: the [try] block of the loop covers the
    import and the lookup, not the invocation, and what follows the [try]
    block or stands in its [catch] clause is not protected either.  A
    delegated rule that throws, one that returns a value that cannot be
    destructured, one that fails with a message that cannot be turned into
    text, and an import rejected with a reason that cannot be turned into
    text make the promise of the rule reject. *)
Lemma C1_counterexample :
  result (ignoreForAuthors Trailer Sample.world Sample.humanCommit
            (Str "always")
            (Sample.options Trailer [] [Sample.throwingRule]))
  = Throw (Error "Error" "boom") /\
  result (ignoreForAuthors Substring Sample.world Sample.humanCommit
            (Str "always")
            (Sample.options Substring []
               [Sample.rule "@commitlint/rules" "malformed" Null]))
  = Throw (typeError "outcome is not iterable") /\
  result (ignoreForAuthors Substring Corners.world Corners.commit
            (Str "always")
            (Corners.options [Corners.entry "rules" "unprintable"]))
  = Throw (typeError "Cannot convert object to primitive value") /\
  result (ignoreForAuthors Trailer Corners.world Corners.commit
            (Str "always")
            (Corners.options [Corners.entry "broken" "any-rule"]))
  = Throw (typeError "Cannot convert object to primitive value").
Proof. repeat split. Qed.

(** C1, amended.  For a commit that is an object, whatever the condition
    and the options:
    - a rejected import is caught: when the last interaction of the rule
      is an import that rejected, the rule fulfils with the failing outcome
      "Error loading plugin package '<packageName>': <text>", [<text>]
      being the message of the [Error] the import rejected with, or the
      text of a reason that is no [Error];
    - the promise of the rule rejects in three ways only: its last
      interaction is the invocation of a delegated rule that let the
      exception out (the rule threw, its promise rejected, or its answer
      cannot be destructured); or it is the invocation of a delegated rule
      that failed with a message whose conversion to text raised the
      exception; or it is an import rejected with a reason, no [Error],
      whose conversion to text raised the exception;
    - and none of these exceptions is caught: when the loop reaches an
      entry at which one of them arises, the promise of the rule rejects
      with it. *)
Theorem C1_exceptions_escape_outside_the_try_block :
  forall (v : Variant) (w : World) (commit when value : Value),
    isNullish commit = false ->
    (forall pre pkg reason,
        trace (ignoreForAuthors v w commit when value)
        = (pre ++ [EvImport pkg])%list ->
        importModule w pkg = ImportRejected reason ->
        (forall name message,
            reason = Error name message ->
            result (ignoreForAuthors v w commit when value)
            = Normal (outcome false
                        (loadErrorHead v ++ pkg ++ "': " ++ message))) /\
        (forall text,
            reason = Str text ->
            result (ignoreForAuthors v w commit when value)
            = Normal (outcome false
                        (loadErrorHead v ++ pkg ++ "': " ++ text))) /\
        (forall text,
            (forall name message, reason <> Error name message) ->
            toString w reason = Returned text ->
            result (ignoreForAuthors v w commit when value)
            = Normal (outcome false
                        (loadErrorHead v ++ pkg ++ "': " ++ text)))) /\
    (forall e,
        result (ignoreForAuthors v w commit when value) = Throw e ->
        exists pre,
          (exists f args,
              trace (ignoreForAuthors v w commit when value)
              = (pre ++ [EvCall f args])%list /\
              (escapes w f args e \/ unprintable w f args e)) \/
          (exists pkg,
              trace (ignoreForAuthors v w commit when value)
              = (pre ++ [EvImport pkg])%list /\
              unreportable w pkg e)) /\
    (forall pre spec post pkg rule f e,
        reachesRules v commit when value (pre ++ spec :: post) ->
        Forall (passes w commit) pre ->
        resolvesTo w spec pkg rule f ->
        escapes w f [commit; Str "always"; get spec "value"] e \/
        unprintable w f [commit; Str "always"; get spec "value"] e ->
        result (ignoreForAuthors v w commit when value) = Throw e) /\
    (forall pre spec post pkg rule e,
        reachesRules v commit when value (pre ++ spec :: post) ->
        Forall (passes w commit) pre ->
        get spec "packageName" = Str pkg ->
        get spec "ruleName" = Str rule ->
        unreportable w pkg e ->
        result (ignoreForAuthors v w commit when value) = Throw e).
Proof.
  intros v w commit when value Hc. split; [|split; [|split]].
  - intros pre pkg reason Htrace Hi.
    assert (H : result (ignoreForAuthors v w commit when value)
                = failsWith (errorMessage w reason)
                            (loadError (messagesOf v) pkg)).
    { revert Htrace.
      destruct (ignoreForAuthors_shape v w commit when value)
        as [[-> _]|[_ ->]]; [intros H; now destruct pre|].
      intros Htrace. now apply enforceRules_last_import with (pre := pre). }
    rewrite H. split; [|split].
    + intros name message ->. simpl. now rewrite loadError_eq.
    + intros text ->. simpl. now rewrite loadError_eq.
    + intros text Hno Ht. rewrite (errorMessage_other w reason Hno), Ht.
      simpl. now rewrite loadError_eq.
  - intros e.
    destruct (ignoreForAuthors_shape v w commit when value)
      as [[_ H]|[_ ->]].
    + intros He. apply H in He. congruence.
    + apply enforceRules_throw.
  - intros pre spec post pkg rule f e Hreach Hpre Hres Hesc.
    rewrite (ignoreForAuthors_reaches v w commit when value _ Hreach)
      by (now destruct pre).
    rewrite (enforceRules_app w _ commit pre (spec :: post) Hpre).
    rewrite result_pair, enforceRules_cons.
    destruct Hesc as [Hesc|Hesc].
    + now rewrite (escapes_turn w (messagesOf v) commit _ _ _ _ _ Hres Hesc).
    + now rewrite (unprintable_turn w (messagesOf v) commit _ _ _ _ _
                     Hres Hesc).
  - intros pre spec post pkg rule e Hreach Hpre Hp Hr Hun.
    assert (Hv : validRuleConfig spec = Some (pkg, rule))
      by (apply validRuleConfig_some; repeat split; trivial;
          now apply (has_packageName_truthy spec pkg)).
    rewrite (ignoreForAuthors_reaches v w commit when value _ Hreach)
      by (now destruct pre).
    rewrite (enforceRules_app w _ commit pre (spec :: post) Hpre).
    rewrite result_pair, enforceRules_cons.
    now rewrite (unreportable_turn w (messagesOf v) commit _ _ _ _ Hv Hun).
Qed.

Lemma C1_witness :
  result (ignoreForAuthors Trailer Sample.world Sample.humanCommit
            (Str "always")
            (Sample.options Trailer []
               [Sample.headerRule; Sample.rule "no-such-package" "any" Null]))
  = Normal (outcome false
              "Error loading plugin package 'no-such-package': Cannot find package 'no-such-package'") /\
  (exists pre,
      (exists f args,
          trace (ignoreForAuthors Trailer Sample.world Sample.humanCommit
                   (Str "always")
                   (Sample.options Trailer [] [Sample.throwingRule]))
          = (pre ++ [EvCall f args])%list /\
          (escapes Sample.world f args (Error "Error" "boom") \/
           unprintable Sample.world f args (Error "Error" "boom"))) \/
      (exists pkg,
          trace (ignoreForAuthors Trailer Sample.world Sample.humanCommit
                   (Str "always")
                   (Sample.options Trailer [] [Sample.throwingRule]))
          = (pre ++ [EvImport pkg])%list /\
          unreportable Sample.world pkg (Error "Error" "boom"))) /\
  result (ignoreForAuthors Substring Sample.world Sample.humanCommit
            (Str "always")
            (Sample.options Substring []
               [Sample.headerRule; Sample.throwingRule; Sample.typeEnumRule]))
  = Throw (Error "Error" "boom") /\
  result (ignoreForAuthors Substring Corners.world Corners.commit
            (Str "always")
            (Corners.options [Corners.entry "rules" "unprintable"]))
  = Throw cannotConvert /\
  result (ignoreForAuthors Trailer Corners.world Corners.commit
            (Str "always")
            (Corners.options [Corners.entry "broken" "any-rule"]))
  = Throw cannotConvert.
Proof.
  split; [|split; [|split; [|split]]].
  - destruct (C1_exceptions_escape_outside_the_try_block
                Trailer Sample.world Sample.humanCommit (Str "always")
                (Sample.options Trailer []
                   [Sample.headerRule;
                    Sample.rule "no-such-package" "any" Null])
                eq_refl) as (Hload & _ & _).
    refine (proj1 (Hload [EvImport "@commitlint/rules";
                          EvCall Sample.headerMaxLength
                                 [Sample.humanCommit; Str "always"; Number 50]]
                         "no-such-package"
                         (Error "Error" "Cannot find package 'no-such-package'")
                         eq_refl eq_refl) _ _ eq_refl).
  - destruct (C1_exceptions_escape_outside_the_try_block
                Trailer Sample.world Sample.humanCommit (Str "always")
                (Sample.options Trailer [] [Sample.throwingRule])
                eq_refl) as (_ & Hthrow & _).
    apply Hthrow. reflexivity.
  - destruct (C1_exceptions_escape_outside_the_try_block
                Substring Sample.world Sample.humanCommit (Str "always")
                (Sample.options Substring []
                   [Sample.headerRule; Sample.throwingRule;
                    Sample.typeEnumRule])
                eq_refl) as (_ & _ & Hesc & _).
    apply (Hesc [Sample.headerRule] Sample.throwingRule [Sample.typeEnumRule]
                "@commitlint/rules" "throwing" Sample.throwing).
    + solve_reaches.
    + constructor; [solve_passes | constructor].
    + split; [reflexivity|]. eexists. split; reflexivity.
    + left. left. reflexivity.
  - destruct (C1_exceptions_escape_outside_the_try_block
                Substring Corners.world Corners.commit (Str "always")
                (Corners.options [Corners.entry "rules" "unprintable"])
                eq_refl) as (_ & _ & Hesc & _).
    apply (Hesc [] (Corners.entry "rules" "unprintable") []
                "rules" "unprintable" Corners.unprintable).
    + solve_reaches.
    + constructor.
    + split; [reflexivity|]. eexists. split; reflexivity.
    + right. exists (Array [Boolean false; Corners.opaque]),
        (Boolean false), Corners.opaque. repeat split.
  - destruct (C1_exceptions_escape_outside_the_try_block
                Trailer Corners.world Corners.commit (Str "always")
                (Corners.options [Corners.entry "broken" "any-rule"])
                eq_refl) as (_ & _ & _ & Hun).
    apply (Hun [] (Corners.entry "broken" "any-rule") [] "broken" "any-rule").
    + solve_reaches.
    + constructor.
    + reflexivity.
    + reflexivity.
    + exists Corners.opaque. split; [reflexivity|].
      split; [discriminate | reflexivity].
Defined.


(** ** The bypass *)

Section Bypass.

Variable v : Variant.
Variable w : World.
Variables commit when value : Value.

(** The bypass as the source performs it: the first pattern that matches,
    in the order of the list, ends the rule with a passing outcome that
    names it, provided that pattern is not the empty string.  Nothing is
    loaded or invoked. *)
Lemma bypass_on_nonempty_first_match (raw : string) (items : list Value)
      (before after : list string) (matched : string) :
  enabled when ->
  isNullish commit = false ->
  get commit "raw" = Str raw ->
  get (optionsOf value) (patternsField v) = Array items ->
  allStrings items = Some (before ++ matched :: after)%list ->
  (forall p, In p before -> patternMatches v raw p = false) ->
  patternMatches v raw matched = true ->
  matched <> EmptyString ->
  ignoreForAuthors v w commit when value =
  ([], Normal (outcome true (bypassed v matched))).
Proof.
  intros He Hc Hraw Hp Hall Hbefore Hm Hne.
  rewrite (ignoreForAuthors_enabled v w commit when value He),
    (member_defined _ _ Hc).
  unfold bind, ret. rewrite Hraw, Hp.
  rewrite (checkPatterns_strings v raw items _ Hall).
  assert (Hfind : find (patternMatches v raw) (before ++ matched :: after)
                  = Some matched).
  { apply find_first. now exists before, after. }
  rewrite Hfind. simpl.
  now rewrite (proj2 (String.eqb_neq matched EmptyString) Hne).
Qed.

(** An empty pattern that no matching pattern precedes switches the bypass
    off, whatever follows it in the list. *)
Lemma empty_pattern_falls_through (raw : string) (items : list Value)
      (before after : list string) :
  allStrings items = Some (before ++ EmptyString :: after)%list ->
  (forall p, In p before -> patternMatches v raw p = false) ->
  checkPatterns v raw (Array items) = None.
Proof.
  intros Hall Hbefore.
  rewrite (checkPatterns_strings v raw items _ Hall).
  destruct (patternMatches v raw EmptyString) eqn:Hm.
  - assert (Hfind : find (patternMatches v raw)
                         (before ++ EmptyString :: after) = Some EmptyString).
    { apply find_first. now exists before, after. }
    now rewrite Hfind.
  - destruct (find (patternMatches v raw) (before ++ EmptyString :: after))
      as [p|] eqn:Hfind; [|reflexivity].
    destruct (String.eqb_spec p EmptyString) as [->|Hp];
      [simpl; reflexivity|].
    exfalso. apply find_first in Hfind.
    destruct Hfind as (l1 & l2 & Hl & Hpm & _).
    destruct v; simpl in Hm, Hpm.
    + now rewrite TextFacts.includes_empty in Hm.
    + rewrite existsb_exists in Hpm. destruct Hpm as (t & Ht & _).
      assert (Hex : existsb (fun a => Text.includes a EmptyString)
                            (TrailerVariant.extractSignOffs raw) = true).
      { apply existsb_exists. exists t.
        split; [exact Ht | apply TextFacts.includes_empty]. }
      congruence.
Qed.

(** Without a sign-off there is no bypass in the version keyed on
    trailers. *)
Lemma no_sign_off_no_bypass (raw : string) (items : list Value)
      (patterns : list string) :
  allStrings items = Some patterns ->
  TrailerVariant.extractSignOffs raw = [] ->
  checkPatterns Trailer raw (Array items) = None.
Proof.
  intros Hall Hex. rewrite (checkPatterns_strings Trailer raw items _ Hall).
  unfold patternMatches. rewrite Hex. simpl.
  now rewrite (proj2 (find_none_iff (fun _ => false) patterns)).
Qed.

End Bypass.

(** C2.  The rule at the failing input: the pattern list is
    ['', 'dependabot[bot]'] and the commit names dependabot[bot], in its
    text and in its sign-off.  The pattern 'dependabot[bot]' matches, yet
    [find] returns the empty pattern before it, which the test
    [if (matchedPattern)] takes for no match: the rule goes on to
    [rulesToEnforce], loads the package, invokes the rule and fails. *)
Theorem C2_empty_pattern_hides_a_match :
  forall v : Variant,
    patternMatches v ("fix(deps): update by dependabot[bot]" ++ Sample.lf
                      ++ Sample.lf
                      ++ "Signed-off-by: dependabot[bot] <support@github.com>")
                   "dependabot[bot]" = true /\
    ignoreForAuthors v Sample.world Sample.botCommit (Str "always")
      (Sample.options v [EmptyString; "dependabot[bot]"] [Sample.typeEnumRule])
    = ([EvImport "@commitlint/rules";
        EvCall Sample.typeEnum
               [Sample.botCommit; Str "always"; Array [Str "feat"]]],
       Normal (outcome false
                 (viaPrefix v ++ "@commitlint/rules/type-enum] type invalid"))).
Proof. intros []; split; reflexivity. Qed.

(** C10.  An empty pattern is contained in every text, and still it never
    bypasses: on the list [''] the pattern block falls through for every
    raw text, in both versions, and the rule goes on to [rulesToEnforce]. *)
Theorem C10_empty_pattern_does_not_bypass :
  forall (v : Variant) (raw : string),
    Text.includes raw EmptyString = true /\
    checkPatterns v raw (Array [Str EmptyString]) = None /\
    ignoreForAuthors v Sample.world Sample.botCommit (Str "always")
      (Sample.options v [EmptyString] [Sample.typeEnumRule])
    = ([EvImport "@commitlint/rules";
        EvCall Sample.typeEnum
               [Sample.botCommit; Str "always"; Array [Str "feat"]]],
       Normal (outcome false
                 (viaPrefix v ++ "@commitlint/rules/type-enum] type invalid"))).
Proof.
  intros v raw. split; [apply TextFacts.includes_empty|]. split.
  - apply (empty_pattern_falls_through v raw [Str EmptyString] [] []);
      [reflexivity | intros p []].
  - destruct v; reflexivity.
Qed.

(** C3.  The rule at the failing input: the commit has an empty
    [Signed-off-by:] line, followed by a line that mentions the bot.  Line
    by line the only sign-off is empty, and the line that holds the pattern
    is no [Signed-off-by:] line; the regular expression of the source lets
    its white-space run pass the line terminator and captures the next
    line, so the commit is bypassed. *)
Theorem C3_sign_off_taken_from_the_next_line :
  TrailerSpec.splitLines Sample.blankSignOffRaw
  = ["chore: bump deps"; EmptyString; "Signed-off-by:";
     "dependabot[bot] opened this"] /\
  TrailerSpec.signOffsByLine Sample.blankSignOffRaw = [EmptyString] /\
  TrailerSpec.signOffOfLine "dependabot[bot] opened this" = None /\
  TrailerVariant.extractSignOffs Sample.blankSignOffRaw
  = ["dependabot[bot] opened this"] /\
  ignoreForAuthors Trailer Sample.world (Sample.commit Sample.blankSignOffRaw)
    (Str "always")
    (Sample.options Trailer ["dependabot[bot]"] [Sample.typeEnumRule])
  = ([], Normal (outcome true (bypassed Trailer "dependabot[bot]"))).
Proof. repeat split. Qed.

(** ** The sign-offs the source extracts, against the lines of the text *)

Module TrailerFacts.

Import Text TextFacts TrailerVariant TrailerSpec.

#[local] Arguments isLineTerminator : simpl never.
#[local] Arguments isSpace : simpl never.
#[local] Arguments toLower : simpl never.

Lemma length_append (a b : string) :
  String.length (a ++ b) = String.length a + String.length b.
Proof. induction a as [|c a IH]; simpl; [reflexivity | now rewrite IH]. Qed.

(** Only a line terminator agrees with a line terminator up to case. *)
Lemma toLower_terminator (a t : ascii) :
  isLineTerminator t = true -> toLower a = toLower t ->
  isLineTerminator a = true.
Proof.
  destruct t as [[] [] [] [] [] [] [] []]; intros Ht; try discriminate Ht;
    destruct a as [[] [] [] [] [] [] [] []]; intros H; try discriminate H;
    reflexivity.
Qed.

(** The literal consumed from a line is consumed from any text that begins
    with the line. *)
Lemma stripPrefix_app (lit line value s : string) :
  stripPrefixIgnoreCase lit line = Some value ->
  stripPrefixIgnoreCase lit (line ++ s) = Some (value ++ s).
Proof.
  revert line. induction lit as [|a lit IH]; intros line; simpl.
  - now intros [= ->].
  - destruct line as [|b line]; [discriminate|]. simpl.
    destruct (Ascii.eqb (toLower a) (toLower b)); [apply IH | discriminate].
Qed.

Lemma stripPrefix_length (lit line value : string) :
  stripPrefixIgnoreCase lit line = Some value ->
  String.length line = String.length lit + String.length value.
Proof.
  revert line. induction lit as [|a lit IH]; intros line; simpl.
  - now intros [= ->].
  - destruct line as [|b line]; [discriminate|]. simpl.
    destruct (Ascii.eqb (toLower a) (toLower b)); [|discriminate].
    intros H. now rewrite (IH _ H).
Qed.

Lemma stripPrefix_noTerminator (lit line value : string) :
  stripPrefixIgnoreCase lit line = Some value ->
  noTerminator line = true -> noTerminator value = true.
Proof.
  revert line. induction lit as [|a lit IH]; intros line; simpl.
  - now intros [= ->].
  - destruct line as [|b line]; [discriminate|]. simpl.
    destruct (Ascii.eqb (toLower a) (toLower b)); [|discriminate].
    intros H Hn. apply andb_true_iff in Hn. now apply (IH _ H).
Qed.

(** A line that does not begin with the literal: no match at its head,
    whatever follows the line. *)
Lemma stripPrefix_none_app (lit line s : string) :
  noTerminator lit = true ->
  atLineEnd s = true ->
  stripPrefixIgnoreCase lit line = None ->
  stripPrefixIgnoreCase lit (line ++ s) = None.
Proof.
  intros Hlit Hs. revert line Hlit.
  induction lit as [|a lit IH]; intros line Hlit.
  - destruct line; discriminate.
  - simpl in Hlit. apply andb_true_iff in Hlit. destruct Hlit as [Ha Hlit].
    destruct line as [|b line].
    + intros _. destruct s as [|t rest]; [reflexivity|]. simpl in *.
      destruct (Ascii.eqb (toLower a) (toLower t)) eqn:E; [|reflexivity].
      apply Ascii.eqb_eq in E. apply (toLower_terminator _ _ Hs) in E.
      rewrite E in Ha. discriminate.
    + simpl. destruct (Ascii.eqb (toLower a) (toLower b));
        [now apply IH | reflexivity].
Qed.

Lemma span_snd (f : ascii -> bool) (s : string) :
  snd (span f s) = dropWhile f s.
Proof.
  induction s as [|c s IH]; simpl; [reflexivity|].
  destruct (f c); [|reflexivity]. now destruct (span f s).
Qed.

Lemma span_parts (f : ascii -> bool) (s : string) :
  s = fst (span f s) ++ snd (span f s).
Proof.
  induction s as [|c s IH]; simpl; [reflexivity|].
  destruct (f c); [|reflexivity].
  destruct (span f s) as [a b]. simpl in *. now rewrite <- IH.
Qed.

(** The run stops inside [a]: what follows [a] does not change it. *)
Lemma span_app (f : ascii -> bool) (a s : string) :
  dropWhile f a <> EmptyString ->
  span f (a ++ s) = (fst (span f a), dropWhile f a ++ s).
Proof.
  induction a as [|c a IH]; simpl; [congruence|].
  destruct (f c); [|reflexivity].
  intros H. rewrite (IH H). now destruct (span f a).
Qed.

(** The group is the rest of the line. *)
Lemma span_line (g s : string) :
  noTerminator g = true -> atLineEnd s = true ->
  span (fun c => negb (isLineTerminator c)) (g ++ s) = (g, s).
Proof.
  intros Hg Hs. induction g as [|c g IH]; simpl.
  - destruct s as [|t rest]; [reflexivity|]. simpl in *. now rewrite Hs.
  - simpl in Hg. apply andb_true_iff in Hg. destruct Hg as [Hc Hg].
    now rewrite Hc, (IH Hg).
Qed.

Lemma dropWhile_idem (f : ascii -> bool) (s : string) :
  dropWhile f (dropWhile f s) = dropWhile f s.
Proof.
  induction s as [|c s IH]; simpl; [reflexivity|].
  destruct (f c) eqn:E; [exact IH|]. simpl. now rewrite E.
Qed.

Lemma dropWhile_noTerminator (f : ascii -> bool) (s : string) :
  noTerminator s = true -> noTerminator (dropWhile f s) = true.
Proof.
  induction s as [|c s IH]; simpl; [reflexivity|].
  intros H. destruct (f c); [|exact H].
  apply andb_true_iff in H. now apply IH.
Qed.

Lemma trim_dropWhile (s : string) : trim (dropWhile isSpace s) = trim s.
Proof. unfold trim. now rewrite dropWhile_idem. Qed.

Lemma trim_blank (s : string) :
  dropWhile isSpace s = EmptyString -> trim s = EmptyString.
Proof. unfold trim. now intros ->. Qed.

Lemma matchSignOffAt_none (line s : string) :
  atLineEnd s = true ->
  stripPrefixIgnoreCase "Signed-off-by:" line = None ->
  matchSignOffAt (line ++ s) = None.
Proof.
  intros Hs H. unfold matchSignOffAt.
  now rewrite (stripPrefix_none_app "Signed-off-by:" _ _ eq_refl Hs H).
Qed.

(** On a [Signed-off-by:] line whose value is not blank, the match covers
    the line and nothing else, and its group is the value without the white
    space in front of it. *)
Lemma matchSignOffAt_line (line value s : string) :
  noTerminator line = true -> atLineEnd s = true ->
  stripPrefixIgnoreCase "Signed-off-by:" line = Some value ->
  trim value <> EmptyString ->
  matchSignOffAt (line ++ s)
  = Some (dropWhile isSpace value, String.length line).
Proof.
  intros Hline Hs Hstrip Hval. unfold matchSignOffAt.
  rewrite (stripPrefix_app _ _ _ s Hstrip).
  assert (Hg : dropWhile isSpace value <> EmptyString)
    by (intros E; now apply Hval, trim_blank).
  rewrite (span_app isSpace value s Hg).
  rewrite span_line; [|apply dropWhile_noTerminator;
                       now apply (stripPrefix_noTerminator _ _ _ Hstrip)
                      |exact Hs].
  f_equal. f_equal.
  rewrite (stripPrefix_length _ _ _ Hstrip).
  rewrite (span_parts isSpace value) at 3.
  now rewrite length_append, span_snd, Nat.add_assoc.
Qed.

(** Off the start of a line the loop runs to the end of the line. *)
Lemma scan_rest_of_line (line s : string) :
  noTerminator line = true ->
  scanSignOffs 0 false (line ++ s) = scanSignOffs 0 false s.
Proof.
  induction line as [|c line IH]; simpl; [reflexivity|].
  intros H. apply andb_true_iff in H. destruct H as [Hc H].
  apply negb_true_iff in Hc. now rewrite Hc, (IH H).
Qed.

Lemma scan_line_end (b : bool) (s : string) :
  atLineEnd s = true -> scanSignOffs 0 b s = scanNextLine s.
Proof.
  destruct s as [|t rest]; [reflexivity|]. simpl. intros Ht.
  change (String t rest) with (EmptyString ++ String t rest).
  rewrite (matchSignOffAt_none EmptyString (String t rest)) by auto.
  rewrite Ht. now destruct b.
Qed.

(** With [lastIndex] at the end of the line, the loop resumes there. *)
Lemma scan_skip_line (line s : string) (b : bool) :
  atLineEnd s = true ->
  scanSignOffs (String.length line) b (line ++ s) = scanNextLine s.
Proof.
  intros Hs. revert b. induction line as [|c line IH]; intros b.
  - now apply scan_line_end.
  - simpl. apply IH.
Qed.

(** One line of the text, at its start. *)
Lemma scan_line (line s : string) :
  noTerminator line = true -> atLineEnd s = true ->
  signOffOfLine line <> Some EmptyString ->
  scanSignOffs 0 true (line ++ s) = (signOffsOfLine line ++ scanNextLine s)%list.
Proof.
  intros Hline Hs Hval. destruct line as [|c line].
  - now apply scan_line_end.
  - unfold signOffsOfLine, signOffOfLine in *.
    change (scanSignOffs 0 true (String c line ++ s))
      with (match matchSignOffAt (String c line ++ s) with
            | Some (group, len) =>
                trim group
                :: scanSignOffs (Nat.pred len) (isLineTerminator c) (line ++ s)
            | None => scanSignOffs 0 (isLineTerminator c) (line ++ s)
            end).
    pose proof Hline as Hc. simpl in Hc. apply andb_true_iff in Hc.
    destruct Hc as [Hc Hrest]. apply negb_true_iff in Hc.
    destruct (stripPrefixIgnoreCase "Signed-off-by:" (String c line))
      as [value|] eqn:Hstrip.
    + rewrite (matchSignOffAt_line _ _ _ Hline Hs Hstrip)
        by (intros E; apply Hval; now rewrite E).
      rewrite trim_dropWhile. simpl Nat.pred.
      now rewrite scan_skip_line.
    + rewrite (matchSignOffAt_none _ _ Hs Hstrip), Hc.
      rewrite (scan_rest_of_line _ _ Hrest). now apply scan_line_end.
Qed.

(** A text is its first line and, after a terminator, the rest. *)
Lemma first_line (raw : string) :
  exists line s,
    raw = line ++ s /\ noTerminator line = true /\ atLineEnd s = true.
Proof.
  induction raw as [|c raw (line & s & -> & Hl & Hs)].
  - now exists EmptyString, EmptyString.
  - destruct (isLineTerminator c) eqn:Hc.
    + now exists EmptyString, (String c (line ++ s)).
    + exists (String c line), s. simpl. now rewrite Hc.
Qed.

Lemma splitLines_app (line s : string) :
  noTerminator line = true -> atLineEnd s = true ->
  splitLines (line ++ s)
  = line :: match s with
            | EmptyString => []
            | String _ rest => splitLines rest
            end.
Proof.
  intros Hl Hs. induction line as [|c line IH]; simpl.
  - destruct s as [|t rest]; [reflexivity|]. simpl in *. now rewrite Hs.
  - simpl in Hl. apply andb_true_iff in Hl. destruct Hl as [Hc Hl].
    apply negb_true_iff in Hc. now rewrite Hc, (IH Hl).
Qed.

(** When no [Signed-off-by:] line has a blank value, the sign-offs the
    source extracts are the sign-offs of the lines of the text. *)
Theorem extractSignOffs_by_line (raw : string) :
  noBlankSignOff raw -> extractSignOffs raw = signOffsByLine raw.
Proof.
  unfold extractSignOffs, signOffsByLine, noBlankSignOff.
  remember (String.length raw) as n eqn:Hn.
  assert (Hle : String.length raw <= n) by lia. clear Hn.
  revert raw Hle. induction n as [|n IH]; intros raw Hle Hall;
    destruct (first_line raw) as (line & s & -> & Hl & Hs);
    rewrite (splitLines_app _ _ Hl Hs) in *;
    inversion Hall as [|x l Hline Hrest]; subst;
    rewrite (scan_line _ _ Hl Hs Hline); simpl flat_map; f_equal;
    destruct s as [|t rest]; try reflexivity;
    rewrite length_append in Hle; simpl in Hle; [lia|].
  apply IH; [lia | exact Hrest].
Qed.

End TrailerFacts.

Section TrailerMatch.

Import TrailerSpec.

(** In the version keyed on trailers, a pattern that is not empty bypasses
    the commit exactly when it occurs in one of the extracted sign-offs. *)
Lemma trailer_bypass_iff (raw pattern : string) :
  pattern <> EmptyString ->
  checkPatterns Trailer raw (Array [Str pattern])
  = Some (outcome true (bypassed Trailer pattern)) <->
  exists value,
    In value (TrailerVariant.extractSignOffs raw) /\
    Text.includes value pattern = true.
Proof.
  intros Hne.
  rewrite (checkPatterns_strings Trailer raw [Str pattern] [pattern] eq_refl).
  simpl find. unfold patternMatches.
  rewrite <- existsb_exists.
  destruct (existsb _ (TrailerVariant.extractSignOffs raw)).
  - simpl. rewrite (proj2 (String.eqb_neq pattern EmptyString) Hne). simpl.
    split; reflexivity.
  - split; discriminate.
Qed.

(** When no [Signed-off-by:] line is blank, these are the values of the
    [Signed-off-by:] lines of the text: a pattern that occurs only in other
    lines does not bypass the commit. *)
Lemma trailer_bypass_by_line (raw pattern : string) :
  noBlankSignOff raw ->
  pattern <> EmptyString ->
  checkPatterns Trailer raw (Array [Str pattern])
  = Some (outcome true (bypassed Trailer pattern)) <->
  exists line value,
    In line (splitLines raw) /\ signOffOfLine line = Some value /\
    Text.includes value pattern = true.
Proof.
  intros Hraw Hne. rewrite (trailer_bypass_iff raw pattern Hne).
  rewrite (TrailerFacts.extractSignOffs_by_line raw Hraw).
  unfold signOffsByLine. split.
  - intros (value & Hin & Hinc). apply in_flat_map in Hin.
    destruct Hin as (line & Hline & Hv). exists line, value.
    unfold signOffsOfLine in Hv.
    destruct (signOffOfLine line) as [x|]; [|destruct Hv].
    destruct Hv as [->|[]]. auto.
  - intros (line & value & Hline & Hv & Hinc). exists value.
    split; [|exact Hinc]. apply in_flat_map. exists line.
    split; [exact Hline|]. unfold signOffsOfLine. rewrite Hv. now left.
Qed.

End TrailerMatch.

(** * Further properties of the rule *)

(** ** The ways through the rule *)

Section Ways.

Variable v : Variant.
Variable w : World.
Variables commit when value : Value.

(** The six ways through the rule, in the order of its [return]
    statements. *)
Lemma ignoreForAuthors_ways :
  (strictEqualsString (conditionOf when) "never" = true /\
   ignoreForAuthors v w commit when value = ret (outcome true EmptyString)) \/
  (enabled when /\ isNullish commit = true /\
   exists e, ignoreForAuthors v w commit when value = throw e) \/
  (enabled when /\ isNullish commit = false /\
   isString (get commit "raw") = false /\
   ignoreForAuthors v w commit when value
   = ret (outcome false (rawInvalid v))) \/
  (enabled when /\ isNullish commit = false /\
   exists raw o,
     get commit "raw" = Str raw /\
     checkPatterns v raw (get (optionsOf value) (patternsField v)) = Some o /\
     ignoreForAuthors v w commit when value = ret o) \/
  (enabled when /\ fallsThrough v commit value /\ rulesOf value = [] /\
   ignoreForAuthors v w commit when value = ret (outcome true (noRules v))) \/
  (reachesRules v commit when value (rulesOf value) /\ rulesOf value <> [] /\
   ignoreForAuthors v w commit when value
   = enforceRules w (messagesOf v) commit (rulesOf value)).
Proof.
  destruct (strictEqualsString (conditionOf when) "never") eqn:Hw.
  { left. split; [reflexivity|]. now apply ignoreForAuthors_disabled. }
  right. rewrite (ignoreForAuthors_enabled v w commit when value Hw).
  unfold member. destruct (isNullish commit) eqn:Hc.
  { left. split; [exact Hw|]. split; [reflexivity|]. eexists. reflexivity. }
  right. unfold bind, ret.
  destruct (get commit "raw") as [| |b|z|raw|l|o|n m|f] eqn:Hraw;
    try (left; split; [exact Hw|]; split; [reflexivity|];
         split; reflexivity).
  right.
  destruct (checkPatterns v raw (get (optionsOf value) (patternsField v)))
    as [o|] eqn:Hp.
  { left. split; [exact Hw|]. split; [reflexivity|]. exists raw, o. auto. }
  right.
  assert (Hf : fallsThrough v commit value).
  { split; [exact Hc|]. exists raw. auto. }
  unfold enforcePhase, rulesOf, reachesRules.
  destruct (get (optionsOf value) "rulesToEnforce")
    as [| |b|z|s|rules|o|n m|f] eqn:Hr;
    try (left; split; [exact Hw|]; split; [exact Hf|];
         split; reflexivity).
  destruct rules as [|r rules].
  { left. split; [exact Hw|]. split; [exact Hf|]. split; reflexivity. }
  right. split; [split; [exact Hw|]; split; [exact Hf | reflexivity]|].
  split; [discriminate|].
  simpl Nat.eqb. cbv iota.
  now destruct (enforceRules w (messagesOf v) commit (r :: rules)).
Qed.

End Ways.
(** ** The loop, entry by entry *)

Section LoopOutcomes.

Variable w : World.
Variable msgs : Messages.
Variable commit : Value.

Lemma loopFailure_cons (spec : Value) (rest : list Value) (m : string) :
  loopFailure msgs rest m -> loopFailure msgs (spec :: rest) m.
Proof.
  intros [H|(s & pkg & rule & Hin & Hv & H)]; [now left|].
  right. exists s, pkg, rule. split; [now right | now split].
Qed.

(** A turn that ends the rule with a value ends it with a failing tuple. *)
Lemma turn_normal (spec o : Value) :
  turn w msgs commit spec = Some (Normal o) ->
  exists m, o = outcome false m /\ loopFailure msgs [spec] m.
Proof.
  unfold turn, loopFailure.
  destruct (validRuleConfig spec) as [[pkg rule]|] eqn:Hv.
  - assert (Hhere : forall m,
               (exists err, m = loadError msgs pkg err) \/
               m = ruleNotFound msgs pkg rule \/
               (exists text, m = delegatedFailure msgs pkg rule text) ->
               exists m', outcome false m = outcome false m' /\
                          (m' = invalidRuleConfig msgs \/
                           exists spec' pkg' rule',
                             In spec' [spec] /\
                             validRuleConfig spec' = Some (pkg', rule') /\
                             ((exists err, m' = loadError msgs pkg' err) \/
                              m' = ruleNotFound msgs pkg' rule' \/
                              exists text,
                                m' = delegatedFailure msgs pkg' rule' text))).
    { intros m H. exists m. split; [reflexivity|]. right.
      exists spec, pkg, rule. split; [now left | now split]. }
    destruct (importModule w pkg) as [exports|reason|]; try discriminate.
    + destruct (lookupRule w (Object exports) rule);
        try (intros [= <-]; apply Hhere; right; left; reflexivity).
      destruct (settle (callFunction w f (ruleArgs commit spec)));
        try discriminate.
      destruct (result (destructurePair a)) as [[isValid message]|e|];
        try discriminate.
      destruct (truthy isValid); [discriminate|].
      destruct (toString w message) as [text|e]; [|discriminate].
      intros [= <-]. apply Hhere. right. right. eexists. reflexivity.
    + destruct (errorMessage w reason) as [text|e]; [|discriminate].
      intros [= <-]. apply Hhere. left. eexists. reflexivity.
  - intros [= <-]. eexists. split; [reflexivity | now left].
Qed.

(** A turn that never ends stands at an interaction that never settles. *)
Lemma turn_pending (spec : Value) :
  turn w msgs commit spec = Some Pending ->
  exists pre ev,
    specEvents w commit spec = (pre ++ [ev])%list /\ neverSettles w ev.
Proof.
  unfold turn, specEvents.
  destruct (validRuleConfig spec) as [[pkg rule]|]; [|discriminate].
  destruct (importModule w pkg) as [exports|reason|] eqn:Hi; try discriminate.
  - destruct (lookupRule w (Object exports) rule); try discriminate.
    destruct (callFunction w f (ruleArgs commit spec)) as [o|x|o|x|] eqn:Hc;
      simpl; try discriminate.
    + destruct (result (destructurePair o)) as [[a b]|x|] eqn:Hd;
        try discriminate;
        [destruct (truthy a); [discriminate|];
         now destruct (toString w b)|].
      destruct o; discriminate.
    + destruct (result (destructurePair o)) as [[a b]|x|] eqn:Hd;
        try discriminate;
        [destruct (truthy a); [discriminate|];
         now destruct (toString w b)|].
      destruct o; discriminate.
    + intros _. exists [EvImport pkg], (EvCall f (ruleArgs commit spec)).
      split; [reflexivity | exact Hc].
  - now destruct (errorMessage w reason).
  - intros _. exists [], (EvImport pkg). split; [reflexivity | exact Hi].
Qed.

(** The loop fulfils either with the message that all entries passed, after
    every entry passed, or with a failing tuple. *)
Lemma enforceRules_normal (rules : list Value) (o : Value) :
  result (enforceRules w msgs commit rules) = Normal o ->
  (o = outcome true (allPassed msgs) /\ Forall (passes w commit) rules /\
   trace (enforceRules w msgs commit rules)
   = flat_map (specEvents w commit) rules) \/
  (exists m, o = outcome false m /\ loopFailure msgs rules m).
Proof.
  revert o. induction rules as [|spec rest IH]; intros o.
  - simpl. intros [= <-]. left. repeat split. constructor.
  - rewrite enforceRules_cons.
    destruct (turn w msgs commit spec) as [c|] eqn:Hturn.
    + rewrite result_pair. intros ->. right.
      destruct (turn_normal _ _ Hturn) as (m & -> & Hm). exists m.
      split; [reflexivity|].
      destruct Hm as [Hm|(s & pkg & rule & Hin & Hv & H)]; [now left|].
      right. exists s, pkg, rule.
      split; [destruct Hin as [<-|[]]; now left | now split].
    + rewrite result_pair, trace_pair. intros H.
      destruct (IH o H) as [(-> & Hall & Ht)|(m & -> & Hm)].
      * left. split; [reflexivity|]. split.
        -- constructor; [now apply (turn_passes w msgs) | exact Hall].
        -- simpl. now rewrite Ht.
      * right. exists m. split; [reflexivity | now apply loopFailure_cons].
Qed.

Lemma enforceRules_pending (rules : list Value) :
  result (enforceRules w msgs commit rules) = Pending ->
  exists pre ev,
    trace (enforceRules w msgs commit rules) = (pre ++ [ev])%list /\
    neverSettles w ev.
Proof.
  induction rules as [|spec rest IH]; [discriminate|].
  rewrite enforceRules_cons.
  destruct (turn w msgs commit spec) as [c|] eqn:Hturn.
  - rewrite result_pair, trace_pair. intros ->. now apply turn_pending.
  - rewrite result_pair, trace_pair. intros H.
    destruct (IH H) as (pre & ev & -> & Hev).
    exists (specEvents w commit spec ++ pre)%list, ev.
    now rewrite app_assoc.
Qed.

(** The loop visits an initial segment of the list, entry by entry. *)
Lemma enforceRules_segment (rules : list Value) :
  exists n,
    n <= List.length rules /\
    trace (enforceRules w msgs commit rules)
    = flat_map (specEvents w commit) (firstn n rules).
Proof.
  induction rules as [|spec rest (n & Hn & IH)].
  - exists 0. split; [lia | reflexivity].
  - rewrite enforceRules_cons.
    destruct (turn w msgs commit spec).
    + exists 1. split; [simpl; lia|]. simpl. now rewrite app_nil_r.
    + exists (S n). split; [simpl; lia|]. simpl. now rewrite IH.
Qed.

End LoopOutcomes.

Section LoopMessages.

Variable w : World.
Variable commit : Value.

(** The texts of the messages have no influence on what the loop does. *)
Lemma enforceRules_messages (msgs msgs' : Messages) (rules : list Value) :
  trace (enforceRules w msgs commit rules)
  = trace (enforceRules w msgs' commit rules) /\
  verdict (result (enforceRules w msgs commit rules))
  = verdict (result (enforceRules w msgs' commit rules)).
Proof.
  induction rules as [|spec rest [IHt IHr]]; [split; reflexivity|].
  rewrite !enforceRules_cons. unfold turn.
  destruct (validRuleConfig spec) as [[pkg rule]|]; [|split; reflexivity].
  destruct (importModule w pkg) as [exports|reason|]; try (split; reflexivity);
    [|now destruct (errorMessage w reason)].
  destruct (lookupRule w (Object exports) rule); try (split; reflexivity).
  destruct (settle (callFunction w f (ruleArgs commit spec)));
    try (split; reflexivity).
  destruct (result (destructurePair a)) as [[isValid message]|e|];
    try (split; reflexivity).
  destruct (truthy isValid); [|now destruct (toString w message)].
  rewrite !trace_pair, !result_pair. split; [now rewrite IHt | exact IHr].
Qed.

End LoopMessages.

(** ** The pattern block *)

Section PatternBlock.

Variable v : Variant.

(** What the pattern block returns, when it returns: the configuration
    error of a list with an entry that is not a string, or the bypass that
    names the first pattern that matches, a pattern that is not empty. *)
Lemma checkPatterns_some (raw : string) (patterns o : Value) :
  checkPatterns v raw patterns = Some o ->
  exists items,
    patterns = Array items /\
    ((allStrings items = None /\ o = outcome false (patternsInvalid v)) \/
     exists before pattern after,
       allStrings items = Some (before ++ pattern :: after)%list /\
       (forall q, In q before -> patternMatches v raw q = false) /\
       patternMatches v raw pattern = true /\
       pattern <> EmptyString /\
       o = outcome true (bypassed v pattern)).
Proof.
  destruct patterns as [| |b|z|s|items|ob|n m|f];
    try (rewrite checkPatterns_not_array by congruence; discriminate).
  intros H. exists items. split; [reflexivity|].
  destruct (allStrings items) as [l|] eqn:Hall.
  - right. rewrite (checkPatterns_strings v raw items l Hall) in H.
    destruct (find (patternMatches v raw) l) as [p|] eqn:Hfind;
      [|discriminate].
    apply find_first in Hfind. destruct Hfind as (l1 & l2 & -> & Hp & Hl1).
    simpl in H. destruct (String.eqb_spec p EmptyString) as [->|Hne];
      [discriminate|].
    simpl in H. injection H as <-. now exists l1, p, l2.
  - left. rewrite (checkPatterns_not_strings v raw items Hall) in H.
    injection H as <-. auto.
Qed.

Lemma checkPatterns_empty (raw : string) (patterns : Value) :
  (forall items, patterns = Array items -> items = []) ->
  checkPatterns v raw patterns = None.
Proof.
  intros H. destruct (checkPatterns v raw patterns) as [o|] eqn:E;
    [|reflexivity].
  destruct (checkPatterns_some _ _ _ E) as (items & -> & Hcases).
  rewrite (H items eq_refl) in Hcases.
  destruct Hcases as [[Hn _]|(b & p & a & Hs & _)]; [discriminate|].
  simpl in Hs. injection Hs as Hs. now destruct b.
Qed.

End PatternBlock.

(** ** Outcomes of the rule *)

(** X1.  When the loop is reached and every entry of [rulesToEnforce] is
    resolved, invoked and passes, the rule passes with the message that all
    configured rules passed, after importing and invoking the entries one by
    one in the order of the list. *)
Theorem X1_all_entries_pass :
  forall (v : Variant) (w : World) (commit when value : Value)
         (rules : list Value),
    reachesRules v commit when value rules ->
    rules <> [] ->
    Forall (passes w commit) rules ->
    ignoreForAuthors v w commit when value =
    (flat_map (specEvents w commit) rules,
     Normal (outcome true (allPassed (messagesOf v)))) /\
    Text.includes (allPassed (messagesOf v)) "passed for this author." = true.
Proof.
  intros v w commit when value rules Hreach Hne Hall. split.
  - rewrite (ignoreForAuthors_reaches v w commit when value _ Hreach Hne).
    rewrite <- (app_nil_r rules) at 1.
    rewrite (enforceRules_app w _ commit rules [] Hall).
    simpl. now rewrite app_nil_r.
  - destruct v; reflexivity.
Qed.

Lemma X1_witness :
  ignoreForAuthors Substring Sample.world Sample.humanCommit (Str "always")
    (Sample.options Substring ["non-matching-bot"]
                    [Sample.headerRule; Sample.headerRule])
  = ([EvImport "@commitlint/rules";
      EvCall Sample.headerMaxLength
             [Sample.humanCommit; Str "always"; Number 50];
      EvImport "@commitlint/rules";
      EvCall Sample.headerMaxLength
             [Sample.humanCommit; Str "always"; Number 50]],
     Normal (outcome true (allPassed (messagesOf Substring)))).
Proof.
  apply (X1_all_entries_pass Substring Sample.world Sample.humanCommit
           (Str "always")
           (Sample.options Substring ["non-matching-bot"]
                           [Sample.headerRule; Sample.headerRule])
           [Sample.headerRule; Sample.headerRule]).
  - solve_reaches.
  - discriminate.
  - repeat constructor; solve_passes.
Defined.

(** X2.  The rule passes in four ways only: it is switched off with
    ['never'] (empty message); a pattern of the list that is not empty
    matches and no pattern before it does (the message names that pattern);
    there is nothing to enforce ([rulesToEnforce] is absent, no array or
    empty); or [rulesToEnforce] is not empty and every entry of it was
    resolved, invoked and passed. *)
Theorem X2_passes_in_four_ways :
  forall (v : Variant) (w : World) (commit when value : Value) (m : string),
    result (ignoreForAuthors v w commit when value)
    = Normal (outcome true m) ->
    (strictEqualsString (conditionOf when) "never" = true /\
     m = EmptyString) \/
    (exists raw items before pattern after,
        get commit "raw" = Str raw /\
        get (optionsOf value) (patternsField v) = Array items /\
        allStrings items = Some (before ++ pattern :: after)%list /\
        (forall q, In q before -> patternMatches v raw q = false) /\
        patternMatches v raw pattern = true /\
        pattern <> EmptyString /\
        m = bypassed v pattern) \/
    (rulesOf value = [] /\ m = noRules v) \/
    (rulesOf value <> [] /\ Forall (passes w commit) (rulesOf value) /\
     m = allPassed (messagesOf v)).
Proof.
  intros v w commit when value m.
  destruct (ignoreForAuthors_ways v w commit when value)
    as [(Hn & ->)|[(_ & _ & e & ->)|[(_ & _ & _ & ->)|[(_ & _ & raw & o & Hraw & Hp & ->)
       |[(_ & _ & Hr & ->)|(_ & Hne & ->)]]]]].
  - intros [= <-]. now left.
  - discriminate.
  - discriminate.
  - intros [= ->]. right. left.
    destruct (checkPatterns_some v _ _ _ Hp)
      as (items & Hitems & [[_ H]|(b & p & a & Hall & Hb & Hm & Hne & H)]);
      [discriminate|].
    injection H as ->. now exists raw, items, b, p, a.
  - intros [= <-]. right. right. now left.
  - intros H. right. right. right.
    destruct (enforceRules_normal w _ commit _ _ H)
      as [(Ho & Hall & _)|(m' & Ho & _)]; [|discriminate].
    injection Ho as ->. auto.
Qed.

Lemma X2_witness :
  (rulesOf (Sample.options Trailer ["non-matching-bot"] [Sample.headerRule])
   <> [] /\
   Forall (passes Sample.world Sample.humanCommit)
          (rulesOf (Sample.options Trailer ["non-matching-bot"]
                                   [Sample.headerRule]))).
Proof.
  destruct (X2_passes_in_four_ways Trailer Sample.world Sample.humanCommit
              (Str "always")
              (Sample.options Trailer ["non-matching-bot"] [Sample.headerRule])
              (allPassed (messagesOf Trailer)) eq_refl)
    as [[H _]|[(raw & items & b & p & a & _ & _ & _ & _ & _ & _ & H)
              |[[H _]|(Hne & Hall & _)]]]; try discriminate.
  now split.
Defined.

(** X3.  Whenever the promise of the rule fulfils, it fulfils with a tuple
    of a boolean and a string, whatever the delegated rules answered; and a
    failing tuple that comes out of the loop carries one of its four
    messages, about an entry of the list. *)
Theorem X3_fulfils_with_a_tuple :
  forall (v : Variant) (w : World) (commit when value o : Value),
    result (ignoreForAuthors v w commit when value) = Normal o ->
    exists passed message,
      o = outcome passed message /\
      (passed = false ->
       message = rawInvalid v \/ message = patternsInvalid v \/
       loopFailure (messagesOf v) (rulesOf value) message).
Proof.
  intros v w commit when value o.
  destruct (ignoreForAuthors_ways v w commit when value)
    as [(_ & ->)|[(_ & _ & e & ->)|[(_ & _ & _ & ->)|[(_ & _ & raw & p & Hraw & Hp & ->)
       |[(_ & _ & _ & ->)|(_ & _ & ->)]]]]].
  - intros [= <-]. exists true, EmptyString. split; [reflexivity|discriminate].
  - discriminate.
  - intros [= <-]. exists false, (rawInvalid v). auto.
  - intros [= <-].
    destruct (checkPatterns_some v _ _ _ Hp)
      as (items & _ & [[_ ->]|(b & q & a & _ & _ & _ & _ & ->)]).
    + exists false, (patternsInvalid v). auto.
    + exists true, (bypassed v q). split; [reflexivity|discriminate].
  - intros [= <-]. exists true, (noRules v). split; [reflexivity|discriminate].
  - intros H.
    destruct (enforceRules_normal w _ commit _ _ H)
      as [(-> & _)|(m & -> & Hm)].
    + eexists true, _. split; [reflexivity|discriminate].
    + exists false, m. auto.
Qed.

Lemma X3_witness :
  exists passed message,
    outcome false "[via @commitlint/rules/type-enum] type invalid"
    = outcome passed message /\
    (passed = false ->
     message = rawInvalid Trailer \/ message = patternsInvalid Trailer \/
     loopFailure (messagesOf Trailer)
                 (rulesOf (Sample.options Trailer [] [Sample.typeEnumRule]))
                 message).
Proof.
  apply (X3_fulfils_with_a_tuple Trailer Sample.world Sample.humanCommit
           (Str "always") (Sample.options Trailer [] [Sample.typeEnumRule])).
  reflexivity.
Defined.

(** X4.  The condition is compared with ['never'] and with nothing else:
    every other condition, the default of an omitted one included, makes
    the rule do what it does with ['always']. *)
Theorem X4_only_never_switches_the_rule_off :
  forall (v : Variant) (w : World) (commit when value : Value),
    enabled when ->
    ignoreForAuthors v w commit when value
    = ignoreForAuthors v w commit (Str "always") value.
Proof.
  intros v w commit when value He.
  rewrite (ignoreForAuthors_enabled v w commit when value He).
  now rewrite (ignoreForAuthors_enabled v w commit (Str "always") value).
Qed.

Lemma X4_witness :
  ignoreForAuthors Trailer Sample.world Sample.botCommit Undefined
    (Sample.options Trailer ["dependabot[bot]"] [Sample.typeEnumRule])
  = ignoreForAuthors Trailer Sample.world Sample.botCommit (Str "always")
      (Sample.options Trailer ["dependabot[bot]"] [Sample.typeEnumRule]) /\
  ignoreForAuthors Substring Sample.world Sample.humanCommit (Number 2)
    (Sample.options Substring [] [Sample.typeEnumRule])
  = ignoreForAuthors Substring Sample.world Sample.humanCommit (Str "always")
      (Sample.options Substring [] [Sample.typeEnumRule]).
Proof.
  split; apply X4_only_never_switches_the_rule_off; reflexivity.
Defined.

(** X5.  The pattern option counts only when it is an array that is not
    empty.  When it is absent, when it is something else than an array (a
    single string, say), when it is the empty array, and when the options
    as a whole are missing, the rule does what it does with options that
    hold [rulesToEnforce] alone. *)
Theorem X5_pattern_option_counts_only_as_nonempty_array :
  forall (v : Variant) (w : World) (commit when value : Value),
    (forall items,
        get (optionsOf value) (patternsField v) = Array items ->
        items = []) ->
    ignoreForAuthors v w commit when value
    = ignoreForAuthors v w commit when
        (Object [("rulesToEnforce", get (optionsOf value) "rulesToEnforce")]).
Proof.
  intros v w commit when value Hp.
  destruct (strictEqualsString (conditionOf when) "never") eqn:Hw.
  - now rewrite !ignoreForAuthors_disabled.
  - rewrite !(ignoreForAuthors_enabled v w commit when _ Hw).
    unfold member. destruct (isNullish commit); [reflexivity|].
    unfold bind, ret. destruct (get commit "raw"); try reflexivity.
    rewrite (checkPatterns_empty v s _ Hp).
    rewrite (checkPatterns_empty v s
               (get (optionsOf (Object [("rulesToEnforce", _)]))
                    (patternsField v)))
      by (destruct v; discriminate).
    reflexivity.
Qed.

Lemma X5_witness :
  ignoreForAuthors Substring Sample.world Sample.botCommit (Str "always")
    (Object [("ignoreAuthorPatterns", Str "dependabot[bot]");
             ("rulesToEnforce", Array [Sample.typeEnumRule])])
  = ignoreForAuthors Substring Sample.world Sample.botCommit (Str "always")
      (Object [("rulesToEnforce", Array [Sample.typeEnumRule])]) /\
  ignoreForAuthors Trailer Sample.world Sample.botCommit (Str "always") Null
  = ignoreForAuthors Trailer Sample.world Sample.botCommit (Str "always")
      (Object [("rulesToEnforce", Undefined)]).
Proof.
  split.
  - apply (X5_pattern_option_counts_only_as_nonempty_array Substring
             Sample.world Sample.botCommit (Str "always")
             (Object [("ignoreAuthorPatterns", Str "dependabot[bot]");
                      ("rulesToEnforce", Array [Sample.typeEnumRule])])).
    intros items H. discriminate H.
  - apply (X5_pattern_option_counts_only_as_nonempty_array Trailer
             Sample.world Sample.botCommit (Str "always") Null).
    intros items H. discriminate H.
Defined.

(** X6.  A commit that is [null] or [undefined] makes the promise of the
    rule reject with a [TypeError], before any package is loaded, unless
    the rule is switched off with ['never']. *)
Theorem X6_missing_commit_rejects :
  forall (v : Variant) (w : World) (commit when value : Value),
    enabled when ->
    isNullish commit = true ->
    exists text,
      ignoreForAuthors v w commit when value
      = ([], Throw (Error "TypeError" text)).
Proof.
  intros v w commit when value He Hc.
  rewrite (ignoreForAuthors_enabled v w commit when value He).
  unfold member. rewrite Hc. eexists. reflexivity.
Qed.

Lemma X6_witness :
  exists text,
    ignoreForAuthors Substring Sample.world Undefined (Str "always")
      (Sample.options Substring [] [Sample.typeEnumRule])
    = ([], Throw (Error "TypeError" text)).
Proof.
  apply X6_missing_commit_rejects; reflexivity.
Defined.

(** X7.  Nothing is imported and nothing is invoked before the loop: when
    the rule had any interaction with the world, the rule was enabled, the
    commit had a string [raw], the pattern block let it through, and
    [rulesToEnforce] was an array that is not empty. *)
Theorem X7_nothing_is_loaded_before_the_loop :
  forall (v : Variant) (w : World) (commit when value : Value),
    trace (ignoreForAuthors v w commit when value) <> [] ->
    reachesRules v commit when value (rulesOf value) /\ rulesOf value <> [].
Proof.
  intros v w commit when value.
  destruct (ignoreForAuthors_ways v w commit when value)
    as [(_ & ->)|[(_ & _ & e & ->)|[(_ & _ & _ & ->)|[(_ & _ & raw & p & _ & _ & ->)
       |[(_ & _ & _ & ->)|(Hreach & Hne & _)]]]]];
    try (intros H; now destruct H).
  auto.
Qed.

Lemma X7_witness :
  reachesRules Trailer Sample.humanCommit (Str "always")
    (Sample.options Trailer [] [Sample.typeEnumRule])
    (rulesOf (Sample.options Trailer [] [Sample.typeEnumRule])) /\
  rulesOf (Sample.options Trailer [] [Sample.typeEnumRule]) <> [].
Proof.
  apply (X7_nothing_is_loaded_before_the_loop Trailer Sample.world).
  discriminate.
Defined.

(** X8.  The interactions of the rule follow the list: the trace is made
    of the turns of an initial segment of [rulesToEnforce], in the order of
    the list.  Each entry imports its package anew, also when an earlier
    entry named the same package, and a call stands right after the import
    of its entry. *)
Theorem X8_trace_follows_the_list :
  forall (v : Variant) (w : World) (commit when value : Value),
    exists n,
      n <= List.length (rulesOf value) /\
      trace (ignoreForAuthors v w commit when value)
      = flat_map (specEvents w commit) (firstn n (rulesOf value)).
Proof.
  intros v w commit when value.
  destruct (ignoreForAuthors_ways v w commit when value)
    as [(_ & ->)|[(_ & _ & e & ->)|[(_ & _ & _ & ->)|[(_ & _ & raw & p & _ & _ & ->)
       |[(_ & _ & _ & ->)|(_ & _ & ->)]]]]];
    try (exists 0; split; [lia | reflexivity]).
  apply enforceRules_segment.
Qed.

(** X9.  The rule has no time-out of its own and no hang of its own: its
    promise stays pending only when its last interaction, an import or the
    call of a delegated rule, never settles; and when the loop reaches an
    entry whose import never settles, the promise of the rule stays pending
    and the entries after it are not looked at. *)
Theorem X9_pending_only_with_the_world :
  forall (v : Variant) (w : World) (commit when value : Value),
    (result (ignoreForAuthors v w commit when value) = Pending ->
     exists pre ev,
       trace (ignoreForAuthors v w commit when value) = (pre ++ [ev])%list /\
       neverSettles w ev) /\
    (forall pre spec post pkg rule,
        reachesRules v commit when value (pre ++ spec :: post) ->
        Forall (passes w commit) pre ->
        validRuleConfig spec = Some (pkg, rule) ->
        importModule w pkg = ImportPending ->
        ignoreForAuthors v w commit when value
        = ((flat_map (specEvents w commit) pre ++ [EvImport pkg])%list,
           Pending)).
Proof.
  intros v w commit when value. split.
  - destruct (ignoreForAuthors_ways v w commit when value)
      as [(_ & ->)|[(_ & _ & e & ->)|[(_ & _ & _ & ->)|[(_ & _ & raw & p & _ & _ & ->)
         |[(_ & _ & _ & ->)|(_ & _ & ->)]]]]]; try discriminate.
    apply enforceRules_pending.
  - intros pre spec post pkg rule Hreach Hpre Hv Hi.
    rewrite (ignoreForAuthors_reaches v w commit when value _ Hreach)
      by (now destruct pre).
    rewrite (enforceRules_app w _ commit pre (spec :: post) Hpre).
    rewrite enforceRules_cons. unfold turn, specEvents. now rewrite Hv, Hi.
Qed.

Lemma X9_witness :
  (exists pre ev,
      trace (ignoreForAuthors Trailer Shapes.world Shapes.commit (Str "always")
               (Shapes.options [Shapes.entry "wrapped" "hangs"]))
      = (pre ++ [ev])%list /\
      neverSettles Shapes.world ev) /\
  ignoreForAuthors Substring Shapes.world Shapes.commit (Str "always")
    (Shapes.options [Shapes.entry "wrapped" "r"; Shapes.entry "slow" "r";
                     Shapes.entry "wrapped" "r"])
  = ([EvImport "wrapped";
      EvCall Shapes.passing [Shapes.commit; Str "always"; Undefined];
      EvImport "slow"], Pending).
Proof.
  split.
  - apply (X9_pending_only_with_the_world Trailer Shapes.world Shapes.commit
             (Str "always") (Shapes.options [Shapes.entry "wrapped" "hangs"])).
    reflexivity.
  - apply (proj2 (X9_pending_only_with_the_world Substring Shapes.world
                    Shapes.commit (Str "always")
                    (Shapes.options [Shapes.entry "wrapped" "r";
                                     Shapes.entry "slow" "r";
                                     Shapes.entry "wrapped" "r"]))
                 [Shapes.entry "wrapped" "r"] (Shapes.entry "slow" "r")
                 [Shapes.entry "wrapped" "r"] "slow" "r").
    + solve_reaches.
    + constructor; [solve_passes | constructor].
    + reflexivity.
    + reflexivity.
Defined.

(** ** Where the catalogue is found *)

Section Catalogue.

Variable w : World.

Lemma isNonNullObject_truthy (x : Value) :
  isNonNullObject x = true -> truthy x = true.
Proof. destruct x; try discriminate; reflexivity. Qed.

Lemma rules_object_owner (d : Value) :
  isNonNullObject (get d "rules") = true -> isNonNullObject d = true.
Proof. destruct d; try discriminate; reflexivity. Qed.

(** The rule a loaded module yields, by the place of its catalogue. *)
Lemma lookupRule_tiers (m : Value) (rule : string) :
  lookupRule w m rule =
  if isNonNullObject (get (get m "default") "rules")
  then property w (get (get m "default") "rules") rule
  else if isNonNullObject (get m "default")
       then property w (get m "default") rule
       else if isNonNullObject (get m "rules")
            then property w (get m "rules") rule
            else Undefined.
Proof.
  unfold lookupRule, rulesCatalogOf.
  destruct (isNonNullObject (get (get m "default") "rules")) eqn:H1.
  - rewrite (isNonNullObject_truthy _ (rules_object_owner _ H1)).
    rewrite !(isNonNullObject_truthy _ H1). simpl.
    now rewrite (isNonNullObject_truthy _ H1).
  - destruct (isNonNullObject (get m "default")) eqn:H2.
    + rewrite !(isNonNullObject_truthy _ H2). simpl.
      now rewrite (isNonNullObject_truthy _ H2).
    + assert (E : (if truthy (get m "default") then Undefined else Undefined)
                  = Undefined) by (now destruct (truthy _)).
      rewrite E. simpl.
      destruct (isNonNullObject (get m "rules")) eqn:H3; [|reflexivity].
      now rewrite (isNonNullObject_truthy _ H3).
Qed.

(** A key that an object owns is answered by the object. *)
Lemma property_own (x : Value) (k : string) :
  hasOwn x k = true -> property w x k = get x k.
Proof. unfold property. now intros ->. Qed.

(** A key that an object does not own is answered by its prototype
    chain. *)
Lemma property_inherited (x : Value) (k : string) :
  hasOwn x k = false -> property w x k = inheritedMember w x k.
Proof. unfold property. now intros ->. Qed.

End Catalogue.

(** X10.  The rule of an entry is looked up in exactly one place of the
    loaded module, the first of three that is an object: the [rules] of the
    default export; else the default export itself; else the named export
    [rules].  The entry resolves to a callable exactly when that place
    yields a function under the rule name, be it a property of its own or
    one that its prototype chain hands down. *)
Theorem X10_catalogue_is_found_in_three_places :
  forall (w : World) (spec : Value) (pkg rule : string)
         (exports : list (string * Value)) (f : FunctionId),
    validRuleConfig spec = Some (pkg, rule) ->
    importModule w pkg = ImportFulfilled exports ->
    (resolvesTo w spec pkg rule f <->
     (isNonNullObject (get (get (Object exports) "default") "rules") = true /\
      property w (get (get (Object exports) "default") "rules") rule
      = Function f) \/
     (isNonNullObject (get (get (Object exports) "default") "rules") = false /\
      isNonNullObject (get (Object exports) "default") = true /\
      property w (get (Object exports) "default") rule = Function f) \/
     (isNonNullObject (get (Object exports) "default") = false /\
      isNonNullObject (get (Object exports) "rules") = true /\
      property w (get (Object exports) "rules") rule = Function f)).
Proof.
  intros w spec pkg rule exports f Hv Hi.
  assert (Hres : resolvesTo w spec pkg rule f
                 <-> lookupRule w (Object exports) rule = Function f).
  { unfold resolvesTo. split.
    - intros (_ & ex & Hi' & Hl). rewrite Hi in Hi'. now injection Hi' as <-.
    - intros Hl. split; [exact Hv|]. now exists exports. }
  rewrite Hres, lookupRule_tiers.
  destruct (isNonNullObject (get (get (Object exports) "default") "rules"))
    eqn:H1.
  - rewrite (rules_object_owner _ H1). split.
    + intros H. left. auto.
    + intros [[_ H]|[(H & _)|(H & _)]]; [exact H | discriminate H
                                          | discriminate H].
  - destruct (isNonNullObject (get (Object exports) "default")) eqn:H2.
    + split.
      * intros H. right. left. auto.
      * intros [[H _]|[(_ & _ & H)|(H & _)]];
          [discriminate H | exact H | discriminate H].
    + destruct (isNonNullObject (get (Object exports) "rules")) eqn:H3.
      * split.
        -- intros H. right. right. auto.
        -- intros [[H _]|[(_ & H & _)|(_ & _ & H)]];
             [discriminate H | discriminate H | exact H].
      * split; [discriminate|].
        intros [[H _]|[(_ & H & _)|(_ & H & _)]]; discriminate H.
Qed.

Lemma X10_witness :
  resolvesTo Shapes.world (Shapes.entry "wrapped" "r") "wrapped" "r"
             Shapes.passing /\
  resolvesTo Shapes.world (Shapes.entry "bare" "r") "bare" "r"
             Shapes.passing /\
  resolvesTo Shapes.world (Shapes.entry "named" "r") "named" "r"
             Shapes.passing /\
  resolvesTo Shapes.world (Shapes.entry "bare" "toString") "bare" "toString"
             Realm.objectToString.
Proof.
  split; [|split; [|split]].
  - apply (X10_catalogue_is_found_in_three_places Shapes.world
             (Shapes.entry "wrapped" "r") "wrapped" "r"
             [("default", Object [("rules", Shapes.catalogue)])]
             Shapes.passing eq_refl eq_refl).
    left. split; reflexivity.
  - apply (X10_catalogue_is_found_in_three_places Shapes.world
             (Shapes.entry "bare" "r") "bare" "r"
             [("default", Shapes.catalogue)] Shapes.passing eq_refl eq_refl).
    right. left. repeat split.
  - apply (X10_catalogue_is_found_in_three_places Shapes.world
             (Shapes.entry "named" "r") "named" "r"
             [("rules", Shapes.catalogue)] Shapes.passing eq_refl eq_refl).
    right. right. repeat split.
  - apply (X10_catalogue_is_found_in_three_places Shapes.world
             (Shapes.entry "bare" "toString") "bare" "toString"
             [("default", Shapes.catalogue)] Realm.objectToString
             eq_refl eq_refl).
    right. left. repeat split.
Defined.

(** X11.  A default export that is an object hides the named export
    [rules]: when the default export has no [rules] object of its own and
    yields no function under the rule name, neither of its own nor from its
    prototype chain, the entry fails with "Rule ... not found or not a
    function in package ...", whatever the named export [rules] of the
    package holds. *)
Theorem X11_default_export_hides_named_rules :
  forall (v : Variant) (w : World) (commit when value : Value)
         (pre post : list Value) (spec : Value) (pkg rule : string)
         (exports : list (string * Value)),
    reachesRules v commit when value (pre ++ spec :: post) ->
    Forall (passes w commit) pre ->
    validRuleConfig spec = Some (pkg, rule) ->
    importModule w pkg = ImportFulfilled exports ->
    isNonNullObject (get (Object exports) "default") = true ->
    isNonNullObject (get (get (Object exports) "default") "rules") = false ->
    typeof (property w (get (Object exports) "default") rule) <> TFunction ->
    ignoreForAuthors v w commit when value =
    ((flat_map (specEvents w commit) pre ++ [EvImport pkg])%list,
     Normal (outcome false (ruleNotFound (messagesOf v) pkg rule))).
Proof.
  intros v w commit when value pre post spec pkg rule exports
         Hreach Hpre Hv Hi Hd Hr Hf.
  rewrite (ignoreForAuthors_reaches v w commit when value _ Hreach)
    by (now destruct pre).
  apply enforceRules_not_found with (exports := exports); auto.
  intros f Hl. rewrite lookupRule_tiers, Hr, Hd in Hl.
  rewrite Hl in Hf. now apply Hf.
Qed.

Lemma X11_witness :
  get (Object [("default", Object [("name", Str "plugin")]);
               ("rules", Shapes.catalogue)]) "rules" = Shapes.catalogue /\
  get Shapes.catalogue "r" = Function Shapes.passing /\
  ignoreForAuthors Trailer Shapes.world Shapes.commit (Str "always")
    (Shapes.options [Shapes.entry "shadowed" "r"])
  = ([EvImport "shadowed"],
     Normal (outcome false
               "Rule 'r' not found or not a function in package 'shadowed'.")).
Proof.
  split; [reflexivity|]. split; [reflexivity|].
  apply (X11_default_export_hides_named_rules Trailer Shapes.world
           Shapes.commit (Str "always")
           (Shapes.options [Shapes.entry "shadowed" "r"])
           [] [] (Shapes.entry "shadowed" "r") "shadowed" "r"
           [("default", Object [("name", Str "plugin")]);
            ("rules", Shapes.catalogue)]).
  - solve_reaches.
  - constructor.
  - reflexivity.
  - reflexivity.
  - reflexivity.
  - reflexivity.
  - discriminate.
Defined.


(** ** The two versions, side by side *)

(** X12.  Past the pattern block the two versions do the same: on a commit
    and options that neither of them bypasses and both let through, they
    import and invoke the same things in the same order, and they end
    alike, with the same flag, the same exception, or both pending.  Only
    the texts of their messages differ. *)
Theorem X12_versions_delegate_alike :
  forall (w : World) (commit when value : Value),
    enabled when ->
    fallsThrough Substring commit value ->
    fallsThrough Trailer commit value ->
    trace (ignoreForAuthors Substring w commit when value)
    = trace (ignoreForAuthors Trailer w commit when value) /\
    verdict (result (ignoreForAuthors Substring w commit when value))
    = verdict (result (ignoreForAuthors Trailer w commit when value)).
Proof.
  intros w commit when value He Hs Ht.
  rewrite (ignoreForAuthors_falls_through Substring w commit when value He Hs).
  rewrite (ignoreForAuthors_falls_through Trailer w commit when value He Ht).
  unfold enforcePhase.
  destruct (get (optionsOf value) "rulesToEnforce"); try (split; reflexivity).
  destruct (List.length items =? 0)%nat; [split; reflexivity|].
  apply enforceRules_messages.
Qed.

Lemma X12_witness :
  trace (ignoreForAuthors Substring Sample.world Sample.humanCommit
           (Str "always")
           (Object [("rulesToEnforce",
                     Array [Sample.headerRule; Sample.typeEnumRule])]))
  = trace (ignoreForAuthors Trailer Sample.world Sample.humanCommit
             (Str "always")
             (Object [("rulesToEnforce",
                       Array [Sample.headerRule; Sample.typeEnumRule])])) /\
  verdict (result (ignoreForAuthors Substring Sample.world Sample.humanCommit
                     (Str "always")
                     (Object [("rulesToEnforce",
                               Array [Sample.headerRule; Sample.typeEnumRule])])))
  = verdict (result (ignoreForAuthors Trailer Sample.world Sample.humanCommit
                       (Str "always")
                       (Object [("rulesToEnforce",
                                 Array [Sample.headerRule;
                                        Sample.typeEnumRule])]))).
Proof.
  apply X12_versions_delegate_alike.
  - reflexivity.
  - split; [reflexivity|]. eexists. split; reflexivity.
  - split; [reflexivity|]. eexists. split; reflexivity.
Defined.



(** ** The plugin object *)

(** X14.  The default export of the package has the shape the rule itself
    looks for first.  When an entry names a package whose module is the one
    of [index.ts], the entry resolves to the rule under the name
    [ignore-for-authors].  Under any other name the lookup yields what the
    [rules] map inherits from its prototype chain, and unless that is a
    function the loop ends at that entry with "Rule ... not found or not a
    function in package ...". *)
Theorem X14_plugin_exports_the_rule_under_its_name :
  forall (v : Variant) (w : World) (commit when value : Value)
         (pre post : list Value) (spec : Value) (pkg rule : string)
         (f : FunctionId),
    reachesRules v commit when value (pre ++ spec :: post) ->
    Forall (passes w commit) pre ->
    validRuleConfig spec = Some (pkg, rule) ->
    importModule w pkg = ImportFulfilled (Plugin.exports f) ->
    (rule = "ignore-for-authors" -> resolvesTo w spec pkg rule f) /\
    (rule <> "ignore-for-authors" ->
     lookupRule w (Object (Plugin.exports f)) rule
     = inheritedMember w (Plugin.rules f) rule /\
     (typeof (inheritedMember w (Plugin.rules f) rule) <> TFunction ->
      ignoreForAuthors v w commit when value =
      ((flat_map (specEvents w commit) pre ++ [EvImport pkg])%list,
       Normal (outcome false (ruleNotFound (messagesOf v) pkg rule))))).
Proof.
  intros v w commit when value pre post spec pkg rule f Hreach Hpre Hv Hi.
  assert (Hl : lookupRule w (Object (Plugin.exports f)) rule
               = if String.eqb rule "ignore-for-authors"
                 then Function f
                 else inheritedMember w (Plugin.rules f) rule).
  { rewrite lookupRule_tiers. simpl. unfold property. simpl.
    now destruct (String.eqb rule "ignore-for-authors"). }
  split.
  - intros ->. split; [exact Hv|]. exists (Plugin.exports f).
    split; [exact Hi | exact Hl].
  - intros Hne.
    rewrite (proj2 (String.eqb_neq rule "ignore-for-authors") Hne) in Hl.
    split; [exact Hl|]. intros Hnot.
    rewrite (ignoreForAuthors_reaches v w commit when value _ Hreach)
      by (now destruct pre).
    apply enforceRules_not_found with (exports := Plugin.exports f); auto.
    intros g Hg. rewrite Hl in Hg. rewrite Hg in Hnot. now apply Hnot.
Qed.

Lemma X14_witness :
  resolvesTo Shapes.world
    (Shapes.entry "@mridang/commitlint-plugin-conditionals"
                  "ignore-for-authors")
    "@mridang/commitlint-plugin-conditionals" "ignore-for-authors" Shapes.own
  /\
  lookupRule Shapes.world (Object (Plugin.exports Shapes.own)) "valueOf"
  = Function Realm.valueOf /\
  ignoreForAuthors Trailer Shapes.world Shapes.commit (Str "always")
    (Shapes.options [Shapes.entry "@mridang/commitlint-plugin-conditionals"
                                  "ignoreForAuthors"])
  = ([EvImport "@mridang/commitlint-plugin-conditionals"],
     Normal (outcome false
               "Rule 'ignoreForAuthors' not found or not a function in package '@mridang/commitlint-plugin-conditionals'.")).
Proof.
  split; [|split].
  - apply (X14_plugin_exports_the_rule_under_its_name Trailer Shapes.world
             Shapes.commit (Str "always")
             (Shapes.options
                [Shapes.entry "@mridang/commitlint-plugin-conditionals"
                              "ignore-for-authors"])
             [] []
             (Shapes.entry "@mridang/commitlint-plugin-conditionals"
                           "ignore-for-authors")
             "@mridang/commitlint-plugin-conditionals" "ignore-for-authors"
             Shapes.own).
    + solve_reaches.
    + constructor.
    + reflexivity.
    + reflexivity.
    + reflexivity.
  - refine (proj1 (proj2 (X14_plugin_exports_the_rule_under_its_name
                            Trailer Shapes.world
                            Shapes.commit (Str "always")
                            (Shapes.options
                               [Shapes.entry
                                  "@mridang/commitlint-plugin-conditionals"
                                  "valueOf"])
                            [] []
                            (Shapes.entry
                               "@mridang/commitlint-plugin-conditionals"
                               "valueOf")
                            "@mridang/commitlint-plugin-conditionals"
                            "valueOf" Shapes.own _ _ eq_refl eq_refl) _)).
    + solve_reaches.
    + constructor.
    + discriminate.
  - refine (proj2 (proj2 (X14_plugin_exports_the_rule_under_its_name
                            Trailer Shapes.world
                            Shapes.commit (Str "always")
                            (Shapes.options
                               [Shapes.entry
                                  "@mridang/commitlint-plugin-conditionals"
                                  "ignoreForAuthors"])
                            [] []
                            (Shapes.entry
                               "@mridang/commitlint-plugin-conditionals"
                               "ignoreForAuthors")
                            "@mridang/commitlint-plugin-conditionals"
                            "ignoreForAuthors" Shapes.own _ _ eq_refl eq_refl)
                         _) _).
    + solve_reaches.
    + constructor.
    + discriminate.
    + discriminate.
Defined.

(** ** The sign-offs the source extracts *)

Module SignOffFacts.

Import Text TextFacts TrailerVariant TrailerSpec TrailerFacts.

#[local] Arguments isLineTerminator : simpl never.
#[local] Arguments isSpace : simpl never.
#[local] Arguments toLower : simpl never.

Lemma rev_append (a b : string) : rev (a ++ b) = rev b ++ rev a.
Proof.
  induction a as [|c a IH]; simpl.
  - now rewrite append_empty_r.
  - now rewrite IH, append_assoc.
Qed.

Lemma rev_involutive (s : string) : rev (rev s) = s.
Proof.
  induction s as [|c s IH]; simpl; [reflexivity|].
  rewrite rev_append. simpl. now rewrite IH.
Qed.

Lemma dropWhile_suffix (f : ascii -> bool) (s : string) :
  exists a, s = a ++ dropWhile f s.
Proof.
  induction s as [|c s [a IH]]; simpl.
  - now exists EmptyString.
  - destruct (f c).
    + exists (String c a). simpl. now rewrite <- IH.
    + now exists EmptyString.
Qed.

Lemma dropWhile_length (f : ascii -> bool) (s : string) :
  String.length (dropWhile f s) <= String.length s.
Proof.
  induction s as [|c s IH]; simpl; [lia|].
  destruct (f c); simpl; lia.
Qed.

(** A prefix of a text that starts with no dropped character starts with
    none either. *)
Lemma dropWhile_fixed_prefix (f : ascii -> bool) (t b : string) :
  dropWhile f (t ++ b) = t ++ b -> dropWhile f t = t.
Proof.
  destruct t as [|c t]; [reflexivity|]. simpl.
  destruct (f c); [|reflexivity].
  intros H. pose proof (dropWhile_length f (t ++ b)) as Hlen.
  rewrite H in Hlen. simpl in Hlen. lia.
Qed.

(** A trimmed text is a part of the text. *)
Lemma trim_part (s : string) :
  exists a b, s = a ++ trim s ++ b.
Proof.
  unfold trim.
  destruct (dropWhile_suffix isSpace s) as [a Ha].
  destruct (dropWhile_suffix isSpace (rev (dropWhile isSpace s))) as [c Hc].
  exists a, (rev c). rewrite Ha at 1. f_equal.
  rewrite <- (rev_involutive (dropWhile isSpace s)) at 1.
  rewrite Hc at 1. now rewrite rev_append.
Qed.

Lemma trim_idempotent (s : string) : trim (trim s) = trim s.
Proof.
  unfold trim at 1.
  assert (Hfix : dropWhile isSpace (trim s) = trim s).
  { unfold trim.
    destruct (dropWhile_suffix isSpace (rev (dropWhile isSpace s)))
      as [c Hc].
    apply (dropWhile_fixed_prefix isSpace _ (rev c)).
    rewrite <- rev_append, <- Hc, rev_involutive.
    apply dropWhile_idem. }
  rewrite Hfix. unfold trim. now rewrite rev_involutive, dropWhile_idem.
Qed.

Lemma noTerminator_append (a b : string) :
  noTerminator (a ++ b) = noTerminator a && noTerminator b.
Proof.
  induction a as [|c a IH]; simpl; [reflexivity|].
  now rewrite IH, andb_assoc.
Qed.

Lemma noTerminator_trim (s : string) :
  noTerminator s = true -> noTerminator (trim s) = true.
Proof.
  destruct (trim_part s) as (a & b & H). intros Hs. rewrite H in Hs.
  rewrite !noTerminator_append in Hs.
  apply andb_true_iff in Hs. destruct Hs as [_ Hs].
  apply andb_true_iff in Hs. tauto.
Qed.

Lemma includes_trim (s : string) : includes s (trim s) = true.
Proof. apply includes_iff. apply trim_part. Qed.

Lemma stripPrefix_suffix (lit s value : string) :
  stripPrefixIgnoreCase lit s = Some value -> exists pre, s = pre ++ value.
Proof.
  revert s. induction lit as [|a lit IH]; intros s; simpl.
  - intros [= ->]. now exists EmptyString.
  - destruct s as [|b s]; [discriminate|].
    destruct (Ascii.eqb (toLower a) (toLower b)); [|discriminate].
    intros H. destruct (IH _ H) as [pre ->]. now exists (String b pre).
Qed.

Lemma span_fst_line (s : string) :
  noTerminator (fst (span (fun c => negb (isLineTerminator c)) s)) = true.
Proof.
  induction s as [|c s IH]; simpl; [reflexivity|].
  destruct (isLineTerminator c) eqn:Hc; simpl; [reflexivity|].
  destruct (span _ s). simpl in *. now rewrite Hc.
Qed.

(** The group of a match is a part of the text, within one line. *)
Lemma matchSignOffAt_part (s group : string) (len : nat) :
  matchSignOffAt s = Some (group, len) ->
  includes s group = true /\ noTerminator group = true.
Proof.
  unfold matchSignOffAt.
  destruct (stripPrefixIgnoreCase "Signed-off-by:" s) as [after|] eqn:Hs;
    [|discriminate].
  destruct (stripPrefix_suffix _ _ _ Hs) as [pre ->].
  pose proof (span_parts isSpace after) as Hsp.
  destruct (span isSpace after) as [spaces afterSpaces]. simpl in Hsp.
  pose proof (span_parts (fun c => negb (isLineTerminator c)) afterSpaces)
    as Hg.
  pose proof (span_fst_line afterSpaces) as Hn.
  destruct (span _ afterSpaces) as [g rest]. simpl in Hg, Hn.
  intros [= <- _]. split; [|exact Hn].
  apply includes_iff. exists (pre ++ spaces), rest.
  now rewrite Hsp, Hg, append_assoc.
Qed.

Lemma includes_tail (c : ascii) (s x : string) :
  includes s x = true -> includes (String c s) x = true.
Proof. simpl. intros ->. apply orb_true_r. Qed.

Lemma scan_parts (s : string) :
  forall (skip : nat) (lineStart : bool) (x : string),
    In x (scanSignOffs skip lineStart s) ->
    includes s x = true /\ trim x = x /\ noTerminator x = true.
Proof.
  induction s as [|c s IH]; intros skip lineStart x; [intros []|].
  assert (Hrec : forall k b,
             In x (scanSignOffs k b s) ->
             includes (String c s) x = true /\ trim x = x
             /\ noTerminator x = true).
  { intros k b H. destruct (IH k b x H) as (H1 & H2 & H3).
    split; [now apply includes_tail | now split]. }
  change (scanSignOffs skip lineStart (String c s))
    with (match skip with
          | S skip' => scanSignOffs skip' (isLineTerminator c) s
          | O =>
              match (if lineStart then matchSignOffAt (String c s) else None)
              with
              | Some (group, len) =>
                  trim group
                  :: scanSignOffs (Nat.pred len) (isLineTerminator c) s
              | None => scanSignOffs O (isLineTerminator c) s
              end
          end).
  destruct skip as [|k]; [|apply Hrec].
  destruct (if lineStart then matchSignOffAt (String c s) else None)
    as [[group len]|] eqn:Hm; [|apply Hrec].
  intros [<-|H]; [|now apply Hrec with (k := Nat.pred len)
                                        (b := isLineTerminator c)].
  destruct lineStart; [|discriminate].
  destruct (matchSignOffAt_part _ _ _ Hm) as [Hinc Hn].
  split; [|split].
  - apply includes_trans with (t := group); [exact Hinc | apply includes_trim].
  - apply trim_idempotent.
  - now apply noTerminator_trim.
Qed.

End SignOffFacts.

(** X15.  Every sign-off the source extracts is a part of the raw text,
    lies within one line, and is trimmed: trimming it again changes
    nothing. *)
Theorem X15_sign_offs_are_trimmed_parts_of_the_text :
  forall (raw signOff : string),
    In signOff (TrailerVariant.extractSignOffs raw) ->
    Text.includes raw signOff = true /\
    Text.trim signOff = signOff /\
    Text.noTerminator signOff = true.
Proof. intros raw signOff. apply SignOffFacts.scan_parts. Qed.

Lemma X15_witness :
  Text.includes Sample.blankSignOffRaw "dependabot[bot] opened this" = true /\
  Text.trim "dependabot[bot] opened this" = "dependabot[bot] opened this" /\
  Text.noTerminator "dependabot[bot] opened this" = true.
Proof.
  apply (X15_sign_offs_are_trimmed_parts_of_the_text Sample.blankSignOffRaw).
  left. reflexivity.
Defined.

Section TrailerAgainstSubstring.

Lemma find_not_later {A} (f g : A -> bool) (l : list A) (p q : A) :
  (forall x, g x = true -> f x = true) ->
  find g l = Some p -> find f l = Some q ->
  q = p \/ g q = false.
Proof.
  intros Hgf. induction l as [|a l IH]; simpl; [discriminate|].
  destruct (g a) eqn:Hg.
  - rewrite (Hgf a Hg). intros [= <-] [= <-]. now left.
  - destruct (f a).
    + intros _ [= <-]. now right.
    + exact IH.
Qed.

Lemma trailer_match_is_substring_match (raw pattern : string) :
  patternMatches Trailer raw pattern = true ->
  patternMatches Substring raw pattern = true.
Proof.
  simpl. rewrite existsb_exists. intros (t & Hin & Hinc).
  apply TextFacts.includes_trans with (t := t); [|exact Hinc].
  now apply (SignOffFacts.scan_parts raw 0 true t).
Qed.

End TrailerAgainstSubstring.

(** X16.  The version keyed on trailers is the stricter one: on the same
    raw text and the same list of patterns, whenever its pattern block
    bypasses the commit, the pattern block of the version keyed on
    substrings bypasses it too. *)
Theorem X16_trailer_bypass_is_a_substring_bypass :
  forall (raw : string) (patterns : Value),
    bypasses Trailer raw patterns -> bypasses Substring raw patterns.
Proof.
  intros raw patterns [p H].
  destruct (checkPatterns_some Trailer _ _ _ H)
    as (items & -> & [[_ Ho]|(b & p' & a & Hall & Hb & Hm & Hne & _)]);
    [discriminate|].
  unfold bypasses.
  rewrite (checkPatterns_strings Substring raw items _ Hall).
  assert (Hg : find (patternMatches Trailer raw) (b ++ p' :: a) = Some p').
  { apply find_first. now exists b, a. }
  destruct (find (patternMatches Substring raw) (b ++ p' :: a)) as [q|] eqn:Hf.
  - destruct (find_not_later _ _ _ _ _ (trailer_match_is_substring_match raw)
                             Hg Hf) as [->|Hq].
    + exists p'. simpl.
      now rewrite (proj2 (String.eqb_neq p' EmptyString) Hne).
    + exists q. simpl.
      destruct (String.eqb_spec q EmptyString) as [->|Hqe]; [|reflexivity].
      exfalso. simpl in Hq, Hm.
      rewrite existsb_exists in Hm. destruct Hm as (t & Hin & _).
      assert (He : existsb (fun s => Text.includes s EmptyString)
                           (TrailerVariant.extractSignOffs raw) = true).
      { apply existsb_exists. exists t.
        split; [exact Hin | apply TextFacts.includes_empty]. }
      congruence.
  - exfalso.
    assert (Hp : patternMatches Substring raw p' = false).
    { apply (find_none _ _ Hf). apply in_or_app. right. now left. }
    rewrite (trailer_match_is_substring_match raw p' Hm) in Hp. discriminate.
Qed.

Lemma X16_witness :
  bypasses Substring
    ("fix(deps): update" ++ Sample.lf ++ Sample.lf
     ++ "Signed-off-by: dependabot[bot] <support@github.com>")
    (Array [Str "renovate"; Str "dependabot[bot]"]).
Proof.
  apply X16_trailer_bypass_is_a_substring_bypass.
  exists "dependabot[bot]". reflexivity.
Defined.

Module JoinedTexts.

Import Text TextFacts TrailerVariant TrailerSpec TrailerFacts.

#[local] Arguments isLineTerminator : simpl never.
#[local] Arguments isSpace : simpl never.
#[local] Arguments toLower : simpl never.

Lemma atLineEnd_append (s : string) (t : ascii) (b : string) :
  atLineEnd s = true -> isLineTerminator t = true ->
  atLineEnd (s ++ String t b) = true.
Proof. destruct s; simpl; auto. Qed.

(** The scan of a text that is followed by a line terminator and more
    text: the sign-offs of the text, then those of what follows. *)
Lemma scan_joined (t : ascii) (b : string) :
  isLineTerminator t = true ->
  forall (n : nat) (a : string),
    String.length a <= n ->
    noBlankSignOff a ->
    scanSignOffs 0 true (a ++ String t b)
    = (scanSignOffs 0 true a ++ scanSignOffs 0 true b)%list.
Proof.
  intros Ht. induction n as [|n IH]; intros a Hle Hall;
    destruct (first_line a) as (line & s & -> & Hl & Hs);
    unfold noBlankSignOff in Hall;
    rewrite (splitLines_app _ _ Hl Hs) in Hall;
    inversion Hall as [|x l Hline Hrest]; subst;
    rewrite append_assoc;
    rewrite (scan_line line (s ++ String t b) Hl
                       (atLineEnd_append _ _ _ Hs Ht) Hline);
    rewrite (scan_line line s Hl Hs Hline);
    rewrite <- app_assoc; f_equal;
    rewrite length_append in Hle;
    destruct s as [|c rest]; simpl; try reflexivity;
    simpl in Hle; [lia|].
  apply IH; [lia | exact Hrest].
Qed.

Lemma literal_noTerminator (lit key value : string) :
  stripPrefixIgnoreCase lit key = Some value ->
  noTerminator lit = true -> noTerminator value = true ->
  noTerminator key = true.
Proof.
  revert key. induction lit as [|a lit IH]; intros key; simpl.
  - now intros [= ->].
  - destruct key as [|b key]; [discriminate|].
    destruct (Ascii.eqb (toLower a) (toLower b)) eqn:E; [|discriminate].
    intros H Hlit Hv. apply andb_true_iff in Hlit. destruct Hlit as [Ha Hlit].
    simpl. rewrite (IH _ H Hlit Hv), andb_true_r.
    destruct (isLineTerminator b) eqn:Hb; [|reflexivity].
    apply Ascii.eqb_eq in E. rewrite (toLower_terminator a b Hb E) in Ha.
    discriminate.
Qed.

(** A text that is one [Signed-off-by:] line, the key in any letter case,
    with a value that is not blank. *)
Lemma scan_one_line (key name : string) :
  stripPrefixIgnoreCase "Signed-off-by:" key = Some EmptyString ->
  noTerminator name = true ->
  trim name <> EmptyString ->
  scanSignOffs 0 true (key ++ name) = [trim name].
Proof.
  intros Hkey Hname Hval.
  assert (Hstrip : stripPrefixIgnoreCase "Signed-off-by:" (key ++ name)
                   = Some name)
    by (apply (stripPrefix_app _ _ _ name Hkey)).
  assert (Hsign : signOffOfLine (key ++ name) = Some (trim name))
    by (unfold signOffOfLine; now rewrite Hstrip).
  rewrite <- (append_empty_r (key ++ name)).
  rewrite scan_line.
  - unfold signOffsOfLine. now rewrite Hsign.
  - rewrite SignOffFacts.noTerminator_append, Hname, andb_true_r.
    now apply (literal_noTerminator "Signed-off-by:" key EmptyString).
  - reflexivity.
  - rewrite Hsign. intros [= E]. now apply Hval.
Qed.

End JoinedTexts.

(** X17.  The sign-offs of two texts joined by a line terminator are the
    sign-offs of the first followed by those of the second, provided no
    [Signed-off-by:] line of the first text is blank. *)
Theorem X17_sign_offs_of_joined_texts :
  forall (a b : string) (t : ascii),
    TrailerSpec.noBlankSignOff a ->
    Text.isLineTerminator t = true ->
    TrailerVariant.extractSignOffs (a ++ String t b)
    = (TrailerVariant.extractSignOffs a
       ++ TrailerVariant.extractSignOffs b)%list.
Proof.
  intros a b t Ha Ht. unfold TrailerVariant.extractSignOffs.
  now apply (JoinedTexts.scan_joined t b Ht (String.length a)).
Qed.

Lemma X17_witness :
  TrailerVariant.extractSignOffs
    ("feat: x" ++ String (ascii_of_nat 10) "Signed-off-by: A")
  = (TrailerVariant.extractSignOffs "feat: x"
     ++ TrailerVariant.extractSignOffs "Signed-off-by: A")%list.
Proof.
  apply X17_sign_offs_of_joined_texts; [|reflexivity].
  repeat constructor; discriminate.
Defined.

(** X18.  Appending a [Signed-off-by:] line to a message adds its value
    and nothing else: whatever the letter case of the key, and whatever
    white space stands around the value, the sign-offs of the message with
    the line are those of the message followed by the trimmed value.  The
    message must have no blank [Signed-off-by:] line, and the value must not
    be blank. *)
Theorem X18_appended_line_adds_its_sign_off :
  forall (message key name : string) (t : ascii),
    TrailerSpec.noBlankSignOff message ->
    Text.isLineTerminator t = true ->
    Text.stripPrefixIgnoreCase "Signed-off-by:" key = Some EmptyString ->
    Text.noTerminator name = true ->
    Text.trim name <> EmptyString ->
    TrailerVariant.extractSignOffs (message ++ String t (key ++ name))
    = (TrailerVariant.extractSignOffs message ++ [Text.trim name])%list.
Proof.
  intros message key name t Hm Ht Hk Hn Hv.
  unfold TrailerVariant.extractSignOffs.
  rewrite (JoinedTexts.scan_joined t (key ++ name) Ht
             (String.length message) message (le_n _) Hm).
  now rewrite (JoinedTexts.scan_one_line key name Hk Hn Hv).
Qed.

Lemma X18_witness :
  TrailerVariant.extractSignOffs
    ("fix: y" ++ String (ascii_of_nat 10)
                        ("SIGNED-OFF-BY:" ++ "   Jo <jo@example.com>  "))
  = (TrailerVariant.extractSignOffs "fix: y"
     ++ [Text.trim "   Jo <jo@example.com>  "])%list.
Proof.
  apply X18_appended_line_adds_its_sign_off.
  - repeat constructor; discriminate.
  - reflexivity.
  - reflexivity.
  - reflexivity.
  - discriminate.
Defined.

(** ** The rule on the test bench *)

Section TestBench.

Import TestSupport.

Variable v : Variant.
Variable others : string -> ImportResult.

Lemma testBench_reaches (raw pattern : string) (body maxLength : Value) :
  pattern = EmptyString \/ patternMatches v raw pattern = false ->
  reachesRules v (createCommit (Str raw) body) (Str "always")
    (options v pattern maxLength)
    [bodyMaxLineLengthRuleConfig maxLength].
Proof.
  intros Hno. split; [reflexivity|]. split; [|destruct v; reflexivity].
  split; [reflexivity|]. exists raw. split; [reflexivity|].
  assert (E : get (optionsOf (options v pattern maxLength)) (patternsField v)
              = Array [Str pattern]) by (destruct v; reflexivity).
  rewrite E. destruct Hno as [->|Hno].
  - apply (empty_pattern_falls_through v raw [Str EmptyString] [] []);
      [reflexivity | intros p []].
  - apply noPatternMatches_falls_through.
    exists [pattern]. split; [reflexivity|].
    intros p [<-|[]]. exact Hno.
Qed.

(** What the mocked rule answers on a commit of [createCommit]. *)
Lemma mockBodyMaxLineLength_answer (rawInput body maxLength : Value) :
  exists text,
    mockBodyMaxLineLength
      [createCommit rawInput body; Str "always"; maxLength]
    = if exceeds body maxLength
      then outcome false
             ("Mocked body-max-line-length: A line exceeds "
              ++ primitiveToString maxLength ++ " characters.")
      else outcome true text.
Proof.
  unfold mockBodyMaxLineLength, exceeds, createCommit.
  cbn [nth_error orUndefined truthy get assoc String.eqb Ascii.eqb Bool.eqb].
  destruct body; try (eexists; reflexivity).
  destruct maxLength; try (eexists; reflexivity).
  destruct (Z.leb_spec z 0) as [Hz|Hz].
  - rewrite (proj2 (Z.ltb_ge 0 z)) by lia. eexists. reflexivity.
  - rewrite (proj2 (Z.ltb_lt 0 z)) by lia. cbn [andb primitiveToString].
    destruct (existsb _ (splitLineFeed s));
      [exists EmptyString | eexists]; reflexivity.
Qed.

End TestBench.

(** X19.  The rule on the test bench, with one pattern and the mocked rule
    [body-max-line-length] to enforce, on a commit of [createCommit]: when
    the pattern is not empty and matches, the commit is bypassed and the
    mock is not called, however long the lines of the body are; otherwise,
    that is when the pattern is empty or does not match, the mock is called
    once, with the commit, ['always'] and the configured limit, and the rule
    fails with the message of the mock behind "... via
    @commitlint/rules/body-max-line-length] " exactly when the body is a
    string, the limit a positive number and some line of the body longer
    than the limit, and passes otherwise. *)
Theorem X19_mocked_rule_is_enforced_unless_bypassed :
  forall (v : Variant) (others : string -> ImportResult)
         (raw pattern : string) (body maxLength : Value),
    (pattern <> EmptyString ->
     patternMatches v raw pattern = true ->
     ignoreForAuthors v (TestSupport.world others)
       (TestSupport.createCommit (Str raw) body) (Str "always")
       (TestSupport.options v pattern maxLength)
     = ([], Normal (outcome true (bypassed v pattern)))) /\
    (pattern = EmptyString \/ patternMatches v raw pattern = false ->
     ignoreForAuthors v (TestSupport.world others)
       (TestSupport.createCommit (Str raw) body) (Str "always")
       (TestSupport.options v pattern maxLength)
     = ([EvImport "@commitlint/rules";
         EvCall TestSupport.bodyMaxLineLength
                [TestSupport.createCommit (Str raw) body; Str "always";
                 maxLength]],
        Normal (if TestSupport.exceeds body maxLength
                then outcome false
                       (viaPrefix v
                        ++ "@commitlint/rules/body-max-line-length] Mocked body-max-line-length: A line exceeds "
                        ++ primitiveToString maxLength
                        ++ " characters.")
                else outcome true (allPassed (messagesOf v))))).
Proof.
  intros v others raw pattern body maxLength. split.
  - intros Hne Hm.
    apply (bypass_on_nonempty_first_match v _ _ _ _ raw [Str pattern]
                                          [] [] pattern);
      try reflexivity; auto.
    + destruct v; reflexivity.
    + intros p [].
  - intros Hno.
    rewrite (ignoreForAuthors_reaches v _ _ _ _ _
               (testBench_reaches v raw pattern body maxLength Hno))
      by discriminate.
    rewrite enforceRules_cons. unfold turn, specEvents.
    change (validRuleConfig (TestSupport.bodyMaxLineLengthRuleConfig maxLength))
      with (Some ("@commitlint/rules", "body-max-line-length")).
    cbv iota beta.
    change (importModule (TestSupport.world others) "@commitlint/rules")
      with (ImportFulfilled
              [("__esModule", Boolean true);
               ("default",
                Object [("rules", TestSupport.mockCommitlintRulesCatalogue)])]).
    cbv iota beta.
    change (lookupRule (TestSupport.world others)
              (Object [("__esModule", Boolean true);
                       ("default",
                        Object [("rules",
                                 TestSupport.mockCommitlintRulesCatalogue)])])
              "body-max-line-length")
      with (Function TestSupport.bodyMaxLineLength).
    cbv iota beta.
    change (ruleArgs (TestSupport.createCommit (Str raw) body)
                     (TestSupport.bodyMaxLineLengthRuleConfig maxLength))
      with [TestSupport.createCommit (Str raw) body; Str "always"; maxLength].
    change (callFunction (TestSupport.world others)
              TestSupport.bodyMaxLineLength
              [TestSupport.createCommit (Str raw) body; Str "always";
               maxLength])
      with (CallReturns
              (TestSupport.mockBodyMaxLineLength
                 [TestSupport.createCommit (Str raw) body; Str "always";
                  maxLength])).
    destruct (mockBodyMaxLineLength_answer (Str raw) body maxLength)
      as [text ->].
    destruct (TestSupport.exceeds body maxLength).
    + simpl. rewrite delegatedFailure_eq. reflexivity.
    + simpl. reflexivity.
Qed.

Lemma X19_witness :
  ignoreForAuthors Substring
    (TestSupport.world (fun _ => ImportRejected (Str "not found")))
    (TestSupport.createCommit
       (Str "fix(deps): dependabot[bot] updates many things")
       (Str "a long line"))
    (Str "always")
    (TestSupport.options Substring "dependabot[bot]" (Number 5))
  = ([], Normal (outcome true (bypassed Substring "dependabot[bot]"))) /\
  result
    (ignoreForAuthors Trailer
       (TestSupport.world (fun _ => ImportRejected (Str "not found")))
       (TestSupport.createCommit (Str "feat: new amazing feature")
                                 (Str "a long line"))
       (Str "always")
       (TestSupport.options Trailer "dependabot[bot]" (Number 5)))
  = Normal (outcome false
              "[via @commitlint/rules/body-max-line-length] Mocked body-max-line-length: A line exceeds 5 characters.") /\
  result
    (ignoreForAuthors Substring
       (TestSupport.world (fun _ => ImportRejected (Str "not found")))
       (TestSupport.createCommit
          (Str "fix(deps): dependabot[bot] updates many things")
          (Str "a long line"))
       (Str "always")
       (TestSupport.options Substring EmptyString (Number 5)))
  = Normal (outcome false
              "[@mridang/commitlint-plugin-conditionals via @commitlint/rules/body-max-line-length] Mocked body-max-line-length: A line exceeds 5 characters.").
Proof.
  split; [|split].
  - apply (X19_mocked_rule_is_enforced_unless_bypassed Substring
             (fun _ => ImportRejected (Str "not found"))
             "fix(deps): dependabot[bot] updates many things"
             "dependabot[bot]" (Str "a long line") (Number 5));
      [discriminate | reflexivity].
  - rewrite (proj2 (X19_mocked_rule_is_enforced_unless_bypassed Trailer
                      (fun _ => ImportRejected (Str "not found"))
                      "feat: new amazing feature" "dependabot[bot]"
                      (Str "a long line") (Number 5))
                   (or_intror eq_refl)).
    reflexivity.
  - rewrite (proj2 (X19_mocked_rule_is_enforced_unless_bypassed Substring
                      (fun _ => ImportRejected (Str "not found"))
                      "fix(deps): dependabot[bot] updates many things"
                      EmptyString
                      (Str "a long line") (Number 5))
                   (or_introl eq_refl)).
    reflexivity.
Defined.


(** ** The bypass, where it holds *)

(** X20.  When the pattern option is a list of strings, the first pattern
    of the list that matches, if it is not empty, ends the rule at once with
    a passing outcome whose message names that pattern and says that the
    rule set was bypassed.  Nothing is imported or invoked, and
    [rulesToEnforce] is not looked at: it may hold anything. *)
Theorem X20_first_nonempty_match_bypasses :
  forall (v : Variant) (w : World) (commit when value : Value)
         (raw : string) (items : list Value)
         (before after : list string) (matched : string),
    enabled when ->
    isNullish commit = false ->
    get commit "raw" = Str raw ->
    get (optionsOf value) (patternsField v) = Array items ->
    allStrings items = Some (before ++ matched :: after)%list ->
    (forall p, In p before -> patternMatches v raw p = false) ->
    patternMatches v raw matched = true ->
    matched <> EmptyString ->
    ignoreForAuthors v w commit when value
    = ([], Normal (outcome true (bypassed v matched))) /\
    Text.includes (bypassed v matched) matched = true /\
    Text.includes (bypassed v matched)
                  "Ruleset defined in 'rulesToEnforce' bypassed." = true.
Proof.
  intros v w commit when value raw items before after matched
         He Hc Hraw Hp Hall Hb Hm Hne.
  split; [|apply bypassed_mentions].
  now apply bypass_on_nonempty_first_match
    with (raw := raw) (items := items) (before := before) (after := after).
Qed.

Lemma X20_witness :
  ignoreForAuthors Substring Sample.world Sample.botCommit (Str "always")
    (Object [("ignoreAuthorPatterns",
              Array [Str "renovate-bot"; Str "dependabot[bot]";
                     Str "github-actions[bot]"]);
             ("rulesToEnforce", Array [Null; Number 3])])
  = ([], Normal (outcome true (bypassed Substring "dependabot[bot]"))).
Proof.
  apply (X20_first_nonempty_match_bypasses Substring Sample.world
           Sample.botCommit (Str "always")
           (Object [("ignoreAuthorPatterns",
                     Array [Str "renovate-bot"; Str "dependabot[bot]";
                            Str "github-actions[bot]"]);
                    ("rulesToEnforce", Array [Null; Number 3])])
           ("fix(deps): update by dependabot[bot]" ++ Sample.lf ++ Sample.lf
            ++ "Signed-off-by: dependabot[bot] <support@github.com>")
           [Str "renovate-bot"; Str "dependabot[bot]";
            Str "github-actions[bot]"]
           ["renovate-bot"] ["github-actions[bot]"] "dependabot[bot]").
  - reflexivity.
  - reflexivity.
  - reflexivity.
  - reflexivity.
  - reflexivity.
  - intros p [<-|[]]. reflexivity.
  - reflexivity.
  - discriminate.
Defined.

(** X21.  When no [Signed-off-by:] line of the raw text has a blank value,
    the sign-offs the regular expression extracts are the trimmed values of
    the lines that begin with [Signed-off-by:] in any letter case, one for
    each such line, in the order of the lines; a key that does not stand at
    the start of a line yields nothing.  A pattern that is not empty then
    bypasses the commit exactly when it occurs in the value of such a
    line. *)
Theorem X21_sign_offs_are_read_line_by_line :
  forall raw : string,
    TrailerSpec.noBlankSignOff raw ->
    TrailerVariant.extractSignOffs raw = TrailerSpec.signOffsByLine raw /\
    forall pattern,
      pattern <> EmptyString ->
      (checkPatterns Trailer raw (Array [Str pattern])
       = Some (outcome true (bypassed Trailer pattern)) <->
       exists line value,
         In line (TrailerSpec.splitLines raw) /\
         TrailerSpec.signOffOfLine line = Some value /\
         Text.includes value pattern = true).
Proof.
  intros raw Hraw. split.
  - now apply TrailerFacts.extractSignOffs_by_line.
  - intros pattern Hne. now apply trailer_bypass_by_line.
Qed.

Lemma X21_witness :
  TrailerVariant.extractSignOffs
    ("fix: Signed-off-by: nobody" ++ Sample.lf
     ++ "signed-off-by:  Ann <ann@example.com> " ++ Sample.lf
     ++ "Reviewed-by: Bob")
  = TrailerSpec.signOffsByLine
      ("fix: Signed-off-by: nobody" ++ Sample.lf
       ++ "signed-off-by:  Ann <ann@example.com> " ++ Sample.lf
       ++ "Reviewed-by: Bob").
Proof.
  apply X21_sign_offs_are_read_line_by_line.
  repeat constructor; discriminate.
Defined.

(** X22.  In the version keyed on trailers a raw text without any
    extracted sign-off is never bypassed: with a pattern option that is a
    list of strings, the rule does what it does with options that hold
    [rulesToEnforce] alone. *)
Theorem X22_no_sign_off_no_bypass :
  forall (w : World) (commit when value : Value) (raw : string)
         (items : list Value) (patterns : list string),
    get commit "raw" = Str raw ->
    TrailerVariant.extractSignOffs raw = [] ->
    get (optionsOf value) "signOffPatternsToIgnore" = Array items ->
    allStrings items = Some patterns ->
    ignoreForAuthors Trailer w commit when value
    = ignoreForAuthors Trailer w commit when
        (Object [("rulesToEnforce", get (optionsOf value) "rulesToEnforce")]).
Proof.
  intros w commit when value raw items patterns Hraw Hex Hp Hall.
  destruct (strictEqualsString (conditionOf when) "never") eqn:Hw.
  - now rewrite !ignoreForAuthors_disabled.
  - rewrite !(ignoreForAuthors_enabled Trailer w commit when _ Hw).
    unfold member. destruct (isNullish commit); [reflexivity|].
    unfold bind, ret. rewrite Hraw.
    change (patternsField Trailer) with "signOffPatternsToIgnore".
    rewrite Hp, (no_sign_off_no_bypass raw items patterns Hall Hex).
    reflexivity.
Qed.

Lemma X22_witness :
  ignoreForAuthors Trailer Sample.world
    (Sample.commit "fix(deps): update by dependabot[bot]") (Str "always")
    (Sample.options Trailer ["dependabot[bot]"] [Sample.typeEnumRule])
  = ignoreForAuthors Trailer Sample.world
      (Sample.commit "fix(deps): update by dependabot[bot]") (Str "always")
      (Object [("rulesToEnforce", Array [Sample.typeEnumRule])]).
Proof.
  apply (X22_no_sign_off_no_bypass Sample.world
           (Sample.commit "fix(deps): update by dependabot[bot]")
           (Str "always")
           (Sample.options Trailer ["dependabot[bot]"] [Sample.typeEnumRule])
           "fix(deps): update by dependabot[bot]"
           [Str "dependabot[bot]"] ["dependabot[bot]"]); reflexivity.
Defined.
